(** * MVAI: the beat-synchronised assembly engine and the stage folders

    A shallow embedding of [media_processor.py] ([MediaProcessor.load_beat_data],
    [MediaProcessor.create_mv_from_clips], [MediaProcessor.finalize_assets]) and of
    [app.py] ([MediaFileHandler.on_created]), with the properties the
    specification states about them.

    Times are Python floats.  The program text is embedded once, over an
    interface [Number] of the float operations it uses, and read at two
    instances: [float] (IEEE binary64, what the interpreter computes with) for
    the concrete scenarios, and [Q] (exact rationals) where a statement
    quantifies over all times and is meant up to rounding.  Where rounding
    decides what the code does, the statement is about binary64 itself, from
    its specification ([SpecFloat]). *)

From Stdlib Require Import ZArith QArith Qminmax Qround Lqa Floats Uint63 Sorted
  Ascii String.
From stdpp Require Import base option list gmap strings pretty.

(** ** Python run-time behaviour *)

(** The exceptions the embedded code can meet.  All of them are subclasses of
    [Exception]; [FfmpegError] is [ffmpeg.Error]. *)
Inductive exn : Type :=
  | FfmpegError
  | ZeroDivisionError
  | IndexError
  | OverflowError
  | OSError.

(** How a piece of code ends: it yields a value, raises, or keeps running
    ([Diverge]: the [while] loop was cut off by the fuel of the model). *)
Inductive outcome (A : Type) : Type :=
  | Return (a : A)
  | Raise (e : exn)
  | Diverge.
Arguments Return {A} a.
Arguments Raise {A} e.
Arguments Diverge {A}.

Definition obind {A B : Type} (m : outcome A) (k : A -> outcome B) : outcome B :=
  match m with
  | Return a => k a
  | Raise e => Raise e
  | Diverge => Diverge
  end.

Declare Scope py_scope.
Delimit Scope py_scope with py.
Notation "'let?' x ':=' m 'in' k" := (obind m (fun x => k))
  (at level 10, x name, m at level 100, k at level 200) : py_scope.
Open Scope py_scope.

(** [a % n] on non-negative integers. *)
Definition py_mod (a n : nat) : outcome nat :=
  match n with
  | O => Raise ZeroDivisionError
  | S _ => Return (a mod n)
  end.

(** [l[i]] for [0 <= i]. *)
Definition py_index {A : Type} (l : list A) (i : nat) : outcome A :=
  match nth_error l i with
  | Some x => Return x
  | None => Raise IndexError
  end.

(** [range(start, stop, step)] with [step > 0]; [fuel] bounds the number of
    elements, and [py_range] gives it [stop], which is enough. *)
Fixpoint range_from (fuel start stop step : nat) : list nat :=
  match fuel with
  | O => []
  | S fuel' =>
      if (start <? stop)%nat
      then start :: range_from fuel' (start + step) stop step
      else []
  end.

Definition py_range (start stop step : nat) : list nat :=
  range_from stop start stop step.

(** ** Float arithmetic *)

Class Number (T : Type) : Type := {
  of_Z : Z -> T;                (* a literal with an integral value *)
  add : T -> T -> T;
  sub : T -> T -> T;
  div : T -> T -> T;            (* only ever called on a non-zero divisor *)
  ltb : T -> T -> bool;
  leb : T -> T -> bool;
  to_int : T -> option Z        (* truncation towards zero, when finite *)
}.

(** [int(x)] *)
Definition py_int {T : Type} `{Number T} (x : T) : outcome Z :=
  match to_int x with
  | Some n => Return n
  | None => Raise OverflowError
  end.

(** [min(a, b)]: the first argument unless the second is smaller. *)
Definition py_min {T : Type} `{Number T} (a b : T) : T :=
  if ltb b a then b else a.

(** binary64 *)
Definition float_of_Z (z : Z) : float :=
  match z with
  | Z0 => PrimFloat.of_uint63 (Uint63.of_Z 0)
  | Zpos _ => PrimFloat.of_uint63 (Uint63.of_Z z)
  | Zneg p => PrimFloat.opp (PrimFloat.of_uint63 (Uint63.of_Z (Zpos p)))
  end.

Definition float_int (x : float) : option Z :=
  match Prim2SF x with
  | S754_zero _ => Some 0%Z
  | S754_finite s m e =>
      let v := if (0 <=? e)%Z then (Zpos m * 2 ^ e)%Z
               else (Zpos m / 2 ^ (- e))%Z in
      Some (if s then (- v)%Z else v)
  | S754_infinity _ => None
  | S754_nan => None
  end.

#[export] Instance float_number : Number float := {
  of_Z := float_of_Z;
  add := PrimFloat.add;
  sub := PrimFloat.sub;
  div := PrimFloat.div;
  ltb := PrimFloat.ltb;
  leb := PrimFloat.leb;
  to_int := float_int
}.

(** exact rationals *)
Definition Q_ltb (a b : Q) : bool := negb (Qle_bool b a).

Definition Q_int (x : Q) : option Z := Some (Z.quot (Qnum x) (Zpos (Qden x))).

#[export] Instance Q_number : Number Q := {
  of_Z := inject_Z;
  add := Qplus;
  sub := Qminus;
  div := Qdiv;
  ltb := Q_ltb;
  leb := Qle_bool;
  to_int := Q_int
}.

(** ** The clip segment planner ([create_mv_from_clips], planning part) *)

Section Planner.
Context {T : Type} `{Number T} {Clip : Type}.

(** One entry of [clip_segments]. *)
Record segment : Type := Segment {
  clip : Clip;
  start_time : T;
  duration : T;
  output_start : T
}.

Variable video_clips : list Clip.
Variable clip_durations : list T.
Variable audio_duration : T.

Definition beats_per_clip : nat := 4.

(** *** Beat-synced mode.  The loop state is [(clip_index, clip_segments)]. *)
Section BeatSync.
Variable beat_times : list T.

(** The window that starts at beat [i]: [(segment_start, segment_end)]. *)
Definition window (i : nat) : outcome (T * T) :=
  if (i + beats_per_clip <? length beat_times)%nat then
    let? segment_start := py_index beat_times i in
    let? segment_end := py_index beat_times (i + beats_per_clip) in
    Return (segment_start, segment_end)
  else
    let? segment_start := py_index beat_times i in
    Return (segment_start, audio_duration).

(** One pass through the body of the [for] loop. *)
Definition beat_body (st : nat * list segment) (i : nat)
  : outcome (nat * list segment) :=
  let '(clip_index, clip_segments) := st in
  let? w := window i in
  let segment_start := fst w in
  let segment_duration := sub (snd w) (fst w) in
  if leb segment_duration (of_Z 0) then Return (clip_index, clip_segments)
  else
    let? k := py_mod clip_index (length video_clips) in
    let? c := py_index video_clips k in
    let? clip_duration := py_index clip_durations k in
    if leb clip_duration (of_Z 0) then Return (S clip_index, clip_segments)
    else
      let use_duration := py_min clip_duration segment_duration in
      Return (S clip_index,
              clip_segments ++ [Segment c (of_Z 0) use_duration segment_start]).

Fixpoint beat_loop (starts : list nat) (st : nat * list segment)
  : outcome (nat * list segment) :=
  match starts with
  | [] => Return st
  | i :: starts' => let? st' := beat_body st i in beat_loop starts' st'
  end.

Definition plan_beat_sync : outcome (list segment) :=
  let? st := beat_loop (py_range 0 (length beat_times) beats_per_clip) (0%nat, []) in
  Return (snd st).
End BeatSync.

(** *** Sequential fill.  [while current_time < audio_duration: ...] *)
Fixpoint fill_loop (fuel : nat) (current_time : T) (clip_index : nat)
    (clip_segments : list segment) : outcome (list segment) :=
  if ltb current_time audio_duration then
    match fuel with
    | O => Diverge
    | S fuel' =>
        let? k := py_mod clip_index (length video_clips) in
        let? c := py_index video_clips k in
        let? clip_duration := py_index clip_durations k in
        let remaining := sub audio_duration current_time in
        let use_duration := py_min clip_duration remaining in
        fill_loop fuel' (add current_time use_duration) (S clip_index)
          (clip_segments ++ [Segment c (of_Z 0) use_duration current_time])
    end
  else Return clip_segments.

Definition plan_sequential (fuel : nat) : outcome (list segment) :=
  fill_loop fuel (of_Z 0) 0%nat [].
End Planner.

Arguments segment T Clip : clear implicits.
Arguments Segment {T Clip} clip start_time duration output_start.


(** ** Logging and exceptions around effectful code *)

Inductive log_level : Type := INFO | WARNING | ERROR | SUCCESS.

(** One call of [log_callback(message, level)].  The text is the fixed part of
    the message; interpolated values are left out. *)
Record log_entry : Type := LogEntry { level : log_level; message : string }.

(** Effectful code threads a state [W] that holds the log, and whatever else
    the function at hand changes.  [log_callback] itself is taken not to raise
    (the default callback is a no-op lambda). *)
Class Logging (W : Type) : Type := write_log : log_entry -> W -> W.

#[export] Instance log_only : Logging (list log_entry) := fun e l => l ++ [e].

Definition M (W A : Type) : Type := W -> outcome A * W.

Definition ret {W A : Type} (a : A) : M W A := fun s => (Return a, s).

Definition bind {W A B : Type} (m : M W A) (k : A -> M W B) : M W B :=
  fun s =>
    match m s with
    | (Return a, s') => k a s'
    | (Raise e, s') => (Raise e, s')
    | (Diverge, s') => (Diverge, s')
    end.

Notation "'let*' x ':=' m 'in' k" := (bind m (fun x => k))
  (at level 10, x name, m at level 100, k at level 200) : py_scope.

Definition lift {W A : Type} (o : outcome A) : M W A := fun s => (o, s).

Definition log_callback {W : Type} `{Logging W} (msg : string) (lvl : log_level)
  : M W unit :=
  fun s => (Return tt, write_log (LogEntry lvl msg) s).

(** [try: body / except <catches> as e: handler e].  A running loop is not an
    exception: [Diverge] passes through. *)
Definition try_except {W A : Type} (body : M W A) (catches : exn -> bool)
    (handler : exn -> M W A) : M W A :=
  fun s =>
    match body s with
    | (Raise e, s') => if catches e then handler e s' else (Raise e, s')
    | r => r
    end.

(** [except ffmpeg.Error], and [except Exception] or a bare [except]. *)
Definition ffmpeg_Error (e : exn) : bool :=
  match e with FfmpegError => true | _ => false end.
Definition Exception (e : exn) : bool := true.

(** What a call of an external collaborator (the transcoding tool, the file
    system) comes back with.  Calls are taken to come back. *)
Inductive tool_result (A : Type) : Type :=
  | Done (a : A)
  | Failed (e : exn).
Arguments Done {A} a.
Arguments Failed {A} e.

Definition run {W A : Type} (r : tool_result A) : M W A :=
  match r with
  | Done a => ret a
  | Failed e => lift (Raise e)
  end.

(** ** The beat grid ([load_beat_data]) *)

Section BeatGrid.
Context {T : Type} `{Number T} {W : Type} `{Logging W}.

(** The dictionary [load_beat_data] returns. *)
Record beat_data : Type := BeatData {
  bpm : T;
  beat_times : list T;
  total_beats : nat
}.

(** [csv] is the sidecar table: [None] when [csv_path.exists()] is false,
    otherwise what [pd.read_csv] comes back with, a data frame as a map from
    column names to columns. *)
Definition load_beat_data (csv : option (tool_result (gmap string (list T))))
  : M W (option beat_data) :=
  try_except
    (match csv with
     | None =>
         let* _ := log_callback "ビートデータが見つかりません" WARNING in
         ret None
     | Some read =>
         let* df := run read in
         match df !! "beat_time_seconds" with
         | None =>
             let* _ := log_callback "ビートデータの形式が正しくありません" ERROR in
             ret None
         | Some beat_times =>
             let* bpm :=
               if (2 <=? length beat_times)%nat then
                 let* t1 := lift (py_index beat_times 1) in
                 let* t0 := lift (py_index beat_times 0) in
                 let beat_interval := sub t1 t0 in
                 ret (if ltb (of_Z 0) beat_interval
                      then div (of_Z 60) beat_interval
                      else of_Z 120)
               else ret (of_Z 120) in
             ret (Some (BeatData bpm beat_times (length beat_times)))
         end
     end)
    Exception
    (fun _ =>
       let* _ := log_callback "ビートデータの読み込みエラー" ERROR in
       ret None).
End BeatGrid.

Arguments beat_data T : clear implicits.
Arguments BeatData {T} bpm beat_times total_beats.

(** ** The composite assembly engine ([create_mv_from_clips]) *)

(** The external collaborators of one call: what the probing and transcoding
    tool and the file system answer at each place the function asks.  [Video]
    stands for a media file the tool wrote. *)
Record Tools (T Clip Video : Type) : Type := {
  audio_exists : bool;                                  (* audio_path.exists() *)
  probe_audio : tool_result T;                          (* duration of the audio *)
  mkdir_temp : tool_result unit;                        (* temp_dir.mkdir(...) *)
  beat_csv : option (tool_result (gmap string (list T)));
  probe_clip : Clip -> tool_result T;                   (* duration of one clip *)
  extract : nat -> segment T Clip -> tool_result (option Video);
                                                        (* segment i; the file when it exists *)
  write_concat : list Video -> tool_result unit;        (* concat_list.txt, mode 'w' *)
  append_concat : list Video -> tool_result unit;       (* concat_list.txt, mode 'a' *)
  concat_demux : list Video -> option T -> tool_result Video;
                                                        (* concat demuxer, with t= or not *)
  probe_video : Video -> tool_result T;
  stat_size : Video -> tool_result N;                   (* stat().st_size *)
  trim_copy : Video -> T -> tool_result Video;          (* t=..., vcodec='copy' *)
  mux : Video -> tool_result unit;                      (* video + audio -> output_path *)
  cleanup : tool_result unit;                           (* the unlink calls *)
  output_nonempty : tool_result bool                    (* exists() and st_size > 0 *)
}.
Arguments audio_exists {T Clip Video} _.
Arguments probe_audio {T Clip Video} _.
Arguments mkdir_temp {T Clip Video} _.
Arguments beat_csv {T Clip Video} _.
Arguments probe_clip {T Clip Video} _ _.
Arguments extract {T Clip Video} _ _ _.
Arguments write_concat {T Clip Video} _ _.
Arguments append_concat {T Clip Video} _ _.
Arguments concat_demux {T Clip Video} _ _ _.
Arguments probe_video {T Clip Video} _ _.
Arguments stat_size {T Clip Video} _ _.
Arguments trim_copy {T Clip Video} _ _ _.
Arguments mux {T Clip Video} _ _.
Arguments cleanup {T Clip Video} _.
Arguments output_nonempty {T Clip Video} _.

Section Assembly.
Context {T : Type} `{Number T} {Clip Video : Type} {W : Type} `{Logging W}.
Variable tools : Tools T Clip Video.

(** [clip_durations]: a clip whose probe fails counts as duration 0. *)
Fixpoint probe_clips (video_clips : list Clip) : M W (list T) :=
  match video_clips with
  | [] => ret []
  | c :: rest =>
      let* d := try_except (run (probe_clip tools c)) Exception
                  (fun _ => ret (of_Z 0)) in
      let* ds := probe_clips rest in
      ret (d :: ds)
  end.

(** [segment_files]: the segments whose file exists after its extraction. *)
Fixpoint render_segments (i : nat) (clip_segments : list (segment T Clip))
    (segment_files : list Video) : M W (list Video) :=
  match clip_segments with
  | [] => ret segment_files
  | s :: rest =>
      let* f := run (extract tools i s) in
      render_segments (S i) rest
        (match f with
         | Some v => segment_files ++ [v]
         | None => segment_files
         end)
  end.

(** [segment_files[-1]] *)
Definition py_last (segment_files : list Video) : outcome Video :=
  match last segment_files with
  | Some v => Return v
  | None => Raise IndexError
  end.

(** The duration-matching step; whatever goes wrong inside is passed over
    ([except: pass]) and the video is used as it was.  [loop_count] is never
    used: of its evaluation only the division by the file size is kept, which
    raises for a final segment of size 0. *)
Definition match_duration (segment_files : list Video) (combined_video : Video)
    (audio_duration : T) : M W Video :=
  try_except
    (let* combined_duration := run (probe_video tools combined_video) in
     if ltb combined_duration audio_duration then
       let* final_segment := lift (py_last segment_files) in
       let* size := run (stat_size tools final_segment) in
       let* _ := lift (if (size =? 0)%N then Raise ZeroDivisionError
                       else Return tt) in
       let* n := lift (py_int (div (sub audio_duration combined_duration) (of_Z 2))) in
       let repeats := replicate (Z.to_nat (n + 1)) final_segment in
       let* _ := run (append_concat tools repeats) in
       run (concat_demux tools (segment_files ++ repeats) (Some audio_duration))
     else if ltb audio_duration combined_duration then
       run (trim_copy tools combined_video audio_duration)
     else ret combined_video)
    Exception
    (fun _ => ret combined_video).

(** The inner [try] block: render, concatenate, match the length, mux. *)
Definition assemble (clip_segments : list (segment T Clip)) (audio_duration : T)
  : M W bool :=
  try_except
    (let* segment_files := render_segments 0 clip_segments [] in
     match segment_files with
     | [] =>
         let* _ := log_callback "セグメントファイルが生成されませんでした" ERROR in
         ret false
     | _ :: _ =>
         let* _ := run (write_concat tools segment_files) in
         let* combined :=
           try_except
             (let* v := run (concat_demux tools segment_files None) in ret (Some v))
             ffmpeg_Error
             (fun _ =>
                let* _ := log_callback "動画結合エラー" ERROR in
                ret None) in
         match combined with
         | None => ret false
         | Some combined_video =>
             let* combined_video :=
               match_duration segment_files combined_video audio_duration in
             let* _ := run (mux tools combined_video) in
             let* _ := try_except (run (cleanup tools)) Exception
                         (fun _ => ret tt) in
             let* ok := run (output_nonempty tools) in
             if ok then
               let* _ := log_callback "MV生成完了" SUCCESS in
               ret true
             else
               let* _ := log_callback "MVファイルが生成されませんでした" ERROR in
               ret false
         end
     end)
    ffmpeg_Error
    (fun _ =>
       let* _ := log_callback "MV生成エラー" ERROR in
       ret false).

(** [fuel] bounds the passes of the sequential-fill [while] loop. *)
Definition create_mv_from_clips (fuel : nat) (video_clips : list Clip)
    (sync_to_beat : bool) : M W bool :=
  try_except
    (let* _ := log_callback "MV生成を開始" INFO in
     if negb (audio_exists tools) then
       let* _ := log_callback "音声ファイルが見つかりません" ERROR in
       ret false
     else
       let* audio_duration :=
         try_except (run (probe_audio tools)) Exception
           (fun _ => ret (of_Z 0)) in
       if leb audio_duration (of_Z 0) then
         let* _ := log_callback "音声の長さを取得できませんでした" ERROR in
         ret false
       else
         let* _ := run (mkdir_temp tools) in
         let* beat :=
           if sync_to_beat then
             let* loaded := load_beat_data (beat_csv tools) in
             match loaded with
             | Some d =>
                 let* _ := log_callback "ビートデータを読み込みました" INFO in
                 ret (Some d)
             | None =>
                 let* _ := log_callback
                   "ビートデータが見つかりません。通常の結合を行います。" WARNING in
                 ret None
             end
           else ret None in
         let* clip_durations := probe_clips video_clips in
         let* clip_segments :=
           match beat with
           | Some d =>
               let* p := lift (plan_beat_sync video_clips clip_durations
                                 audio_duration (beat_times d)) in
               let* _ := log_callback "ビート同期" INFO in
               ret p
           | None =>
               let* p := lift (plan_sequential video_clips clip_durations
                                 audio_duration fuel) in
               let* _ := log_callback "通常結合" INFO in
               ret p
           end in
         assemble clip_segments audio_duration)
    Exception
    (fun _ =>
       let* _ := log_callback "MV生成エラー" ERROR in
       ret false).
End Assembly.

(** ** Paths and stage folders *)

(** A [pathlib.Path], as its [parts]. *)
Abbreviation path := (list string).

Definition path_name (p : path) : string := default "" (last p).
Definition path_parent (p : path) : path := removelast p.
Definition joinpath (p : path) (child : string) : path := p ++ [child].

(** [name.rfind('.')], scanning with the index of the last dot seen. *)
Fixpoint rfind_dot (i : nat) (s : string) (found : option nat) : option nat :=
  match s with
  | EmptyString => found
  | String c s' =>
      rfind_dot (S i) s' (if Ascii.eqb c "."%char then Some i else found)
  end.

(** The position at which [Path.suffix] and [Path.stem] split the name. *)
Definition suffix_start (nm : string) : option nat :=
  match rfind_dot 0 nm None with
  | Some i =>
      if (0 <? i)%nat && (i <? String.length nm - 1)%nat then Some i else None
  | None => None
  end.

Definition path_suffix (p : path) : string :=
  match suffix_start (path_name p) with
  | Some i => String.substring i (String.length (path_name p) - i) (path_name p)
  | None => ""
  end.

Definition path_stem (p : path) : string :=
  match suffix_start (path_name p) with
  | Some i => String.substring 0 i (path_name p)
  | None => path_name p
  end.

(** [str.lower()], on the ASCII letters. *)
Definition lower_char (c : ascii) : ascii :=
  let n := Ascii.nat_of_ascii c in
  if (65 <=? n)%nat && (n <=? 90)%nat then Ascii.ascii_of_nat (n + 32) else c.

Fixpoint lower (s : string) : string :=
  match s with
  | EmptyString => EmptyString
  | String c s' => String (lower_char c) (lower s')
  end.

(** [f"{stem}({counter}){suffix}"] *)
Definition numbered (stem_ : string) (counter : nat) (suffix_ : string) : string :=
  stem_ +:+ "(" +:+ pretty counter +:+ ")" +:+ suffix_.

Definition used_folder : string := "使用済み素材".
Definition audio_input_folder : string := "01_曲_Input".
Definition video_input_folder : string := "02_元動画_Sora".
Definition ai_video_folder : string := "04_AI動画_生成中".
Definition hq_video_folder : string := "05_動画_高品質化".
Definition lipsync_video_folder : string := "06_動画_口パク".
Definition final_assets_folder : string := "99_MV_編集素材".

(** ** The file system *)

Inductive node : Type :=
  | File (data : string)
  | Dir.

Record world : Type := World {
  files : gmap path node;
  log : list log_entry
}.

#[export] Instance world_logging : Logging world :=
  fun e w => World (files w) (log w ++ [e]).

Inductive io_op : Type :=
  | OpMkdir (p : path)
  | OpCopy (src dst : path)
  | OpMove (src dst : path)
  | OpWrite (p : path).

Section FileSystem.
(** What depends on the platform: the size [stat] reports for a directory,
    and the operations the operating system refuses (permissions, a full
    disk, a locked file). *)
Variable dir_size : N.
Variable refuses : io_op -> bool.

Definition set_files (f : gmap path node -> gmap path node) : M world unit :=
  fun w => (Return tt, World (f (files w)) (log w)).

Definition lookup_node (p : path) : M world (option node) :=
  fun w => (Return (files w !! p), w).

(** [p.exists()] *)
Definition path_exists (p : path) : M world bool :=
  let* n := lookup_node p in ret (bool_decide (is_Some n)).

(** [p.stat().st_size] *)
Definition st_size (p : path) : M world N :=
  let* n := lookup_node p in
  match n with
  | Some (File data) => ret (N.of_nat (String.length data))
  | Some Dir => ret dir_size
  | None => lift (Raise OSError)
  end.

(** [p.mkdir(parents=True, exist_ok=True)]; the parents are stage folders
    the constructor made. *)
Definition mkdir (p : path) : M world unit :=
  let* n := lookup_node p in
  match n with
  | Some Dir => ret tt
  | Some (File _) => lift (Raise OSError)
  | None =>
      if refuses (OpMkdir p) then lift (Raise OSError)
      else set_files (insert p Dir)
  end.

(** [shutil.copy2(src, dst)], for a [dst] that is not a directory. *)
Definition copy2 (src dst : path) : M world unit :=
  let* n := lookup_node src in
  match n with
  | Some (File data) =>
      if refuses (OpCopy src dst) then lift (Raise OSError)
      else set_files (insert dst (File data))
  | _ => lift (Raise OSError)
  end.

(** [shutil.move(src, dst)], for a [dst] that does not exist. *)
Definition move (src dst : path) : M world unit :=
  let* n := lookup_node src in
  match n with
  | Some nd =>
      if refuses (OpMove src dst) then lift (Raise OSError)
      else set_files (fun fs => <[dst := nd]> (delete src fs))
  | None => lift (Raise OSError)
  end.

Definition write_file (p : path) (data : string) : M world unit :=
  if refuses (OpWrite p) then lift (Raise OSError)
  else set_files (insert p (File data)).

(** [counter = 1; while p.exists(): p = candidate(counter); counter += 1],
    entered with the first [p] and [counter]. *)
Fixpoint free_name (fuel : nat) (candidate : nat -> path) (p : path)
    (counter : nat) : M world path :=
  let* taken := path_exists p in
  if taken then
    match fuel with
    | O => lift Diverge
    | S fuel' => free_name fuel' candidate (candidate counter) (S counter)
    end
  else ret p.

(** *** [finalize_assets] *)
Section Finalize.
Context {Probe : Type}.
Variable final_assets_dir lipsync_video_dir : path.
Variable probe : path -> tool_result Probe.             (* ffmpeg.probe *)
Variable metadata_xml : Probe -> string -> string -> string.
                               (* the document, from FileName and OriginalFileName *)

(** The [try] block that puts the video into the set folder: a video from
    a "used" archive is copied as it is; any other is first moved to the
    archive of the lip-sync stage and copied from there.  It answers
    whether the block got through ([return] in the handler otherwise). *)
Definition place_video (fuel : nat) (file_path dest_video_path : path)
  : M world bool :=
  try_except
    (if bool_decide (used_folder ∈ file_path) then
       let* _ := copy2 file_path dest_video_path in
       let* _ := log_callback "動画ファイルをコピーしました" INFO in
       ret true
     else
       let used_dir := joinpath lipsync_video_dir used_folder in
       let* used_path :=
         free_name fuel
           (fun counter =>
              joinpath used_dir
                (numbered (path_stem file_path) counter (path_suffix file_path)))
           (joinpath used_dir (path_name file_path)) 1 in
       let* _ := move file_path used_path in
       let* _ := log_callback "元ファイルを移動しました" INFO in
       let* _ := copy2 used_path dest_video_path in
       let* _ := log_callback "動画ファイルをコピーしました" INFO in
       ret true)
    Exception
    (fun _ =>
       let* _ := log_callback "ファイル移動に失敗しました" ERROR in
       ret false).

(** The metadata record next to the video. *)
Definition write_metadata (fuel : nat) (pr : Probe)
    (set_folder file_path dest_video_path : path) : M world unit :=
  let video_name := path_stem file_path in
  let* xml_path :=
    free_name fuel
      (fun counter =>
         joinpath set_folder
           (numbered (video_name +:+ "_metadata") counter ".xml"))
      (joinpath set_folder (video_name +:+ "_metadata.xml")) 1 in
  try_except
    (let* _ := write_file xml_path
                 (metadata_xml pr (path_name dest_video_path)
                    (path_name file_path)) in
     log_callback "XMLメタデータを生成しました" SUCCESS)
    Exception
    (fun _ => log_callback "XML生成エラー" ERROR).

Definition finalize_assets (fuel : nat) (file_path : path) : M world unit :=
  try_except
    (let* present := path_exists file_path in
     if negb present then log_callback "ファイルが見つかりません" ERROR
     else
       let* size := st_size file_path in
       if (size =? 0)%N then log_callback "空のファイルです" ERROR
       else
         let* _ := log_callback "最終処理を開始" INFO in
         let* probed :=
           try_except
             (let* pr := run (probe file_path) in ret (Some pr))
             Exception
             (fun _ =>
                let* _ := log_callback "動画情報の取得に失敗しました" ERROR in
                ret None) in
         match probed with
         | None => ret tt
         | Some pr =>
             let video_name := path_stem file_path in
             let* set_folder :=
               free_name fuel
                 (fun counter =>
                    joinpath final_assets_dir (numbered video_name counter ""))
                 (joinpath final_assets_dir video_name) 1 in
             let* _ := mkdir set_folder in
             let* _ := log_callback "セットフォルダを作成しました" INFO in
             let* dest_video_path :=
               free_name fuel
                 (fun counter =>
                    joinpath set_folder
                      (numbered (path_stem file_path) counter
                         (path_suffix file_path)))
                 (joinpath set_folder (path_name file_path)) 1 in
             let* placed := place_video fuel file_path dest_video_path in
             if negb placed then ret tt
             else
               let* _ := write_metadata fuel pr set_folder file_path
                           dest_video_path in
               log_callback "最終処理完了" SUCCESS
         end)
    Exception
    (fun _ => log_callback "最終処理エラー" ERROR).
End Finalize.
End FileSystem.

(** ** The folder watcher ([MediaFileHandler.on_created]) *)

(** The stage handler a worker thread is started on. *)
Inductive job : Type :=
  | process_audio_file
  | process_video_file
  | trigger_quality_pipeline
  | process_lipsync
  | finalize.

(** What the handler can see and change: the files (it only looks), the log,
    its set [processed_files], and the threads it has started. *)
Record watcher : Type := Watcher {
  disk : gmap path node;
  entries : list log_entry;
  processed_files : gset path;
  threads : list (job * path)
}.

#[export] Instance watcher_logging : Logging watcher :=
  fun e w => Watcher (disk w) (entries w ++ [e]) (processed_files w) (threads w).

Record event : Type := Event { is_directory : bool; src_path : path }.

Definition valid_audio_extensions : gset string :=
  {[ ".mp3"; ".wav"; ".flac"; ".m4a"; ".aac"; ".ogg"; ".wma" ]}.
Definition valid_video_extensions : gset string :=
  {[ ".mp4"; ".avi"; ".mov"; ".mkv"; ".wmv"; ".flv"; ".webm"; ".m4v" ]}.

Definition already_processed (p : path) : M watcher bool :=
  fun w => (Return (bool_decide (p ∈ processed_files w)), w).

Definition on_disk (p : path) : M watcher bool :=
  fun w => (Return (bool_decide (is_Some (disk w !! p))), w).

Definition mark_processed (p : path) : M watcher unit :=
  fun w => (Return tt,
            Watcher (disk w) (entries w) ({[ p ]} ∪ processed_files w) (threads w)).

(** [threading.Thread(target=..., args=(file_path,), daemon=True).start()] *)
Definition start_thread (j : job) (p : path) : M watcher unit :=
  fun w => (Return tt,
            Watcher (disk w) (entries w) (processed_files w) (threads w ++ [(j, p)])).

(** The state is the one found after [time.sleep(1)]. *)
Definition on_created (ev : event) : M watcher unit :=
  try_except
    (if is_directory ev then ret tt
     else
       let file_path := src_path ev in
       let* seen := already_processed file_path in
       if seen then ret tt
       else
         let* present := on_disk file_path in
         if negb present then ret tt
         else
           let file_ext := lower (path_suffix file_path) in
           let parent_folder := path_name (path_parent file_path) in
           if bool_decide (parent_folder = audio_input_folder)
              && negb (bool_decide (file_ext ∈ valid_audio_extensions)) then
             log_callback "対応していない音声ファイル形式です" ERROR
           else if bool_decide (parent_folder = video_input_folder)
                   && negb (bool_decide (file_ext ∈ valid_video_extensions)) then
             log_callback "対応していない動画ファイル形式です" ERROR
           else
             let* _ := mark_processed file_path in
             if bool_decide (parent_folder = audio_input_folder) then
               start_thread process_audio_file file_path
             else if bool_decide (parent_folder = video_input_folder) then
               start_thread process_video_file file_path
             else if bool_decide (parent_folder = ai_video_folder) then
               start_thread trigger_quality_pipeline file_path
             else if bool_decide (parent_folder = hq_video_folder) then
               start_thread process_lipsync file_path
             else if bool_decide (parent_folder = lipsync_video_folder) then
               start_thread finalize file_path
             else ret tt)
    Exception
    (fun _ =>
       try_except (log_callback "ファイル処理エラー" ERROR) Exception
         (fun _ => ret tt)).

(** The handler states a watcher instance can be in: it starts with nothing
    processed, and each event is handled on whatever the disk and the log then
    hold. *)
Inductive reachable : gset path -> Prop :=
  | reachable_init : reachable ∅
  | reachable_event (seen : gset path) (ev : event) (fs : gmap path node)
      (l : list log_entry) (ts : list (job * path)) :
      reachable seen ->
      reachable (processed_files (snd (on_created ev (Watcher fs l seen ts)))).

(** ** The session log of the application ([add_log]) *)

(** An entry of [st.session_state.processing_logs]: the time it was made,
    and the type and message it was made with. *)
Record session_entry : Type := SessionEntry {
  timestamp : string;
  logged : log_entry
}.

(** [l[-n:]] for [n > 0] *)
Definition py_tail {A : Type} (n : nat) (l : list A) : list A :=
  drop (length l - n) l.

(** [now] is [datetime.now().strftime(...)]. *)
Definition add_log (now : string) (msg : string) (log_type : log_level)
    (processing_logs : list session_entry) : list session_entry :=
  let processing_logs :=
    processing_logs ++ [SessionEntry now (LogEntry log_type msg)] in
  if (100 <? length processing_logs)%nat then py_tail 100 processing_logs
  else processing_logs.

(** ** The folders of the application ([create_folders]) *)

Definition REQUIRED_FOLDERS : list string :=
  [ "00_キャラクター"; "01_曲_Input"; "02_元動画_Sora"; "03_静止画_選定";
    "04_AI動画_生成中"; "05_動画_高品質化"; "06_動画_口パク"; "98_MV_完成品";
    "99_MV_編集素材"; "99_Logs" ].

Section Folders.
Variable refuses : io_op -> bool.
Variable BASE_DIR : path.

(** The loop over [folders], entered with the list [created_folders]. *)
Fixpoint create_folders_from (folders : list string)
    (created_folders : list string) : M world (list string) :=
  match folders with
  | [] => ret created_folders
  | folder :: rest =>
      let folder_path := joinpath BASE_DIR folder in
      let* present := path_exists folder_path in
      if negb present then
        let* _ := mkdir refuses folder_path in
        create_folders_from rest (created_folders ++ [folder])
      else create_folders_from rest created_folders
  end.

Definition create_folders : M world (list string) :=
  create_folders_from REQUIRED_FOLDERS [].
End Folders.

(** ** More float arithmetic *)

(** [a * b] *)
Class Product (T : Type) : Type := mul : T -> T -> T.

#[export] Instance float_product : Product float := PrimFloat.mul.
#[export] Instance Q_product : Product Q := Qmult.

(** [b == 0] on floats *)
Definition is_zero {T : Type} `{Number T} (b : T) : bool :=
  leb b (of_Z 0) && leb (of_Z 0) b.

(** [a / b] on integers, and on floats.  The integers of the stages are
    pixel counts and frame-rate terms, far below [2^53], where the
    quotient of the integers is the quotient of their floats. *)
Definition int_truediv {T : Type} `{Number T} (a b : Z) : outcome T :=
  if (b =? 0)%Z then Raise ZeroDivisionError
  else Return (div (of_Z a) (of_Z b)).

Definition float_truediv {T : Type} `{Number T} (a b : T) : outcome T :=
  if is_zero b then Raise ZeroDivisionError else Return (div a b).

(** ** The stage handlers of [MediaProcessor] *)

Module MediaProcessor.

(** The [r_frame_rate] of a stream, as the stages read it: a fraction
    ["30000/1001"], a number without a slash, the empty string, or a text
    whose reading raises [ValueError] or [TypeError]. *)
Inductive frame_rate (T : Type) : Type :=
  | Ratio (numerator denominator : Z)
  | Plain (x : T)
  | Blank
  | Unreadable.
Arguments Ratio {T} numerator denominator.
Arguments Plain {T} x.
Arguments Blank {T}.
Arguments Unreadable {T}.

(** The first video stream of a probe, with [width] and [height] as
    [int(...)] reads them (1920 and 1080 when the stream has no such entry).
    A stream whose [width] or [height] does not read as an integer is not
    described: there [int(...)] raises inside the [try] of the encoder
    settings. *)
Record video_info (T : Type) : Type := VideoInfo {
  width : Z;
  height : Z;
  r_frame_rate : frame_rate T
}.
Arguments VideoInfo {T} width height r_frame_rate.
Arguments width {T} v.
Arguments height {T} v.
Arguments r_frame_rate {T} v.

(** What the quality stage asks of the encoder. *)
Record settings (T : Type) : Type := Settings {
  target_width : Z;
  target_height : Z;
  target_fps : T;
  interpolate : bool
}.
Arguments Settings {T} target_width target_height target_fps interpolate.
Arguments target_width {T} s.
Arguments target_height {T} s.
Arguments target_fps {T} s.
Arguments interpolate {T} s.

Section Encoding.
Context {T : Type} `{Number T} `{Product T}.

(** The frame rate of a stream, 30 when it cannot be read. *)
Definition original_fps (r : frame_rate T) : T :=
  match r with
  | Ratio numerator denominator =>
      if (0 <? denominator)%Z then div (of_Z numerator) (of_Z denominator)
      else of_Z 30
  | Plain x => x
  | Blank => of_Z 30
  | Unreadable => of_Z 30
  end.

(** The resolution and frame rate the quality stage encodes to. *)
Definition upscale_settings (info : video_info T) : outcome (settings T) :=
  let width := width info in
  let height := height info in
  let original_fps := original_fps (r_frame_rate info) in
  let target_width := Z.min (width * 2) 3840 in
  let target_height := Z.min (height * 2) 2160 in
  let? aspect_ratio := int_truediv width height in
  let? shape := int_truediv target_width target_height in
  let? fitted :=
    if ltb aspect_ratio shape then
      let? target_width := py_int (mul (of_Z target_height) aspect_ratio) in
      Return (target_width, target_height)
    else
      let? q := float_truediv (of_Z target_width) aspect_ratio in
      let? target_height := py_int q in
      Return (target_width, target_height) in
  let target_width := (fitted.1 - fitted.1 mod 2)%Z in
  let target_height := (fitted.2 - fitted.2 mod 2)%Z in
  let target_fps :=
    if leb original_fps (of_Z 30) then of_Z 60
    else if leb original_fps (of_Z 60) then of_Z 60
    else original_fps in
  Return (Settings target_width target_height target_fps
            (ltb original_fps target_fps)).
End Encoding.

(** What [ffmpeg.probe] answers, as the stages read it: the first stream
    whose [codec_type] is ['video'], if there is one, and the duration in
    the [format] entry, if it reads as a float. *)
Record probe_answer (T : Type) : Type := ProbeAnswer {
  video_stream : option (video_info T);
  format_duration : option T
}.
Arguments ProbeAnswer {T} video_stream format_duration.
Arguments video_stream {T} p.
Arguments format_duration {T} p.

(** What a run of the transcoding tool does to its output path: the file it
    leaves there, if any, and the exception it ends with, if any.  A failed
    run may leave a partial file. *)
Record run_result : Type := RunResult {
  leaves : option string;
  raises : option exn
}.

(** [ffmpeg ... .output(str(out)).overwrite_output().run(quiet=True)] *)
Definition ffmpeg_run (out : path) (r : run_result) : M world unit :=
  fun w =>
    (match raises r with Some e => Raise e | None => Return tt end,
     match leaves r with
     | Some data => World (<[out := File data]> (files w)) (log w)
     | None => w
     end).

Section Stages.
Variable dir_size : N.
Variable refuses : io_op -> bool.
Variable unlink_refused : path -> bool.
Variable base_dir : path.

Definition ai_video_dir : path := joinpath base_dir ai_video_folder.
Definition hq_video_dir : path := joinpath base_dir hq_video_folder.
Definition lipsync_video_dir : path := joinpath base_dir lipsync_video_folder.
Definition final_assets_dir : path := joinpath base_dir final_assets_folder.
Definition still_images_dir : path := joinpath base_dir "03_静止画_選定".
Definition logs_dir : path := joinpath base_dir "99_Logs".

(** [p.unlink()] *)
Definition unlink (p : path) : M world unit :=
  let* n := lookup_node p in
  match n with
  | Some (File _) =>
      if unlink_refused p then lift (Raise OSError)
      else set_files (delete p)
  | _ => lift (Raise OSError)
  end.

(** *** [process_lipsync] *)

Definition process_lipsync (fuel : nat) (file_path : path) : M world unit :=
  try_except
    (let* present := path_exists file_path in
     if negb present then log_callback "ファイルが見つかりません" ERROR
     else
       let* size := st_size dir_size file_path in
       if (size =? 0)%N then log_callback "空のファイルです" ERROR
       else
         let* _ := log_callback "リップシンク処理を開始" INFO in
         let video_name := path_stem file_path in
         let* output_path :=
           free_name fuel
             (fun counter =>
                joinpath lipsync_video_dir
                  (numbered (video_name +:+ "_lipsync") counter
                     (path_suffix file_path)))
             (joinpath lipsync_video_dir
                (video_name +:+ "_lipsync" +:+ path_suffix file_path)) 1 in
         try_except
           (let* _ := copy2 refuses file_path output_path in
            let* made := path_exists output_path in
            if made then
              let* _ := log_callback "リップシンク処理完了" SUCCESS in
              if negb (bool_decide (used_folder ∈ file_path)) then
                try_except
                  (let used_dir := joinpath hq_video_dir used_folder in
                   let* used_path :=
                     free_name fuel
                       (fun counter =>
                          joinpath used_dir
                            (numbered (path_stem file_path) counter
                               (path_suffix file_path)))
                       (joinpath used_dir (path_name file_path)) 1 in
                   let* _ := move refuses file_path used_path in
                   log_callback "元ファイルを移動しました" INFO)
                  Exception
                  (fun _ => log_callback "元ファイルの移動に失敗しました" WARNING)
              else
                log_callback "使用済み素材フォルダの動画のため、移動しません" INFO
            else log_callback "リップシンク処理に失敗しました" ERROR)
           Exception
           (fun _ => log_callback "リップシンク処理エラー" ERROR))
    Exception
    (fun _ => log_callback "リップシンク処理エラー" ERROR).

(** *** [trigger_quality_pipeline] *)

Section Quality.
Context {T : Type} `{Number T} `{Product T}.
Variable probe : path -> tool_result (probe_answer T).      (* ffmpeg.probe *)
Variable encode : path -> path -> settings T -> run_result.  (* the encoder run *)

(** The two [except] clauses around the encoder run do the same: an ERROR
    entry, and the partial output deleted, if one is there. *)
Definition discard_output (output_path : path) : M world unit :=
  let* _ := log_callback "❌ 高品質化処理エラー" ERROR in
  let* there := path_exists output_path in
  if there then try_except (unlink output_path) Exception (fun _ => ret tt)
  else ret tt.

(** The original goes to the archive of the stage, unless it lives in a
    "used" archive. *)
Definition archive_original (fuel : nat) (file_path : path) : M world unit :=
  if negb (bool_decide (used_folder ∈ file_path)) then
    try_except
      (let used_dir := joinpath ai_video_dir used_folder in
       let* used_path :=
         free_name fuel
           (fun counter =>
              joinpath used_dir
                (numbered (path_stem file_path) counter (path_suffix file_path)))
           (joinpath used_dir (path_name file_path)) 1 in
       let* still := path_exists file_path in
       if still then
         let* _ := move refuses file_path used_path in
         log_callback "元ファイルを移動しました" INFO
       else ret tt)
      Exception
      (fun _ => log_callback "元ファイルの移動に失敗しました" WARNING)
  else log_callback "使用済み素材フォルダの動画のため、移動しません" INFO.

(** The disk is looked at after the wait for the output file (at most 5 s). *)
Definition trigger_quality_pipeline (fuel : nat) (file_path : path)
  : M world unit :=
  try_except
    (let* present := path_exists file_path in
     if negb present then log_callback "ファイルが見つかりません" ERROR
     else
       let* size := st_size dir_size file_path in
       if (size =? 0)%N then log_callback "空のファイルです" ERROR
       else
         let* _ := log_callback "高品質化処理を開始" INFO in
         let* probed :=
           try_except
             (let* pr := run (probe file_path) in ret (Some pr))
             Exception
             (fun _ =>
                let* _ := log_callback "動画情報の取得に失敗しました" ERROR in
                ret None) in
         match probed with
         | None => ret tt
         | Some pr =>
             match video_stream pr with
             | None => log_callback "動画ストリームが見つかりません" ERROR
             | Some info =>
                 let video_name := path_stem file_path in
                 let* output_path :=
                   free_name fuel
                     (fun counter =>
                        joinpath hq_video_dir
                          (numbered (video_name +:+ "_hq") counter
                             (path_suffix file_path)))
                     (joinpath hq_video_dir
                        (video_name +:+ "_hq" +:+ path_suffix file_path)) 1 in
                 try_except
                   (let* s := lift (upscale_settings info) in
                    let* _ := log_callback "アップスケール" INFO in
                    let* _ :=
                      if interpolate s
                      then log_callback "フレームレート補間" INFO
                      else log_callback "フレームレート（補間なし）" INFO in
                    let* _ := log_callback "出力先" INFO in
                    let* _ := mkdir refuses (path_parent output_path) in
                    try_except
                      (let* _ := ffmpeg_run output_path
                                   (encode file_path output_path s) in
                       let* made := path_exists output_path in
                       if made then
                         let* file_size := st_size dir_size output_path in
                         if (0 <? file_size)%N then
                           let* _ := log_callback "✅ 高品質化処理完了" SUCCESS in
                           let* _ := log_callback "保存先" INFO in
                           archive_original fuel file_path
                         else
                           let* _ :=
                             log_callback
                               "❌ 高品質化処理に失敗しました: ファイルサイズが0です"
                               ERROR in
                           let* there := path_exists output_path in
                           if there then unlink output_path else ret tt
                       else
                         let* _ :=
                           log_callback
                             "❌ 高品質化処理に失敗しました: ファイルが生成されませんでした"
                             ERROR in
                         log_callback "期待された出力パス" ERROR)
                      Exception
                      (fun _ => discard_output output_path))
                   Exception
                   (fun _ => log_callback "FFmpeg処理エラー" ERROR)
             end
         end)
    Exception
    (fun _ => log_callback "高品質化パイプラインエラー" ERROR).
End Quality.

(** *** [process_audio_file] and the beat table on the disk *)

Section Audio.
Context {T : Type} `{Number T}.
Variable load : path -> tool_result nat.
                  (* librosa.load: the number of samples *)
Variable beat_track : path -> tool_result (T * list T).
                  (* librosa.beat.beat_track and frames_to_time:
                     the tempo and the beat times in seconds *)
Variable render : gmap string (list T) -> string.        (* DataFrame.to_csv *)
Variable parse : string -> tool_result (gmap string (list T)).  (* pd.read_csv *)

(** [pd.DataFrame({'beat_time_seconds': beat_times,
                   'beat_index': range(len(beat_times))})] *)
Definition beat_frame (beat_times : list T) : gmap string (list T) :=
  {[ "beat_time_seconds" := beat_times;
     "beat_index" := (fun i => of_Z (Z.of_nat i)) <$> seq 0 (length beat_times) ]}.

(** [self.logs_dir / f"{song_name}_beats.csv"] *)
Definition beats_csv_path (audio_file_path : path) : path :=
  joinpath logs_dir (path_stem audio_file_path +:+ "_beats.csv").

Definition process_audio_file (fuel : nat) (file_path : path) : M world unit :=
  try_except
    (let* present := path_exists file_path in
     if negb present then log_callback "ファイルが見つかりません" ERROR
     else
       let* size := st_size dir_size file_path in
       if (size =? 0)%N then log_callback "空のファイルです" ERROR
       else
         let* _ := log_callback "音声ファイルの処理を開始" INFO in
         let* loaded :=
           try_except
             (let* y := run (load file_path) in ret (Some y))
             Exception
             (fun _ =>
                let* _ := log_callback "音声ファイルの読み込みに失敗しました" ERROR in
                ret None) in
         match loaded with
         | None => ret tt
         | Some len_y =>
             if (len_y =? 0)%nat then log_callback "音声データが空です" ERROR
             else
               let* tracked :=
                 try_except
                   (let* tb := run (beat_track file_path) in ret (Some tb))
                   Exception
                   (fun _ =>
                      let* _ := log_callback "BPM計算に失敗しました" ERROR in
                      ret None) in
               match tracked with
               | None => ret tt
               | Some (bpm, beat_times) =>
                   let df := beat_frame beat_times in
                   let csv_path := beats_csv_path file_path in
                   let* saved :=
                     try_except
                       (let* _ := write_file refuses csv_path (render df) in
                        ret true)
                       Exception
                       (fun _ =>
                          let* _ := log_callback "CSV保存に失敗しました" ERROR in
                          ret false) in
                   if negb saved then ret tt
                   else
                     let* _ := log_callback "音声解析完了" SUCCESS in
                     try_except
                       (let audio_subdir :=
                          joinpath final_assets_dir "音声ファイル" in
                        let* dest_path :=
                          free_name fuel
                            (fun counter =>
                               joinpath audio_subdir
                                 (numbered (path_stem file_path) counter
                                    (path_suffix file_path)))
                            (joinpath audio_subdir (path_name file_path)) 1 in
                        let* _ := move refuses file_path dest_path in
                        log_callback "ファイルを移動しました" INFO)
                       Exception
                       (fun _ => log_callback "ファイル移動に失敗しました" ERROR)
               end
         end)
    Exception
    (fun _ => log_callback "音声処理エラー" ERROR).

(** [csv_path.exists()] and [pd.read_csv(csv_path)] on the disk: nothing
    when no file is there, otherwise what reading it comes back with. *)
Definition read_csv (fs : gmap path node) (csv_path : path)
  : option (tool_result (gmap string (list T))) :=
  match fs !! csv_path with
  | None => None
  | Some (File text) => Some (parse text)
  | Some Dir => Some (Failed OSError)
  end.

(** [load_beat_data(audio_file_path)], with the table read from the disk. *)
Definition load_beat_data_for (audio_file_path : path)
  : M world (option (beat_data T)) :=
  fun w =>
    load_beat_data (read_csv (files w) (beats_csv_path audio_file_path)) w.
End Audio.

(** *** [process_video_file] *)

Section Frames.
Context {T : Type} `{Number T} `{Product T}.
Variable probe : path -> tool_result (probe_answer T).     (* ffmpeg.probe *)
Variable extract_frame : path -> T -> path -> run_result.
                       (* the run that writes the frame at [ss=timestamp] *)

(** [np.linspace(0, duration, num, endpoint=False)]: [arange(num) * step + 0]
    with [step = duration / num]. *)
Definition linspace (duration : T) (num : nat) : list T :=
  let step := div duration (of_Z (Z.of_nat num)) in
  (fun i => add (mul (of_Z (Z.of_nat i)) step) (of_Z 0)) <$> seq 0 num.

(** [f"{n:03d}"] *)
Definition pad3 (n : nat) : string :=
  if (n <? 10)%nat then "00" +:+ pretty n
  else if (n <? 100)%nat then "0" +:+ pretty n
  else pretty n.

(** The loop over [enumerate(timestamps)], entered at index [i] with
    [extracted_count] frames so far. *)
Fixpoint extract_frames (fuel : nat) (file_path : path) (i : nat)
    (timestamps : list T) (extracted_count : nat) : M world nat :=
  match timestamps with
  | [] => ret extracted_count
  | timestamp :: rest =>
      let frame_name := path_stem file_path +:+ "_frame_" +:+ pad3 (S i) in
      let* extracted_count :=
        try_except
          (let* output_path :=
             free_name fuel
               (fun counter =>
                  joinpath still_images_dir (numbered frame_name counter ".jpg"))
               (joinpath still_images_dir (frame_name +:+ ".jpg")) 1 in
           let* _ := ffmpeg_run output_path
                       (extract_frame file_path timestamp output_path) in
           let* made := path_exists output_path in
           ret (if made then S extracted_count else extracted_count))
          Exception
          (fun _ =>
             let* _ := log_callback "フレーム抽出エラー" ERROR in
             ret extracted_count) in
      extract_frames fuel file_path (S i) rest extracted_count
  end.

(** [min(10, max(1, int(duration * fps / 10)))] *)
Definition num_frames (duration fps : T) : outcome nat :=
  let? n := py_int (div (mul duration fps) (of_Z 10)) in
  Return (Z.to_nat (Z.min 10 (Z.max 1 n))).

Definition process_video_file (fuel : nat) (file_path : path) : M world unit :=
  try_except
    (let* present := path_exists file_path in
     if negb present then log_callback "ファイルが見つかりません" ERROR
     else
       let* size := st_size dir_size file_path in
       if (size =? 0)%N then log_callback "空のファイルです" ERROR
       else
         let* _ := log_callback "動画ファイルの処理を開始" INFO in
         let* probed :=
           try_except
             (let* pr := run (probe file_path) in ret (Some pr))
             Exception
             (fun _ =>
                let* _ := log_callback "動画情報の取得に失敗しました" ERROR in
                ret None) in
         match probed with
         | None => ret tt
         | Some pr =>
             match video_stream pr with
             | None => log_callback "動画ストリームが見つかりません" ERROR
             | Some info =>
                 match format_duration pr with
                 | None => log_callback "動画の長さの取得に失敗しました" ERROR
                 | Some duration =>
                     if leb duration (of_Z 0)
                     then log_callback "動画の長さが無効です" ERROR
                     else
                       let fps := original_fps (r_frame_rate info) in
                       let* num_frames := lift (num_frames duration fps) in
                       let timestamps := linspace duration num_frames in
                       let* extracted_count :=
                         extract_frames fuel file_path 0 timestamps 0 in
                       if (0 <? extracted_count)%nat
                       then log_callback "動画処理完了" SUCCESS
                       else log_callback
                              "動画処理完了: 静止画の抽出に失敗しました" ERROR
                 end
             end
         end)
    Exception
    (fun _ => log_callback "動画処理エラー" ERROR).
End Frames.

End Stages.
End MediaProcessor.

(** * Vocabulary of the properties *)

(** ** Scenarios of the specification *)

(** Scenario A: three clips of 10, 20 and 5 seconds under 65 seconds of audio.
    Clips are named by their position in the pool. *)
Definition scenario_A_clips : list nat := [0; 1; 2]%nat.
Definition scenario_A_durations : list float := [10.0; 20.0; 5.0]%float.

(** Scenario B: nine beats half a second apart, two clips of 3 seconds. *)
Definition scenario_B_clips : list nat := [0; 1]%nat.
Definition scenario_B_beats : list float :=
  [0.0; 0.5; 1.0; 1.5; 2.0; 2.5; 3.0; 3.5; 4.0]%float.
Definition scenario_B_durations : list float := [3.0; 3.0]%float.

(** The same grid and pool in exact arithmetic. *)
Definition scenario_B_beats_Q : list Q :=
  [0; 1 # 2; 1; 3 # 2; 2; 5 # 2; 3; 7 # 2; 4]%Q.
Definition scenario_B_durations_Q : list Q := [3; 3]%Q.

(** ** The beat grid *)

(** The BPM a reloaded table carries: the
    first beat interval decides, when there is one and it is positive. *)
Definition reloaded_bpm {T : Type} `{Number T} (beat_times : list T) : T :=
  match beat_times with
  | t0 :: t1 :: _ =>
      if ltb (of_Z 0) (sub t1 t0) then div (of_Z 60) (sub t1 t0) else of_Z 120
  | _ => of_Z 120
  end.

(** A beat grid: the times of a table are strictly increasing, in the order
    of the arithmetic. *)
Definition strictly_increasing {T : Type} `{Number T} (beat_times : list T)
  : Prop :=
  StronglySorted (fun a b => ltb a b = true) beat_times.

(** The difference of a larger and a smaller number is above zero: so it is
    for rationals, and in binary64, where the difference of two distinct
    numbers never rounds to zero. *)
Class DifferencePositive (T : Type) `{Number T} : Prop :=
  difference_positive :
    forall a b : T, ltb a b = true -> ltb (of_Z 0) (sub b a) = true.

(** A binary64 number above zero: a positive finite number or [+inf]. *)
Definition above_zero (x : spec_float) : bool :=
  match x with
  | S754_infinity false | S754_finite false _ _ => true
  | _ => false
  end.

(** ** Beat windows and the round robin *)

Section Windows.
Context {T : Type} `{Number T} {Clip : Type}.
Variable video_clips : list Clip.
Variable clip_durations : list T.
Variable audio_duration : T.
Variable beat_times : list T.

(** Windows are numbered from 0; window [k] starts at beat [4 k]. *)
Definition window_count : nat := (length beat_times + 3) / 4.

(** Start and end of window [k]: it ends at the start of the next window
    when there is a beat [4 k + 4], at the end of the audio otherwise. *)
Definition window_at (k : nat) : T * T :=
  (nth (4 * k) beat_times (of_Z 0),
   if (4 * k + 4 <? length beat_times)%nat
   then nth (4 * k + 4) beat_times (of_Z 0)
   else audio_duration).

Definition window_start (k : nat) : T := fst (window_at k).
Definition window_stop (k : nat) : T := snd (window_at k).

Definition window_duration (k : nat) : T :=
  sub (window_stop k) (window_start k).

(** A window whose segment duration is not positive. *)
Definition degenerate (k : nat) : bool := leb (window_duration k) (of_Z 0).

(** The number of windows before window [k] that are not degenerate. *)
Fixpoint advances_before (k : nat) : nat :=
  match k with
  | O => O
  | S k' => advances_before k' + (if degenerate k' then 0 else 1)
  end.

(** What window [k] contributes to the plan: nothing when it is degenerate
    or when its clip has no positive duration, otherwise one segment on the
    clip at position [advances_before k mod len(clips)]. *)
Definition segment_of_window (k : nat) : list (segment T Clip) :=
  if degenerate k then []
  else
    let j := advances_before k mod length video_clips in
    match nth_error video_clips j, nth_error clip_durations j with
    | Some c, Some d =>
        if leb d (of_Z 0) then []
        else [Segment c (of_Z 0) (py_min d (window_duration k))
                (window_start k)]
    | _, _ => []
    end.
End Windows.

(** ** Placement intervals, in exact arithmetic *)

Section Intervals.
Context {Clip : Type}.

(** The intervals [[output_start, output_start + duration)] of the plan, in
    order, tile [[from, to)]: each starts where the one before ended, the
    first at [from], and the last ends at [to]. *)
Fixpoint tiles (from : Q) (plan : list (segment Q Clip)) (to : Q) : Prop :=
  match plan with
  | [] => (from == to)%Q
  | s :: rest =>
      (output_start s == from)%Q
      /\ tiles (output_start s + duration s)%Q rest to
  end.

(** The intervals of the plan, in order, lie in [[from, to)] without
    overlap: each starts at or after the end of the one before, none has a
    negative length, and the last ends at or before [to].  Gaps are allowed. *)
Fixpoint packed (from : Q) (plan : list (segment Q Clip)) (to : Q) : Prop :=
  match plan with
  | [] => (from <= to)%Q
  | s :: rest =>
      (from <= output_start s)%Q /\ (0 <= duration s)%Q
      /\ packed (output_start s + duration s)%Q rest to
  end.
End Intervals.

(** ** A transcoding tool that does what it is asked *)

Section IdealTool.
Context {T : Type} `{Number T} {Clip : Type}.

(** A media file, as far as the assembly looks at it. *)
Record video : Type := Video { video_duration : T; video_size : N }.

Definition total_duration (parts : list video) : T :=
  fold_left (fun acc v => add acc (video_duration v)) parts (of_Z 0).

(** Every call succeeds.  An extracted segment lasts what was asked for, a
    concatenation lasts the sum of its parts, an output limited with [t=]
    lasts no longer than the limit and no longer than its input, every file
    is 1000 bytes long, and the sidecar table, when there is one, holds the
    given beat times. *)
Definition ideal_tool (audio_duration : T) (beats : option (list T))
    (clip_duration : Clip -> T) : Tools T Clip video := {|
  audio_exists := true;
  probe_audio := Done audio_duration;
  mkdir_temp := Done tt;
  beat_csv :=
    match beats with
    | Some b => Some (Done {[ "beat_time_seconds" := b ]})
    | None => None
    end;
  probe_clip := fun c => Done (clip_duration c);
  extract := fun _ s => Done (Some (Video (duration s) 1000));
  write_concat := fun _ => Done tt;
  append_concat := fun _ => Done tt;
  concat_demux := fun parts limit =>
    Done (Video (match limit with
                 | Some t => py_min (total_duration parts) t
                 | None => total_duration parts
                 end) 1000);
  probe_video := fun v => Done (video_duration v);
  stat_size := fun v => Done (video_size v);
  trim_copy := fun v t => Done (Video (py_min (video_duration v) t) (video_size v));
  mux := fun _ => Done tt;
  cleanup := Done tt;
  output_nonempty := Done true
|}.
End IdealTool.

Arguments video T : clear implicits.
Arguments Video {T} video_duration video_size.

(** ** What the log ends with *)

Definition last_level (l : list log_entry) : option log_level :=
  level <$> last l.

(** The tool [t], except that probing the length of a video it wrote fails. *)
Definition failing_length_check {T Clip Video : Type} (t : Tools T Clip Video)
  : Tools T Clip Video := {|
    audio_exists := audio_exists t;
    probe_audio := probe_audio t;
    mkdir_temp := mkdir_temp t;
    beat_csv := beat_csv t;
    probe_clip := probe_clip t;
    extract := extract t;
    write_concat := write_concat t;
    append_concat := append_concat t;
    concat_demux := concat_demux t;
    probe_video := fun _ => Failed FfmpegError;
    stat_size := stat_size t;
    trim_copy := trim_copy t;
    mux := mux t;
    cleanup := cleanup t;
    output_nonempty := output_nonempty t
  |}.

(** What the tool calls must have answered for an assembly to report
    success: every segment extraction came back, at least one segment file
    was there, the concat list was written, the concatenation succeeded, the
    video the duration-matching step left was muxed, and the final look at the
    output file found it with a size above zero. *)
Definition rendered_and_muxed {T : Type} `{Number T} {Clip Video : Type}
    (tools : Tools T Clip Video) : Prop :=
  exists (clip_segments : list (segment T Clip)) (audio_duration : T)
         (segment_files : list Video) (combined_video delivered : Video)
         (l : list log_entry),
    render_segments tools 0 clip_segments [] l = (Return segment_files, l)
    /\ segment_files <> []
    /\ write_concat tools segment_files = Done tt
    /\ concat_demux tools segment_files None = Done combined_video
    /\ match_duration tools segment_files combined_video audio_duration l
       = (Return delivered, l)
    /\ mux tools delivered = Done tt
    /\ output_nonempty tools = Done true.

(** The sidecar table was read and has its beat column. *)
Definition beat_table_loads {T Clip Video : Type} (tools : Tools T Clip Video)
  : Prop :=
  exists df bt, beat_csv tools = Some (Done df)
                /\ df !! "beat_time_seconds" = Some bt.

(** How a block that answers with a boolean may end: with true only under
    [P] and after a SUCCESS entry, with false only after an ERROR entry, still
    running only under [D].  An exception is left to the enclosing handler. *)
Definition ends_well (P D : Prop) (r : outcome bool * list log_entry) : Prop :=
  match r with
  | (Return true, l') => P /\ last_level l' = Some SUCCESS
  | (Return false, l') => last_level l' = Some ERROR
  | (Raise _, _) => True
  | (Diverge, _) => D
  end.

(** What holds of the answer [r] of an assembly: it is not
    an exception; true comes with an audio file that was there and probed
    with a positive duration, with the concatenation, the mux and the final
    look at the output file all succeeding, and with a SUCCESS as the last
    log entry; false comes with an ERROR as the last log entry; and the
    assembly is still running only while the sequential-fill loop is, which
    leaves out a run whose beat table loads with the sync flag set. *)
Definition assembly_contract {T : Type} `{Number T} {Clip Video : Type}
    (tools : Tools T Clip Video) (fuel : nat) (video_clips : list Clip)
    (sync_to_beat : bool) (r : outcome bool * list log_entry) : Prop :=
  match r with
  | (Return true, l') =>
      audio_exists tools = true
      /\ (exists a, probe_audio tools = Done a /\ leb a (of_Z 0) = false)
      /\ rendered_and_muxed tools
      /\ last_level l' = Some SUCCESS
  | (Return false, l') => last_level l' = Some ERROR
  | (Raise _, _) => False
  | (Diverge, _) =>
      (exists clip_durations audio_duration,
          plan_sequential video_clips clip_durations audio_duration fuel = Diverge)
      /\ ~ (sync_to_beat = true /\ beat_table_loads tools)
  end.

(** ** The watcher *)

(** A path the handler turns away as an unsupported audio file: it lies in the
    audio intake folder and its extension, in lower case, is not on the audio
    allow-list. *)
Definition unsupported_audio (p : path) : Prop :=
  path_name (path_parent p) = audio_input_folder
  /\ lower (path_suffix p) ∉ valid_audio_extensions.

(** ** The finalize stage *)

(** Every entry of [before] is still there, unchanged, in [after]. *)
Definition preserved (before after : gmap path node) : Prop :=
  forall p n, before !! p = Some n -> after !! p = Some n.

(** A small disk for the finalize stage: the stage folders of [C:\MVAI], an
    operating system that refuses nothing, a probe that succeeds. *)
Definition mvai_final_assets : path := ["C:"; "MVAI"; final_assets_folder].
Definition mvai_lipsync : path := ["C:"; "MVAI"; lipsync_video_folder].
Definition archived_clip : path := mvai_lipsync ++ [used_folder; "clip.mp4"].
Definition fresh_clip : path := mvai_lipsync ++ ["clip.mp4"].

Definition finalize_on_mvai (fuel : nat) (file_path : path) : M world unit :=
  finalize_assets 0%N (fun _ => false) mvai_final_assets mvai_lipsync
    (fun _ => Done tt) (fun _ file_name original => file_name +:+ original)
    fuel file_path.


(** ** The session log *)

(** The session log after a series of [add_log] calls, each with the time,
    the type and the message of its entry, from the empty log a session
    starts with (and [ログをクリア] resets it to). *)
Definition session_log (calls : list session_entry) : list session_entry :=
  foldl (fun processing_logs e =>
           add_log (timestamp e) (message (logged e)) (level (logged e))
             processing_logs)
    [] calls.

(** ** Runs of the watcher *)

(** The states of a handler instance over its life: it is made with nothing
    processed and no thread started; it handles events; and between events
    the disk and the log change under it, by the worker threads and the user,
    while [processed_files] and the started threads are its own. *)
Inductive handled : watcher -> Prop :=
  | handled_new (fs : gmap path node) (l : list log_entry) :
      handled (Watcher fs l ∅ [])
  | handled_event (w : watcher) (ev : event) :
      handled w -> handled (snd (on_created ev w))
  | handled_elsewhere (w : watcher) (fs : gmap path node) (l : list log_entry) :
      handled w -> handled (Watcher fs l (processed_files w) (threads w)).

(** The folder each stage handler is the worker of. *)
Definition stage_folder (j : job) : string :=
  match j with
  | process_audio_file => audio_input_folder
  | process_video_file => video_input_folder
  | trigger_quality_pipeline => ai_video_folder
  | process_lipsync => hq_video_folder
  | finalize => lipsync_video_folder
  end.

(** The two intake stages only take files whose extension, in lower case,
    is on their allow-list. *)
Definition intake_allowed (j : job) (p : path) : Prop :=
  match j with
  | process_audio_file => lower (path_suffix p) ∈ valid_audio_extensions
  | process_video_file => lower (path_suffix p) ∈ valid_video_extensions
  | _ => True
  end.

(** What holds of a started thread: its path was put into
    [processed_files], it runs the handler of the folder its path lies in,
    and an intake handler was given an allowed extension. *)
Definition well_dispatched (w : watcher) (t : job * path) : Prop :=
  t.2 ∈ processed_files w
  /\ path_name (path_parent t.2) = stage_folder t.1
  /\ intake_allowed t.1 t.2.

(** A song dropped into the audio intake folder of [C:\MVAI]. *)
Definition dropped_song : path := ["C:"; "MVAI"; audio_input_folder; "song.MP3"].
Definition song_event : event := Event false dropped_song.
Definition twice_notified : watcher :=
  snd (on_created song_event
         (snd (on_created song_event
                 (Watcher {[ dropped_song := File "audio" ]} [] ∅ [])))).

(** ** What a stage does to the disk *)

(** Every entry of [before] other than the one at [file_path] is still
    there, unchanged: nothing else was lost or overwritten. *)
Definition others_preserved (file_path : path) (before after : gmap path node)
  : Prop :=
  forall p n, p <> file_path -> before !! p = Some n -> after !! p = Some n.

(** [after] has the entry [n] in the folder [dir], under a name that was
    free in [before]. *)
Definition new_entry (dir : path) (n : option node)
    (before after : gmap path node) : Prop :=
  exists nm, before !! joinpath dir nm = None
             /\ after !! joinpath dir nm = n.

(** What the lip-sync stage may have done to the disk, for the original at
    [file_path]: nothing else is lost or overwritten; the original is
    untouched, or it is not in a "used" archive and was moved, and then a
    copy of it is in the lip-sync folder and the original is in the archive
    of the high-quality folder, both under names that were free; and when
    the original is a non-empty file and the operating system refuses
    nothing, the copy is made, and the original is moved unless it is in
    an archive. *)
Definition lipsync_effect (refuses : io_op -> bool) (base_dir file_path : path)
    (before after : gmap path node) : Prop :=
  others_preserved file_path before after
  /\ (after !! file_path = before !! file_path
      \/ ((used_folder ∉ file_path)
          /\ after !! file_path = None
          /\ new_entry (MediaProcessor.lipsync_video_dir base_dir)
               (before !! file_path) before after
          /\ new_entry (joinpath (MediaProcessor.hq_video_dir base_dir) used_folder)
               (before !! file_path) before after))
  /\ (forall data,
        before !! file_path = Some (File data) -> data <> "" ->
        (forall op, refuses op = false) ->
        new_entry (MediaProcessor.lipsync_video_dir base_dir) (Some (File data))
          before after
        /\ (used_folder ∉ file_path -> after !! file_path = None)).

(** A clip in the high-quality folder of [C:\MVAI], on an otherwise empty
    disk, and the lip-sync stage on an operating system that refuses
    nothing. *)
Definition mvai : path := ["C:"; "MVAI"].
Definition hq_clip : path := MediaProcessor.hq_video_dir mvai ++ ["clip.mp4"].
Definition lipsync_on_mvai (fuel : nat) (file_path : path) : M world unit :=
  MediaProcessor.process_lipsync 0%N (fun _ => false) mvai fuel file_path.

(** What the quality stage may have done to the disk, for the original at
    [file_path]: nothing else is lost or overwritten; the original is
    untouched, or it is not in a "used" archive and was moved to the archive
    of the AI-video folder under a name that was free, and then a non-empty
    encoded file is in the high-quality folder under a name that was free;
    and whatever the stage leaves in the high-quality folder is a non-empty
    file, unless the operating system refused to delete it. *)
Definition quality_effect (unlink_refused : path -> bool)
    (base_dir file_path : path) (before after : gmap path node) : Prop :=
  others_preserved file_path before after
  /\ (after !! file_path = before !! file_path
      \/ ((used_folder ∉ file_path)
          /\ after !! file_path = None
          /\ (exists nm data,
                before !! joinpath (MediaProcessor.hq_video_dir base_dir) nm = None
                /\ after !! joinpath (MediaProcessor.hq_video_dir base_dir) nm
                   = Some (File data)
                /\ data <> "")
          /\ new_entry (joinpath (MediaProcessor.ai_video_dir base_dir) used_folder)
               (before !! file_path) before after))
  /\ (forall nm n,
        before !! joinpath (MediaProcessor.hq_video_dir base_dir) nm = None ->
        after !! joinpath (MediaProcessor.hq_video_dir base_dir) nm = Some n ->
        (exists data, n = File data /\ data <> "")
        \/ unlink_refused (joinpath (MediaProcessor.hq_video_dir base_dir) nm)
           = true).

(** A clip in the AI-video folder of [C:\MVAI], with the high-quality
    folder made; a probe that finds a 1920x1080 stream at 30 fps; an encoder
    that leaves a file; an operating system that refuses nothing. *)
Definition ai_clip : path := MediaProcessor.ai_video_dir mvai ++ ["clip.mp4"].
Definition ai_clip_disk : gmap path node :=
  {[ ai_clip := File "video"; MediaProcessor.hq_video_dir mvai := Dir ]}.
Definition full_hd : MediaProcessor.video_info float :=
  MediaProcessor.VideoInfo 1920 1080 (MediaProcessor.Ratio 30 1).
Definition quality_on_mvai (fuel : nat) (file_path : path) : M world unit :=
  MediaProcessor.trigger_quality_pipeline 0%N (fun _ => false) (fun _ => false)
    mvai (fun _ => Done (MediaProcessor.ProbeAnswer (Some full_hd) None))
    (fun _ _ _ => MediaProcessor.RunResult (Some "encoded") None)
    fuel file_path.

(** The same stream, read in exact arithmetic. *)
Definition full_hd_Q : MediaProcessor.video_info Q :=
  MediaProcessor.VideoInfo 1920 1080 (MediaProcessor.Ratio 30 1).

(** ** The audio stage *)

(** What the audio stage may have done to the disk, for the song at
    [file_path] and its beat table at [csv_path]: no other entry is lost or
    overwritten; the beat table is as before, or it is [table], the table
    of the analysed beats; and the song is untouched, or its beat table is
    [table] and the song was moved into the audio folder of the final
    assets under a name that was free. *)
Definition audio_effect (base_dir file_path csv_path : path)
    (table : option string) (before after : gmap path node) : Prop :=
  (forall p n, p <> file_path -> p <> csv_path ->
               before !! p = Some n -> after !! p = Some n)
  /\ (after !! csv_path = before !! csv_path
      \/ exists text, table = Some text /\ after !! csv_path = Some (File text))
  /\ (after !! file_path = before !! file_path
      \/ (after !! file_path = None
          /\ (exists text, table = Some text
                           /\ after !! csv_path = Some (File text))
          /\ new_entry (joinpath (MediaProcessor.final_assets_dir base_dir)
                          "音声ファイル")
               (before !! file_path) before after)).

(** The song dropped into the audio intake folder, with an analysis that
    finds three beats half a second apart, and a table that reads back as it
    was written. *)
Definition song_beats : list float := [0.0; 0.5; 1.0]%float.
Definition song_disk : gmap path node := {[ dropped_song := File "audio" ]}.
Definition audio_on_mvai (fuel : nat) (file_path : path) : M world unit :=
  MediaProcessor.process_audio_file 0%N (fun _ => false) mvai
    (fun _ => Done 1000%nat) (fun _ => Done (120.0%float, song_beats))
    (fun _ => "table") fuel file_path.
Definition read_back (text : string) : tool_result (gmap string (list float)) :=
  Done (MediaProcessor.beat_frame song_beats).

(** ** The finalize stage, for any video *)

(** What the finalize stage may have done to the disk, for the original at
    [file_path]: nothing else is lost or overwritten, and the original is
    still at its path, or it is not in a "used" archive and is in the archive
    of the lip-sync folder under a name that was free. *)
Definition finalize_effect (lipsync_video_dir file_path : path)
    (before after : gmap path node) : Prop :=
  others_preserved file_path before after
  /\ (after !! file_path = before !! file_path
      \/ ((used_folder ∉ file_path)
          /\ new_entry (joinpath lipsync_video_dir used_folder)
               (before !! file_path) before after)).

(** How [place_video] leaves the disk [fs], for an original [file_path] with
    content [data] and the destination [dest]: whether it answers true, and
    the disk after it. *)
Inductive placed_as (lipsync_video_dir file_path dest : path) (data : string)
    (fs : gmap path node) : bool -> gmap path node -> Prop :=
  | placed_nothing : placed_as lipsync_video_dir file_path dest data fs false fs
  | placed_copy :
      used_folder ∈ file_path ->
      placed_as lipsync_video_dir file_path dest data fs true
        (<[dest := File data]> fs)
  | placed_move (nm : string) :
      used_folder ∉ file_path ->
      fs !! joinpath (joinpath lipsync_video_dir used_folder) nm = None ->
      placed_as lipsync_video_dir file_path dest data fs false
        (<[joinpath (joinpath lipsync_video_dir used_folder) nm := File data]>
           (delete file_path fs))
  | placed_move_copy (nm : string) :
      used_folder ∉ file_path ->
      fs !! joinpath (joinpath lipsync_video_dir used_folder) nm = None ->
      placed_as lipsync_video_dir file_path dest data fs true
        (<[dest := File data]>
           (<[joinpath (joinpath lipsync_video_dir used_folder) nm := File data]>
              (delete file_path fs))).

(** ** The frame-extraction stage *)

(** What the frame-extraction stage may have done to the disk: every entry
    is still there unchanged, the video included; what is new lies in the
    stills folder; and at most [n] entries are new. *)
Definition stills_added (base_dir : path) (n : nat)
    (before after : gmap path node) : Prop :=
  preserved before after
  /\ (forall p, before !! p = None -> is_Some (after !! p) ->
                exists nm, p = joinpath (MediaProcessor.still_images_dir base_dir) nm)
  /\ (size after <= size before + n)%nat.

(** ** The folders of the application *)

(** The required folders that are missing on a disk, in the order of
    [REQUIRED_FOLDERS]. *)
Definition missing_folders (base_dir : path) (fs : gmap path node)
  : list string :=
  filter (fun folder => ~ is_Some (fs !! joinpath base_dir folder))
    REQUIRED_FOLDERS.

(** ** Code that only appends to the log *)

(** A computation over the log alone whose answer does not depend on the
    log it starts with, and which only appends entries: it is known from
    its run on the empty log. *)
Definition log_free {A : Type} (m : M (list log_entry) A) : Prop :=
  forall l, m l = ((m []).1, l ++ (m []).2).

(** The entry that announces the fall-back to the sequential fill. *)
Definition fallback_warning : log_entry :=
  LogEntry WARNING "ビートデータが見つかりません。通常の結合を行います。".

(** Two computations over the log give the same answer, from whatever logs
    they start. *)
Definition same_answer {A : Type} (m m' : M (list log_entry) A) : Prop :=
  forall l l', (m l).1 = (m' l').1.

(** Scenario A with no beat table on the disk. *)
Definition scenario_A_tools : Tools float nat (video float) :=
  ideal_tool 65.0%float None (fun c : nat => nth c scenario_A_durations 0.0%float).

(** ** The encoder settings, checked over every source up to 3840x2160 *)

(** The value of a binary64 number [m * 2^e], on the scale of the smallest
    subnormal. *)
Definition scaled (m : positive) (e : Z) : Z := (Z.pos m * 2 ^ (e + 1074))%Z.

(** [n <= q < n + 1] *)
Definition between (n : int) (q : float) : bool :=
  PrimFloat.leb (of_uint63 n) q && PrimFloat.ltb q (of_uint63 (n + 1)%uint63).

(** The integer part of [q], for a [q] known to be [guess] or just under
    it. *)
Definition int_near (guess : int) (q : float) : int :=
  if between guess q then guess else (guess - 1)%uint63.

(** What [upscale_settings] computes for a [w] x [h] stream, on machine
    integers: the branch it takes in binary64, the integer part [n] of the
    dimension it derives, and whether [n] is within its cap and within one
    pixel under the value that keeps the aspect ratio. *)
Definition settings_check (w h : int) : bool :=
  let tw0 := (if 2 * w <=? 3840 then 2 * w else 3840)%uint63 in
  let th0 := (if 2 * h <=? 2160 then 2 * h else 2160)%uint63 in
  let a := PrimFloat.div (of_uint63 w) (of_uint63 h) in
  let shape := PrimFloat.div (of_uint63 tw0) (of_uint63 th0) in
  if PrimFloat.ltb a shape then
    let q := PrimFloat.mul (of_uint63 th0) a in
    let n := int_near (th0 * w / h)%uint63 q in
    between n q
    && ((n <=? tw0) && (n * h <=? th0 * w) && (th0 * w <=? (n + 1) * h))%uint63
  else
    negb (PrimFloat.leb a (of_uint63 0) && PrimFloat.leb (of_uint63 0) a)
    && (let q := PrimFloat.div (of_uint63 tw0) a in
        let n := int_near (tw0 * h / w)%uint63 q in
        between n q
        && ((n <=? th0) && (n * w <=? tw0 * h) && (tw0 * h <=? (n + 1) * w))%uint63).

(** [f] holds of the [n] machine integers from [i] on. *)
Fixpoint all_from (n : nat) (i : int) (f : int -> bool) : bool :=
  match n with
  | O => true
  | S n' => f i && all_from n' (i + 1)%uint63 f
  end.

(** * Facts of binary64 arithmetic

    The planner and the beat table compute in binary64.  What the proofs
    below need of it is read off its specification ([SpecFloat], through
    [Prim2SF]): a difference keeps its sign, adding to or subtracting zero
    changes nothing, the order is irreflexive, integers below [2^53] are
    numbers, and [int(x)] is the integer whose neighbours bracket [x]. *)

Section Binary64.
Local Open Scope Z_scope.

(** ** Shifting a mantissa to the right *)

Lemma digits_shr_1 (s : shr_record) :
  Zdigits2 (shr_m (shr_1 s)) = Z.max 0 (Zdigits2 (shr_m s) - 1).
Proof.
  destruct s as [m r s]. destruct m as [| p | p]; [reflexivity | |];
    destruct p; cbn [shr_1 shr_m Zdigits2 digits2_pos]; lia.
Qed.

Lemma digits_shr_iter (p : positive) :
  forall s : shr_record,
    Zdigits2 (shr_m (SpecFloat.iter_pos shr_1 p s))
    = Z.max 0 (Zdigits2 (shr_m s) - Z.pos p).
Proof.
  induction p as [p IH | p IH |]; intros s; cbn [SpecFloat.iter_pos].
  - rewrite !IH, digits_shr_1. lia.
  - rewrite !IH. lia.
  - apply digits_shr_1.
Qed.

Lemma shr_1_nonneg (s : shr_record) : 0 <= shr_m s -> 0 <= shr_m (shr_1 s).
Proof.
  destruct s as [m r s]. destruct m as [| p | p]; cbn [shr_m]; [easy | | lia].
  intros _. destruct p; cbn; lia.
Qed.

Lemma shr_iter_nonneg (p : positive) :
  forall s : shr_record, 0 <= shr_m s -> 0 <= shr_m (SpecFloat.iter_pos shr_1 p s).
Proof.
  induction p as [p IH | p IH |]; intros s Hs; cbn [SpecFloat.iter_pos].
  - apply IH, IH, shr_1_nonneg, Hs.
  - apply IH, IH, Hs.
  - apply shr_1_nonneg, Hs.
Qed.

Lemma digits_positive (z : Z) : 0 <= z -> 0 < Zdigits2 z -> 0 < z.
Proof. destruct z; cbn; lia. Qed.

Lemma digits_of_positive (z : Z) : 0 < z -> 0 < Zdigits2 z.
Proof. destruct z; cbn; lia. Qed.

Lemma shr_m_of_loc (m : Z) (l : location) : shr_m (shr_record_of_loc m l) = m.
Proof. destruct l as [| []]; reflexivity. Qed.

Lemma shr_fexp_positive (m e : Z) (l : location) :
  0 < m -> emin <= e ->
  0 < shr_m (fst (shr_fexp prec emax m e l))
  /\ emin <= snd (shr_fexp prec emax m e l).
Proof.
  intros Hm He. unfold shr_fexp, shr.
  pose proof (digits_of_positive m Hm) as Hd.
  destruct (fexp prec emax (Zdigits2 m + e) - e) as [| p | p] eqn:Hn;
    cbn [fst snd]; rewrite ?shr_m_of_loc; [easy | | easy].
  unfold fexp, SpecFloat.emin, prec, emax in *.
  split; [| lia].
  apply digits_positive.
  - apply shr_iter_nonneg. rewrite shr_m_of_loc. lia.
  - rewrite digits_shr_iter, shr_m_of_loc. lia.
Qed.

Lemma round_nearest_even_positive (m : Z) (l : location) :
  0 < m -> 0 < round_nearest_even m l.
Proof.
  intros Hm. destruct l as [| []]; cbn; [easy | | easy | lia].
  destruct (Z.even m); lia.
Qed.

Lemma binary_round_aux_above (m e : Z) (l : location) :
  0 < m -> emin <= e ->
  above_zero (binary_round_aux prec emax false m e l) = true.
Proof.
  intros Hm He. unfold binary_round_aux.
  destruct (shr_fexp_positive m e l Hm He) as [H1 H2].
  destruct (shr_fexp prec emax m e l) as [mrs' e']. cbn [fst snd] in H1, H2.
  pose proof (round_nearest_even_positive (shr_m mrs')
                (loc_of_shr_record mrs') H1) as Hr.
  destruct (shr_fexp_positive _ e' loc_Exact Hr H2) as [H3 _].
  destruct (shr_fexp prec emax _ e' loc_Exact) as [mrs'' e''].
  cbn [fst] in H3.
  destruct (shr_m mrs'') as [| q | q]; [lia | | lia].
  destruct (e'' <=? emax - prec); reflexivity.
Qed.

Lemma binary_round_above (m : positive) (e : Z) :
  emin <= e ->
  above_zero (binary_round prec emax false m e) = true.
Proof.
  intros He. unfold binary_round, shl_align.
  set (f := fexp prec emax (Z.pos (digits2_pos m) + e)).
  assert (emin <= f) by (unfold f, fexp; lia).
  destruct (f - e); apply binary_round_aux_above; lia.
Qed.

Lemma iter_xO (m d : positive) :
  Z.pos (Pos.iter xO m d) = Z.pos m * 2 ^ Z.pos d.
Proof.
  induction d as [| d IH] using Pos.peano_ind.
  - cbn. lia.
  - rewrite Pos.iter_succ, Pos2Z.inj_xO, IH, Pos2Z.inj_succ, Z.pow_succ_r; lia.
Qed.

Lemma shl_align_value (m : positive) (e e' : Z) :
  e' <= e -> Z.pos (fst (shl_align m e e')) = Z.pos m * 2 ^ (e - e').
Proof.
  intros He. unfold shl_align.
  destruct (e' - e) as [| d | d] eqn:Hd; cbn [fst].
  - replace (e - e') with 0 by lia. lia.
  - lia.
  - rewrite iter_xO. f_equal. f_equal. lia.
Qed.

Lemma digits2_pos_bounds (m : positive) :
  2 ^ (Z.pos (digits2_pos m) - 1) <= Z.pos m < 2 ^ Z.pos (digits2_pos m).
Proof.
  induction m as [m IH | m IH |]; cbn [digits2_pos].
  - rewrite Pos2Z.inj_succ, Z.pow_succ_r by lia.
    replace (Z.succ (Z.pos (digits2_pos m)) - 1)
      with (Z.succ (Z.pos (digits2_pos m) - 1)) by lia.
    rewrite Z.pow_succ_r by lia. lia.
  - rewrite Pos2Z.inj_succ, Z.pow_succ_r by lia.
    replace (Z.succ (Z.pos (digits2_pos m)) - 1)
      with (Z.succ (Z.pos (digits2_pos m) - 1)) by lia.
    rewrite Z.pow_succ_r by lia. lia.
  - cbn. lia.
Qed.

Lemma bounded_canonical (m : positive) (e : Z) :
  bounded prec emax m e = true ->
  emin <= e
  /\ Z.pos (digits2_pos m) <= prec
  /\ (emin < e -> Z.pos (digits2_pos m) = prec).
Proof.
  unfold bounded, canonical_mantissa, fexp. intros H.
  apply andb_prop in H as [H _]. apply Z.eqb_eq in H. lia.
Qed.

(** Of two canonical mantissas, the one on the higher exponent is larger. *)
Lemma higher_exponent_is_larger (m1 m2 : positive) (e1 e2 : Z) :
  bounded prec emax m1 e1 = true -> bounded prec emax m2 e2 = true ->
  e1 < e2 -> Z.pos m1 < Z.pos m2 * 2 ^ (e2 - e1).
Proof.
  intros H1 H2 He.
  apply bounded_canonical in H1 as (H1a & H1b & _).
  apply bounded_canonical in H2 as (_ & _ & H2c).
  specialize (H2c ltac:(lia)).
  pose proof (digits2_pos_bounds m1) as [_ B1].
  pose proof (digits2_pos_bounds m2) as [B2 _].
  rewrite H2c in B2.
  assert (Z.pos m1 < 2 ^ prec).
  { eapply Z.lt_le_trans; [exact B1 |]. apply Z.pow_le_mono_r; lia. }
  assert (2 ^ 1 <= 2 ^ (e2 - e1)) by (apply Z.pow_le_mono_r; lia).
  assert (2 ^ prec = 2 ^ (prec - 1) * 2 ^ 1).
  { rewrite <- Z.pow_add_r by (unfold prec; lia). reflexivity. }
  nia.
Qed.

Lemma SFsub_above (a b : spec_float) :
  valid_binary a = true -> valid_binary b = true ->
  SFltb a b = true -> above_zero (SFsub prec emax b a) = true.
Proof.
  intros Va Vb. unfold SFltb.
  destruct a as [sa | sa | | sa ma ea], b as [sb | sb | | sb mb eb];
    cbn [SFcompare SFsub above_zero];
    try discriminate;
    try (destruct sa; try discriminate; try reflexivity; fail);
    try (destruct sb; try discriminate; try reflexivity; fail);
    try (destruct sa, sb; try discriminate; reflexivity).
  cbn [valid_binary] in Va, Vb.
  destruct (bounded_canonical _ _ Va) as (Ea & _ & _).
  destruct (bounded_canonical _ _ Vb) as (Eb & _ & _).
  intros Hc.
  set (ez := Z.min eb ea).
  assert (Hdiff :
    0 < cond_Zopp sb (Z.pos (fst (shl_align mb eb ez)))
        - cond_Zopp sa (Z.pos (fst (shl_align ma ea ez)))).
  { rewrite !shl_align_value by (unfold ez; lia).
    assert (0 < 2 ^ (eb - ez)) by (apply Z.pow_pos_nonneg; unfold ez; lia).
    assert (0 < 2 ^ (ea - ez)) by (apply Z.pow_pos_nonneg; unfold ez; lia).
    destruct sa, sb; cbn [cond_Zopp]; cbn in Hc; try discriminate Hc; [| nia |].
    - (* both negative *)
      destruct (Z.compare_spec ea eb) as [E | E | E]; try discriminate.
      + subst eb. replace ez with ea by (unfold ez; lia).
        rewrite Z.sub_diag. cbn [Z.pow].
        change (Pos.compare_cont Eq ma mb) with (Pos.compare ma mb) in Hc.
        destruct (Pos.compare_spec ma mb); try discriminate. lia.
      + replace ez with eb by (unfold ez; lia).
        rewrite Z.sub_diag. cbn [Z.pow].
        pose proof (higher_exponent_is_larger mb ma eb ea Vb Va E). lia.
    - (* both positive *)
      destruct (Z.compare_spec ea eb) as [E | E | E]; try discriminate.
      + subst eb. replace ez with ea by (unfold ez; lia).
        rewrite Z.sub_diag. cbn [Z.pow].
        change (Pos.compare_cont Eq ma mb) with (Pos.compare ma mb) in Hc.
        destruct (Pos.compare_spec ma mb); try discriminate. lia.
      + replace ez with ea by (unfold ez; lia).
        rewrite Z.sub_diag. cbn [Z.pow].
        pose proof (higher_exponent_is_larger ma mb ea eb Va Vb E). lia. }
  fold ez.
  destruct (cond_Zopp sb (Z.pos (fst (shl_align mb eb ez)))
            - cond_Zopp sa (Z.pos (fst (shl_align ma ea ez)))) as [| d | d];
    [lia | | lia].
  cbn [binary_normalize]. apply binary_round_above. unfold ez. lia.
Qed.

Lemma above_zero_ltb (x : float) :
  above_zero (Prim2SF x) = true -> (0 <? x)%float = true.
Proof.
  rewrite FloatAxioms.ltb_spec. change (Prim2SF 0%float) with (S754_zero false).
  unfold SFltb. destruct (Prim2SF x) as [| [] | | [] ? ?]; cbn; congruence.
Qed.

(** The difference of a larger and a smaller number is above zero: it is
    never rounded to zero, and an overflow gives [+inf]. *)
Lemma float_sub_pos (x y : float) :
  (x <? y)%float = true -> (0 <? y - x)%float = true.
Proof.
  intros H. apply above_zero_ltb. rewrite FloatAxioms.sub_spec.
  apply SFsub_above; try apply Prim2SF_valid.
  rewrite <- FloatAxioms.ltb_spec. exact H.
Qed.

(** ** Zero, and numbers equal in the order *)

Lemma float_sub_zero (x : float) : (x - 0)%float = x.
Proof.
  apply Prim2SF_inj. rewrite FloatAxioms.sub_spec.
  change (Prim2SF 0%float) with (S754_zero false).
  destruct (Prim2SF x) as [[] | [] | | s m e]; reflexivity.
Qed.

Lemma ltb_above_zero (x : float) :
  (0 <? x)%float = true -> above_zero (Prim2SF x) = true.
Proof.
  rewrite FloatAxioms.ltb_spec. change (Prim2SF 0%float) with (S754_zero false).
  unfold SFltb. destruct (Prim2SF x) as [| [] | | [] ? ?]; cbn; congruence.
Qed.

Lemma float_zero_add (x : float) : (0 <? x)%float = true -> (0 + x)%float = x.
Proof.
  intros H. apply ltb_above_zero in H.
  apply Prim2SF_inj. rewrite FloatAxioms.add_spec.
  change (Prim2SF 0%float) with (S754_zero false).
  destruct (Prim2SF x) as [| [] | | [] ? ?]; try discriminate; reflexivity.
Qed.

Lemma SFcompare_refl (a : spec_float) :
  SFcompare a a = None \/ SFcompare a a = Some Eq.
Proof.
  destruct a as [s | s | | s m e]; cbn [SFcompare]; auto.
  - destruct s; auto.
  - right. rewrite Z.compare_refl.
    change (Pos.compare_cont Eq m m) with (Pos.compare m m).
    rewrite Pos.compare_refl. destruct s; reflexivity.
Qed.

Lemma float_ltb_irrefl (x : float) : (x <? x)%float = false.
Proof.
  rewrite FloatAxioms.ltb_spec. unfold SFltb.
  destruct (SFcompare_refl (Prim2SF x)) as [-> | ->]; reflexivity.
Qed.

(** Two numbers equal in the order, one above zero, are the same number. *)
Lemma SFcompare_Eq_above (a b : spec_float) :
  above_zero a = true -> SFcompare a b = Some Eq -> a = b.
Proof.
  destruct a as [sa | [] | | [] ma ea], b as [sb | [] | | [] mb eb];
    cbn [above_zero SFcompare]; try discriminate; try reflexivity.
  intros _. destruct (Z.compare_spec ea eb) as [E | E | E]; try discriminate.
  change (Pos.compare_cont Eq ma mb) with (Pos.compare ma mb).
  destruct (Pos.compare_spec ma mb); try discriminate. congruence.
Qed.

Lemma float_min_of_longer (audio d : float) :
  (0 <? audio)%float = true -> (audio <=? d)%float = true ->
  (if (audio <? d)%float then audio else d) = audio.
Proof.
  intros Ha Hd. destruct (audio <? d)%float eqn:Hlt; [reflexivity |].
  apply Prim2SF_inj. symmetry. apply SFcompare_Eq_above.
  - apply ltb_above_zero, Ha.
  - rewrite FloatAxioms.leb_spec in Hd. rewrite FloatAxioms.ltb_spec in Hlt.
    unfold SFleb in Hd. unfold SFltb in Hlt.
    destruct (SFcompare (Prim2SF audio) (Prim2SF d)) as [[] |];
      congruence.
Qed.

(** ** Integers as binary64 numbers *)

Lemma digits_iter_xO (p k : positive) :
  digits2_pos (Pos.iter xO p k) = (digits2_pos p + k)%positive.
Proof.
  induction k as [| k IH] using Pos.peano_ind.
  - cbn. lia.
  - rewrite Pos.iter_succ. cbn [digits2_pos]. rewrite IH. lia.
Qed.

Lemma binary_round_aux_exact (m : positive) (e : Z) :
  Z.pos (digits2_pos m) = prec -> emin <= e <= emax - prec ->
  binary_round_aux prec emax false (Z.pos m) e loc_Exact
  = S754_finite false m e.
Proof.
  intros Hd He.
  assert (fexp prec emax (Z.pos (digits2_pos m) + e) - e = 0) as Hs.
  { unfold fexp, SpecFloat.emin, prec, emax in *. lia. }
  unfold binary_round_aux, shr_fexp. cbn [Zdigits2 shr_record_of_loc].
  rewrite Hs. cbn [shr shr_m loc_of_shr_record round_nearest_even Zdigits2
                   shr_record_of_loc].
  rewrite Hs. cbn [shr shr_m].
  destruct (Z.leb_spec e (emax - prec)); [reflexivity | lia].
Qed.

Lemma pow2_split (a b : Z) : 0 <= a -> 0 <= b -> 2 ^ (a + b) = 2 ^ a * 2 ^ b.
Proof. intros. apply Z.pow_add_r; assumption. Qed.

(** An integer below 2^53 is a binary64 number. *)
Lemma Prim2SF_of_pos (p : positive) :
  Z.pos p < 2 ^ 53 ->
  exists m e,
    Prim2SF (float_of_Z (Z.pos p)) = S754_finite false m e
    /\ scaled m e = Z.pos p * 2 ^ 1074.
Proof.
  intros Hp. unfold float_of_Z. rewrite FloatAxioms.of_uint63_spec, Uint63.of_Z_spec.
  rewrite Z.mod_small
    by (split; [lia |]; eapply Z.lt_trans; [exact Hp | reflexivity]).
  cbn [binary_normalize]. unfold binary_round.
  pose proof (digits2_pos_bounds p) as [Hlow _].
  assert (Z.pos (digits2_pos p) <= 53) as Hd.
  { destruct (Z.le_gt_cases (Z.pos (digits2_pos p)) 53) as [H | H]; [exact H |].
    assert (2 ^ 53 <= 2 ^ (Z.pos (digits2_pos p) - 1))
      by (apply Z.pow_le_mono_r; lia).
    lia. }
  assert (fexp prec emax (Z.pos (digits2_pos p) + 0)
          = Z.pos (digits2_pos p) - 53) as ->.
  { unfold fexp, SpecFloat.emin, prec, emax. lia. }
  unfold shl_align.
  destruct (Z.pos (digits2_pos p) - 53 - 0) as [| k | k] eqn:Hk.
  - exists p, 0. split.
    + apply binary_round_aux_exact;
        unfold SpecFloat.emin, prec, emax in *; lia.
    + unfold scaled. reflexivity.
  - lia.
  - exists (Pos.iter xO p k), (Z.pos (digits2_pos p) - 53). split.
    + apply binary_round_aux_exact.
      * rewrite digits_iter_xO. unfold prec. lia.
      * unfold SpecFloat.emin, prec, emax in *. lia.
    + unfold scaled. rewrite iter_xO.
      replace 1074 with (Z.pos k + (Z.pos (digits2_pos p) - 53 + 1074)) at 2
        by lia.
      rewrite (pow2_split (Z.pos k)) by lia. ring.
Qed.

Lemma SFcompare_scaled (m1 m2 : positive) (e1 e2 : Z) :
  bounded prec emax m1 e1 = true -> bounded prec emax m2 e2 = true ->
  SFcompare (S754_finite false m1 e1) (S754_finite false m2 e2)
  = Some (scaled m1 e1 ?= scaled m2 e2).
Proof.
  intros B1 B2. cbn [SFcompare]. f_equal. unfold scaled.
  destruct (bounded_canonical _ _ B1) as (E1 & _ & _).
  destruct (bounded_canonical _ _ B2) as (E2 & _ & _).
  unfold SpecFloat.emin, prec, emax in E1, E2.
  destruct (Z.compare_spec e1 e2) as [E | E | E].
  - subst e2. change (Pos.compare_cont Eq m1 m2) with (Pos.compare m1 m2).
    assert (0 < 2 ^ (e1 + 1074)) by (apply Z.pow_pos_nonneg; lia).
    destruct (Pos.compare_spec m1 m2); symmetry;
      [apply Z.compare_eq_iff; congruence
      | apply Z.compare_lt_iff; nia | apply Z.compare_gt_iff; nia].
  - symmetry. apply Z.compare_lt_iff.
    pose proof (higher_exponent_is_larger m1 m2 e1 e2 B1 B2 E) as Hl.
    replace (e2 + 1074) with ((e2 - e1) + (e1 + 1074)) by lia.
    rewrite (pow2_split (e2 - e1)) by lia.
    assert (0 < 2 ^ (e1 + 1074)) by (apply Z.pow_pos_nonneg; lia).
    nia.
  - symmetry. apply Z.compare_gt_iff.
    pose proof (higher_exponent_is_larger m2 m1 e2 e1 B2 B1 E) as Hl.
    replace (e1 + 1074) with ((e1 - e2) + (e2 + 1074)) by lia.
    rewrite (pow2_split (e1 - e2)) by lia.
    assert (0 < 2 ^ (e2 + 1074)) by (apply Z.pow_pos_nonneg; lia).
    nia.
Qed.

(** [int(x)] for an [x] that lies between two neighbouring integers. *)
Lemma float_int_floor (x : float) (n : Z) :
  0 <= n -> n + 1 < 2 ^ 53 ->
  PrimFloat.leb (float_of_Z n) x = true ->
  PrimFloat.ltb x (float_of_Z (n + 1)) = true ->
  float_int x = Some n.
Proof.
  intros Hn Hn' Hle Hlt. rewrite FloatAxioms.leb_spec in Hle. rewrite FloatAxioms.ltb_spec in Hlt.
  pose proof (Prim2SF_valid x) as Vx.
  pose proof (Prim2SF_valid (float_of_Z (n + 1))) as V1.
  pose proof (Prim2SF_valid (float_of_Z n)) as V0.
  destruct (n + 1) as [| p1 | p1] eqn:E1; [lia | | lia].
  destruct (Prim2SF_of_pos p1 Hn') as (m1 & e1 & R1 & S1).
  rewrite R1 in Hlt, V1.
  unfold float_int.
  assert ((n = 0 /\ Prim2SF (float_of_Z n) = S754_zero false)
          \/ exists m0 e0, Prim2SF (float_of_Z n) = S754_finite false m0 e0
                           /\ scaled m0 e0 = n * 2 ^ 1074 /\ 0 < n) as H0.
  { destruct n as [| p0 | p0]; [left; split; reflexivity | | lia].
    right. destruct (Prim2SF_of_pos p0 ltac:(lia)) as (m0 & e0 & R0 & S0).
    exists m0, e0. split; [exact R0 | split; [exact S0 | lia]]. }
  unfold SFleb in Hle. unfold SFltb in Hlt.
  destruct (Prim2SF x) as [s | s | | s m e].
  - (* zero *)
    destruct H0 as [[-> _] | (m0 & e0 & R0 & _ & _)]; [reflexivity |].
    rewrite R0 in Hle. cbn in Hle. discriminate.
  - (* infinity *)
    destruct s; cbn in Hlt; [| discriminate].
    destruct H0 as [[_ R0] | (m0 & e0 & R0 & _ & _)];
      rewrite R0 in Hle; cbn in Hle; discriminate.
  - cbn in Hlt. discriminate.
  - (* finite *)
    destruct s.
    { destruct H0 as [[_ R0] | (m0 & e0 & R0 & _ & _)];
        rewrite R0 in Hle; cbn in Hle; discriminate. }
    cbn [valid_binary] in Vx, V1.
    rewrite (SFcompare_scaled m m1 e e1 Vx V1) in Hlt.
    destruct (Z.compare_spec (scaled m e) (scaled m1 e1)) as [? | Hup | ?];
      try discriminate.
    rewrite S1 in Hup.
    assert (n * 2 ^ 1074 <= scaled m e) as Hlow.
    { destruct H0 as [[-> _] | (m0 & e0 & R0 & S0 & _)].
      - unfold scaled. assert (0 < 2 ^ (e + 1074)); [| lia].
        destruct (bounded_canonical _ _ Vx) as (E & _ & _).
        unfold SpecFloat.emin, prec, emax in E.
        apply Z.pow_pos_nonneg; lia.
      - rewrite R0 in Hle, V0. cbn [valid_binary] in V0.
        rewrite (SFcompare_scaled m0 m e0 e V0 Vx) in Hle.
        rewrite <- S0.
        destruct (Z.compare_spec (scaled m0 e0) (scaled m e));
          try discriminate; lia. }
    destruct (bounded_canonical _ _ Vx) as (E & _ & _).
    unfold SpecFloat.emin, prec, emax in E. unfold scaled in *.
    assert (0 < 2 ^ 1074) as P0 by (apply Z.pow_pos_nonneg; lia).
    f_equal.
    destruct (Z.leb_spec 0 e) as [He | He].
    + rewrite pow2_split in Hup, Hlow by lia.
      assert (0 < 2 ^ e) by (apply Z.pow_pos_nonneg; lia).
      nia.
    + assert (2 ^ 1074 = 2 ^ (e + 1074) * 2 ^ (- e)) as Esplit.
      { rewrite <- pow2_split by lia. f_equal. lia. }
      assert (0 < 2 ^ (e + 1074)) by (apply Z.pow_pos_nonneg; lia).
      assert (0 < 2 ^ (- e)) as Pe by (apply Z.pow_pos_nonneg; lia).
      rewrite Esplit in Hup, Hlow.
      symmetry. apply (Z.div_unique_pos _ _ _ (Z.pos m - n * 2 ^ (- e)));
        [| lia].
      split; nia.
Qed.

(** ** Machine integers *)

Lemma float_of_to_Z (i : int) : float_of_Z (Uint63.to_Z i) = of_uint63 i.
Proof.
  pose proof (Uint63.to_Z_bounded i) as B. unfold float_of_Z.
  destruct (Uint63.to_Z i) as [| p | p] eqn:E; [| | lia];
    rewrite <- E, Uint63.of_to_Z; reflexivity.
Qed.

Lemma all_from_spec (f : int -> bool) (n : nat) :
  forall i j : int,
    all_from n i f = true ->
    Uint63.to_Z i + Z.of_nat n < Uint63.wB ->
    Uint63.to_Z i <= Uint63.to_Z j < Uint63.to_Z i + Z.of_nat n ->
    f j = true.
Proof.
  induction n as [| n IH]; intros i j Hall Hb Hj; [lia |].
  cbn [all_from] in Hall. apply andb_prop in Hall as [Hi Hrest].
  destruct (Z.eq_dec (Uint63.to_Z i) (Uint63.to_Z j)) as [E | E].
  - apply Uint63.to_Z_inj in E. subst j. exact Hi.
  - pose proof (Uint63.to_Z_bounded i) as Bi.
    assert (Uint63.to_Z (i + 1)%uint63 = Uint63.to_Z i + 1) as Es.
    { rewrite Uint63.add_spec. change (Uint63.to_Z 1) with 1.
      apply Z.mod_small. lia. }
    apply (IH (i + 1)%uint63 j Hrest); lia.
Qed.

Lemma between_int (n : int) (q : float) :
  Uint63.to_Z n + 1 < 2 ^ 53 -> between n q = true -> float_int q = Some (Uint63.to_Z n).
Proof.
  intros Hn Hb. unfold between in Hb. apply andb_prop in Hb as [Hle Hlt].
  pose proof (Uint63.to_Z_bounded n) as B.
  assert (Uint63.to_Z (n + 1)%uint63 = Uint63.to_Z n + 1) as Es.
  { rewrite Uint63.add_spec. change (Uint63.to_Z 1) with 1. apply Z.mod_small.
    split; [lia |]. eapply Z.lt_trans; [exact Hn | reflexivity]. }
  rewrite <- float_of_to_Z in Hle, Hlt. rewrite Es in Hlt.
  apply float_int_floor; [lia | assumption ..].
Qed.

Lemma small_product (a b : int) :
  Uint63.to_Z a <= 7680 -> Uint63.to_Z b <= 7680 -> Uint63.to_Z (a * b)%uint63 = Uint63.to_Z a * Uint63.to_Z b.
Proof.
  intros Ha Hb. pose proof (Uint63.to_Z_bounded a). pose proof (Uint63.to_Z_bounded b).
  rewrite Uint63.mul_spec. apply Z.mod_small. split; [nia |].
  apply Z.le_lt_trans with (7680 * 7680); [nia | reflexivity].
Qed.
End Binary64.

(** * Properties *)

(** ** Sequential fill on scenario A *)

(** C7.  Scenario A, computed in binary64: with 65.0 seconds of audio and clips
    of 10.0, 20.0 and 5.0 seconds the sequential fill makes exactly five
    segments, on clips 0, 1, 2, 0, 1, of 10.0, 20.0, 5.0, 10.0 and 20.0
    seconds, placed at 0, 10, 30, 35 and 45; the durations sum to exactly
    65.0, and the last segment is cut to what remains,
    [min(20.0, 65.0 - 45.0) = 20.0], so it ends at 65.0 and not after it.
    Five passes are all the loop makes, whatever bound it is given. *)
Theorem scenario_A_sequential_fill (extra : nat) :
  exists plan,
    plan_sequential scenario_A_clips scenario_A_durations 65.0%float (5 + extra)
    = Return plan
    /\ map clip plan = [0; 1; 2; 0; 1]%nat
    /\ map duration plan = [10.0; 20.0; 5.0; 10.0; 20.0]%float
    /\ map output_start plan = [0.0; 10.0; 30.0; 35.0; 45.0]%float
    /\ fold_left add (map duration plan) 0.0%float = 65.0%float
    /\ py_min 20.0%float (sub 65.0 45.0)%float = 20.0%float
    /\ add 45.0%float 20.0%float = 65.0%float.
Proof.
  eexists. split.
  - destruct extra; vm_compute; reflexivity.
  - repeat split; reflexivity.
Qed.

(** Comparisons of rational literals are decided by evaluation. *)
Ltac eval_closed_Q :=
  repeat match goal with
    | |- context [Qle_bool ?x ?y] =>
        let v := eval vm_compute in (Qle_bool x y) in
        match v with
        | true => change (Qle_bool x y) with true
        | false => change (Qle_bool x y) with false
        end
    end.

(** ** Beat-synced planning on scenario B *)

(** The ninth beat is a window start of its own: under 4.5 seconds of audio it
    opens the window from 4.0 to the end of the audio, and the plan has a third
    segment, on clip 0 again.  Computed in binary64 and in exact arithmetic. *)
Lemma scenario_B_third_segment :
  plan_beat_sync scenario_B_clips scenario_B_durations 4.5%float scenario_B_beats
  = Return [Segment 0%nat 0.0 2.0 0.0; Segment 1%nat 0.0 2.0 2.0;
            Segment 0%nat 0.0 0.5 4.0]%float
  /\ (exists plan,
        plan_beat_sync scenario_B_clips scenario_B_durations_Q (9 # 2)%Q
          scenario_B_beats_Q = Return plan
        /\ length plan = 3%nat).
Proof.
  split; [reflexivity |].
  eexists; split; reflexivity.
Qed.

(** C5.  On the grid and pool of scenario B, for every audio
    duration [a]: the plan starts with the two full windows, from 0 to 2 on
    clip 0 and from 2 to 4 on clip 1; it stops there exactly when [a <= 4], and
    when [4 < a] a third segment follows for the window the ninth beat opens,
    from 4 to [a], on clip 0, lasting [min(3, a - 4)]. *)
Theorem scenario_B_plan (a : Q) :
  exists s0 s1 rest,
    plan_beat_sync scenario_B_clips scenario_B_durations_Q a scenario_B_beats_Q
    = Return (s0 :: s1 :: rest)
    /\ (clip s0 = 0%nat /\ output_start s0 == 0 /\ duration s0 == 2)%Q
    /\ (clip s1 = 1%nat /\ output_start s1 == 2 /\ duration s1 == 2)%Q
    /\ (a <= 4 -> rest = [])%Q
    /\ (4 < a ->
        exists s2, rest = [s2] /\ clip s2 = 0%nat /\ output_start s2 == 4
                   /\ duration s2 == Qmin 3 (a - 4))%Q.
Proof.
  unfold plan_beat_sync, scenario_B_beats_Q, scenario_B_durations_Q,
    scenario_B_clips.
  repeat (cbn -[Qle_bool Qminus Q_ltb py_min]; eval_closed_Q).
  change (inject_Z 0) with 0%Q.
  destruct (Qle_bool (a - 4) 0) eqn:Hdeg; cbn -[Qminus py_min].
  - apply Qle_bool_iff in Hdeg.
    do 3 eexists. split; [reflexivity |]. cbn.
    repeat split; try reflexivity.
    intros Hlt. lra.
  - assert (4 < a)%Q as Hlt.
    { apply Qnot_le_lt. intros Hle.
      assert (Qle_bool (a - 4) 0 = true) as Ht by (apply Qle_bool_iff; lra).
      congruence. }
    do 3 eexists. split; [reflexivity |]. cbn -[Qminus py_min].
    repeat split; try reflexivity.
    + intros Hle. lra.
    + intros _. eexists. split; [reflexivity |]. cbn -[Qminus py_min].
      repeat split; try reflexivity.
      unfold py_min, ltb, Q_number, Q_ltb.
      destruct (Qle_bool 3 (a - 4)) eqn:Hmin; cbn -[Qminus].
      * apply Qle_bool_iff in Hmin. rewrite Q.min_l; [reflexivity | lra].
      * assert (a - 4 < 3)%Q.
        { apply Qnot_le_lt. intros Hle.
          assert (Qle_bool 3 (a - 4) = true) as Ht by (apply Qle_bool_iff; lra).
          congruence. }
        rewrite Q.min_r; [reflexivity | lra].
Qed.

(** ** Reloading a beat table *)

(** Whatever else the persisted table holds (a stored BPM column included),
    loading a table whose [beat_time_seconds] column is [beat_times] returns
    these beat times, their count, and the BPM that [reloaded_bpm] reads off
    the first two of them.  Nothing is logged.  This holds for both readings
    of the arithmetic. *)
Lemma reload_bpm {T : Type} `{Number T} {W : Type} `{Logging W}
    (other_columns : gmap string (list T)) (beat_times : list T) (w : W) :
  load_beat_data
    (Some (Done (<["beat_time_seconds" := beat_times]> other_columns))) w
  = (Return (Some (BeatData (reloaded_bpm beat_times) beat_times
                     (length beat_times))), w).
Proof.
  unfold load_beat_data, try_except, bind, run, ret.
  rewrite lookup_insert_eq.
  destruct beat_times as [| t0 [| t1 rest]]; reflexivity.
Qed.

(** The division is guarded ([if beat_interval > 0]).  The guard only
    answers for tables that are not beat grids: with the beat times 2.0
    and 1.0, or 1.0 and 1.0, loading gives the default 120.0.  Computed in
    binary64. *)
Example reload_bpm_guarded :
  fst (load_beat_data
         (Some (Done ({[ "beat_time_seconds" := [2.0; 1.0]%float ]}
                        : gmap string (list float))))
         ([] : list log_entry))
  = Return (Some (BeatData 120.0 [2.0; 1.0] 2))%float
  /\ div 60.0%float (sub 1.0 2.0)%float = (-60.0)%float
  /\ PrimFloat.eqb 120.0 (div 60.0 (sub 1.0 2.0))%float = false
  /\ fst (load_beat_data
            (Some (Done ({[ "beat_time_seconds" := [1.0; 1.0]%float ]}
                           : gmap string (list float))))
            ([] : list log_entry))
     = Return (Some (BeatData 120.0 [1.0; 1.0] 2))%float.
Proof. repeat split; reflexivity. Qed.

(** On a beat grid the guard never answers: the first interval is above
    zero, in exact arithmetic and in binary64. *)
#[export] Instance Q_difference_positive : DifferencePositive Q.
Proof.
  intros a b Hlt. change (ltb a b) with (negb (Qle_bool b a)) in Hlt.
  change (ltb (of_Z 0) (sub b a)) with (negb (Qle_bool (b - a) 0)).
  destruct (Qle_bool (b - a) 0) eqn:E; [| reflexivity].
  apply Qle_bool_iff in E.
  assert (Qle_bool b a = true) as Hle by (apply Qle_bool_iff; lra).
  rewrite Hle in Hlt. discriminate.
Qed.

#[export] Instance float_difference_positive : DifferencePositive float.
Proof. intros a b Hlt. apply float_sub_pos. exact Hlt. Qed.

(** C3.  For every persisted table whose beat times are strictly increasing
    (a beat grid), whatever else the table holds (a stored BPM column
    included): loading it returns these beat times and their count, with a
    BPM of [60 / (beat_times[1] - beat_times[0])] when there are at least two
    beats, and of 120 when there are fewer.  This holds in binary64, the
    arithmetic of the code, and in exact arithmetic. *)
Theorem reload_bpm_on_grid {T : Type} `{DifferencePositive T}
    {W : Type} `{Logging W}
    (other_columns : gmap string (list T)) (beat_times : list T) (w : W) :
  strictly_increasing beat_times ->
  exists bpm,
    load_beat_data
      (Some (Done (<["beat_time_seconds" := beat_times]> other_columns))) w
    = (Return (Some (BeatData bpm beat_times (length beat_times))), w)
    /\ (forall t0 t1,
          beat_times !! 0%nat = Some t0 -> beat_times !! 1%nat = Some t1 ->
          bpm = div (of_Z 60) (sub t1 t0))
    /\ ((length beat_times < 2)%nat -> bpm = of_Z 120).
Proof.
  intros Hgrid. exists (reloaded_bpm beat_times).
  split; [apply reload_bpm |]. split.
  - intros t0 t1 E0 E1.
    destruct beat_times as [| a [| b rest]]; try discriminate.
    injection E0 as <-. injection E1 as <-. cbn [reloaded_bpm].
    rewrite difference_positive; [reflexivity |].
    apply StronglySorted_inv in Hgrid as [_ Hall].
    apply List.Forall_inv in Hall. exact Hall.
  - intros Hfew. destruct beat_times as [| a [| b rest]];
      [reflexivity | reflexivity | cbn [length] in Hfew; lia].
Qed.

(** The grid of scenario B, in a table that also stores a BPM of 90: the
    reloaded BPM is [60 / (0.5 - 0.0) = 120]. *)
Lemma reload_bpm_on_grid_witness :
  exists bpm,
    load_beat_data
      (Some (Done (<["beat_time_seconds" := scenario_B_beats]>
                     ({[ "bpm" := [90.0%float] ]}
                        : gmap string (list float)))))
      ([] : list log_entry)
    = (Return (Some (BeatData bpm scenario_B_beats (length scenario_B_beats))),
       [])
    /\ (forall t0 t1,
          scenario_B_beats !! 0%nat = Some t0 ->
          scenario_B_beats !! 1%nat = Some t1 ->
          bpm = div (of_Z 60) (sub t1 t0))
    /\ ((length scenario_B_beats < 2)%nat -> bpm = of_Z 120).
Proof.
  apply (reload_bpm_on_grid
           ({[ "bpm" := [90.0%float] ]} : gmap string (list float))
           scenario_B_beats []).
  repeat constructor.
Defined.

(** ** The sequential fill does not always come to an end *)

(** One clip of duration 0 under 65 seconds of audio: a pass of the loop
    leaves [current_time] at 0, so the loop is still running after any number
    of passes.  Computed in binary64. *)
Lemma fill_loop_stuck {Clip : Type} (c : Clip) (fuel : nat) :
  forall (clip_index : nat) (acc : list (segment float Clip)),
    fill_loop [c] [0.0%float] 65.0%float fuel 0.0%float clip_index acc = Diverge.
Proof.
  induction fuel as [| fuel IH]; intros clip_index acc; [reflexivity |].
  cbn [fill_loop].
  change (ltb 0.0%float 65.0%float) with true. cbn iota.
  unfold py_mod. cbn [length].
  rewrite Nat.mod_1_r. cbn [obind py_index nth_error].
  change (add 0.0%float (py_min 0.0%float (sub 65.0%float 0.0%float)))
    with 0.0%float.
  apply IH.
Qed.

(** C6.  One clip whose probe failed (duration 0) under 65 seconds of audio:
    every pass adds [min(0, 65 - 0) = 0] to [current_time], which stays at 0,
    below the audio duration; whatever the number of passes allowed, the loop
    is still running.  Computed in binary64. *)
Theorem sequential_fill_stuck_on_zero_duration (c : string) (fuel : nat) :
  plan_sequential [c] [0.0%float] 65.0%float fuel = Diverge.
Proof.
  unfold plan_sequential.
  change (of_Z 0) with 0.0%float.
  apply fill_loop_stuck.
Qed.

(** ** The round robin of the beat-synced mode *)

Lemma py_index_nth {A : Type} (l : list A) (i : nat) (d : A) :
  (i < length l)%nat -> py_index l i = Return (nth i l d).
Proof.
  intros Hi. unfold py_index.
  destruct (nth_error l i) as [x |] eqn:E.
  - erewrite nth_error_nth by exact E. reflexivity.
  - apply nth_error_None in E. lia.
Qed.

Lemma range_from_map (fuel start stop : nat) :
  (stop - start <= fuel)%nat ->
  range_from fuel start stop 4
  = map (fun k => start + 4 * k)%nat (seq 0 ((stop - start + 3) / 4)).
Proof.
  revert start. induction fuel as [| fuel IH]; intros start Hfuel.
  - replace (stop - start)%nat with 0%nat by lia. reflexivity.
  - cbn [range_from]. destruct (Nat.ltb_spec start stop) as [Hlt | Hge].
    + rewrite IH by lia.
      assert ((stop - start + 3) / 4 = S ((stop - (start + 4) + 3) / 4))%nat
        as ->.
      { destruct (Nat.le_gt_cases 4 (stop - start)) as [Hbig | Hsmall].
        - replace (stop - start + 3)%nat
            with ((stop - (start + 4) + 3) + 1 * 4)%nat by lia.
          rewrite Nat.div_add by lia. lia.
        - replace (stop - (start + 4))%nat with 0%nat by lia.
          assert (stop - start = 1 \/ stop - start = 2 \/ stop - start = 3)%nat
            as [-> | [-> | ->]] by lia; reflexivity. }
      cbn [seq map]. f_equal; [lia |].
      rewrite <- seq_shift, map_map.
      apply map_ext. intros k. lia.
    + replace (stop - start)%nat with 0%nat by lia. reflexivity.
Qed.

Lemma py_range_windows (len : nat) :
  py_range 0 len beats_per_clip = map (fun k => 4 * k)%nat (seq 0 ((len + 3) / 4)).
Proof.
  unfold py_range, beats_per_clip. rewrite range_from_map by lia.
  rewrite Nat.sub_0_r. reflexivity.
Qed.

Lemma window_count_bound (len k : nat) :
  (k < (len + 3) / 4)%nat -> (4 * k < len)%nat.
Proof.
  intros Hk.
  pose proof (Nat.div_mod_eq (len + 3) 4) as E.
  pose proof (Nat.mod_upper_bound (len + 3) 4) as B.
  lia.
Qed.

Section RoundRobin.
Context {T : Type} `{Number T} {Clip : Type}.
Variable video_clips : list Clip.
Variable clip_durations : list T.
Variable audio_duration : T.
Variable beat_times : list T.

Lemma beat_loop_app (l1 l2 : list nat) (st : nat * list (segment T Clip)) :
  beat_loop video_clips clip_durations audio_duration beat_times (l1 ++ l2) st
  = let? st' := beat_loop video_clips clip_durations audio_duration beat_times l1 st in
    beat_loop video_clips clip_durations audio_duration beat_times l2 st'.
Proof.
  revert st. induction l1 as [| i l1 IH]; intros st; [reflexivity |].
  cbn [app beat_loop].
  destruct (beat_body _ _ _ _ st i); cbn [obind]; auto.
Qed.

Lemma window_in_range (k : nat) :
  (k < window_count beat_times)%nat ->
  window audio_duration beat_times (4 * k)
  = Return (window_at audio_duration beat_times k).
Proof.
  intros Hk. apply window_count_bound in Hk.
  unfold window, window_at, beats_per_clip.
  destruct (Nat.ltb_spec (4 * k + 4) (length beat_times)) as [Hn | Hn].
  - rewrite (py_index_nth _ (4 * k) (of_Z 0)) by lia.
    rewrite (py_index_nth _ (4 * k + 4) (of_Z 0)) by lia.
    reflexivity.
  - rewrite (py_index_nth _ (4 * k) (of_Z 0)) by lia. reflexivity.
Qed.

(** The pass over window [k], entered with the index the earlier windows
    left: it leaves the index of the next window and adds what the window
    contributes. *)
Lemma beat_body_window (k : nat) (acc : list (segment T Clip)) :
  video_clips <> [] ->
  length clip_durations = length video_clips ->
  (k < window_count beat_times)%nat ->
  beat_body video_clips clip_durations audio_duration beat_times
    (advances_before audio_duration beat_times k, acc) (4 * k)
  = Return (advances_before audio_duration beat_times (S k),
            acc ++ segment_of_window video_clips clip_durations
                     audio_duration beat_times k).
Proof.
  intros Hne Hlen Hk.
  unfold beat_body. rewrite window_in_range by exact Hk.
  cbn [obind advances_before]. unfold segment_of_window, degenerate, window_duration.
  destruct (leb _ (of_Z 0)) eqn:Hdeg.
  - rewrite Nat.add_0_r, app_nil_r. reflexivity.
  - assert (length video_clips <> 0)%nat as Hn
      by (destruct video_clips; [congruence | discriminate]).
    unfold py_mod. destruct (length video_clips) as [| n] eqn:En; [lia |].
    cbn [obind].
    set (j := (advances_before audio_duration beat_times k mod S n)%nat).
    assert (j < S n)%nat as Hj by (apply Nat.mod_upper_bound; lia).
    unfold py_index.
    destruct (nth_error video_clips j) as [c |] eqn:Ec;
      [| apply nth_error_None in Ec; lia].
    destruct (nth_error clip_durations j) as [d |] eqn:Ed;
      [| apply nth_error_None in Ed; lia].
    cbn [obind].
    replace (advances_before audio_duration beat_times k + 1)%nat
      with (S (advances_before audio_duration beat_times k)) by lia.
    destruct (leb d (of_Z 0)); [rewrite app_nil_r |]; reflexivity.
Qed.

Lemma beat_loop_windows (m : nat) :
  video_clips <> [] ->
  length clip_durations = length video_clips ->
  (m <= window_count beat_times)%nat ->
  beat_loop video_clips clip_durations audio_duration beat_times
    (map (fun k => 4 * k)%nat (seq 0 m)) (0%nat, [])
  = Return (advances_before audio_duration beat_times m,
            concat (map (segment_of_window video_clips clip_durations
                           audio_duration beat_times) (seq 0 m))).
Proof.
  intros Hne Hlen. induction m as [| m IH]; intros Hm; [reflexivity |].
  rewrite seq_S, !map_app, beat_loop_app, IH by lia.
  cbn [obind map beat_loop Nat.add].
  rewrite beat_body_window by (auto; lia).
  cbn [obind]. rewrite concat_app. cbn [concat]. rewrite app_nil_r.
  reflexivity.
Qed.
End RoundRobin.

(** A window in the middle of the grid that is degenerate (beats 4 to 8 carry
    the same time) does not advance the index: window 2 is given clip 1, where
    [window_ordinal mod len(clips)] is 2; and on an increasing grid whose last
    beat falls on the end of the audio the index is 1, not 2, after the two
    windows.  Computed in binary64. *)
Lemma degenerate_window_keeps_clip_index :
  plan_beat_sync [0; 1; 2]%nat [9.0; 9.0; 9.0]%float 10.0%float
    [0.0; 1.0; 2.0; 3.0; 4.0; 4.0; 4.0; 4.0; 4.0; 5.0; 6.0; 7.0; 8.0]%float
  = Return [Segment 0%nat 0.0 4.0 0.0; Segment 1%nat 0.0 4.0 4.0;
            Segment 2%nat 0.0 2.0 8.0]%float
  /\ nth_error [0; 1; 2]%nat (2 mod 3) = Some 2%nat
  /\ beat_loop [0; 1; 2]%nat [9.0; 9.0; 9.0]%float 4.0%float
       [0.0; 1.0; 2.0; 3.0; 4.0]%float (py_range 0 5 beats_per_clip) (0%nat, [])
     = Return (1%nat, [Segment 0%nat 0.0 4.0 0.0]%float).
Proof. repeat split; reflexivity. Qed.

(** C4.  For every clip pool that is not empty (with one duration
    per clip), every beat grid and audio duration, in either reading of the
    arithmetic: the beat-synced loop returns, the index it ends with is the
    number of windows that are not degenerate, and the plan is, window by
    window, what [segment_of_window] says: a window that is not skipped gets
    the clip at position [c mod len(clips)], where [c] counts the earlier
    windows that are not degenerate.  So the index advances on every window
    with a positive segment duration, emitted or skipped for its clip's
    duration, and stays on a window skipped as degenerate. *)
Theorem round_robin_counts_advancing_windows {T : Type} `{Number T} {Clip : Type}
    (video_clips : list Clip) (clip_durations : list T) (audio_duration : T)
    (beat_times : list T) :
  video_clips <> [] ->
  length clip_durations = length video_clips ->
  beat_loop video_clips clip_durations audio_duration beat_times
    (py_range 0 (length beat_times) beats_per_clip) (0%nat, [])
  = Return (advances_before audio_duration beat_times (window_count beat_times),
            concat (map (segment_of_window video_clips clip_durations
                           audio_duration beat_times)
                      (seq 0 (window_count beat_times))))
  /\ plan_beat_sync video_clips clip_durations audio_duration beat_times
     = Return (concat (map (segment_of_window video_clips clip_durations
                              audio_duration beat_times)
                         (seq 0 (window_count beat_times)))).
Proof.
  intros Hne Hlen.
  assert (beat_loop video_clips clip_durations audio_duration beat_times
            (py_range 0 (length beat_times) beats_per_clip) (0%nat, [])
          = Return (advances_before audio_duration beat_times
                      (window_count beat_times),
                    concat (map (segment_of_window video_clips clip_durations
                                   audio_duration beat_times)
                              (seq 0 (window_count beat_times))))) as E.
  { rewrite py_range_windows. apply beat_loop_windows; auto. }
  split; [exact E |].
  unfold plan_beat_sync. rewrite E. reflexivity.
Qed.

Lemma round_robin_counts_advancing_windows_witness :
  beat_loop [0; 1; 2]%nat [9.0; 9.0; 9.0]%float 10.0%float
    [0.0; 1.0; 2.0; 3.0; 4.0; 4.0; 4.0; 4.0; 4.0]%float
    (py_range 0 9 beats_per_clip) (0%nat, [])
  = Return (advances_before 10.0%float
              [0.0; 1.0; 2.0; 3.0; 4.0; 4.0; 4.0; 4.0; 4.0]%float
              (window_count [0.0; 1.0; 2.0; 3.0; 4.0; 4.0; 4.0; 4.0; 4.0]%float),
            concat (map (segment_of_window [0; 1; 2]%nat [9.0; 9.0; 9.0]%float
                           10.0%float
                           [0.0; 1.0; 2.0; 3.0; 4.0; 4.0; 4.0; 4.0; 4.0]%float)
                      (seq 0 (window_count
                                [0.0; 1.0; 2.0; 3.0; 4.0; 4.0; 4.0; 4.0; 4.0]%float))))
  /\ plan_beat_sync [0; 1; 2]%nat [9.0; 9.0; 9.0]%float 10.0%float
       [0.0; 1.0; 2.0; 3.0; 4.0; 4.0; 4.0; 4.0; 4.0]%float
     = Return (concat (map (segment_of_window [0; 1; 2]%nat [9.0; 9.0; 9.0]%float
                              10.0%float
                              [0.0; 1.0; 2.0; 3.0; 4.0; 4.0; 4.0; 4.0; 4.0]%float)
                         (seq 0 (window_count
                                   [0.0; 1.0; 2.0; 3.0; 4.0; 4.0; 4.0; 4.0; 4.0]%float)))).
Proof.
  apply (round_robin_counts_advancing_windows [0; 1; 2]%nat [9.0; 9.0; 9.0]%float
           10.0%float [0.0; 1.0; 2.0; 3.0; 4.0; 4.0; 4.0; 4.0; 4.0]%float).
  - discriminate.
  - reflexivity.
Defined.

(** ** Placement intervals of a beat-synced plan *)

Lemma Q_leb_true (x y : Q) : leb x y = true <-> (x <= y)%Q.
Proof. apply Qle_bool_iff. Qed.

Lemma Q_leb_false (x y : Q) : leb x y = false <-> (y < x)%Q.
Proof.
  split.
  - intros E. apply Qnot_le_lt. intros Hle.
    apply Q_leb_true in Hle. congruence.
  - intros Hlt. destruct (leb x y) eqn:E; [| reflexivity].
    apply Q_leb_true in E. lra.
Qed.

Lemma Q_py_min_le (d w : Q) : (0 < d -> 0 < w -> 0 <= py_min d w <= w)%Q.
Proof.
  intros Hd Hw. unfold py_min, ltb, Q_number, Q_ltb.
  destruct (Qle_bool d w) eqn:E; cbn [negb].
  - apply Qle_bool_iff in E. lra.
  - lra.
Qed.

Lemma Q_py_min_covering (d w : Q) : (w <= d -> py_min d w == w)%Q.
Proof.
  intros Hwd. unfold py_min, ltb, Q_number, Q_ltb.
  destruct (Qle_bool d w) eqn:E; cbn [negb].
  - apply Qle_bool_iff in E. lra.
  - reflexivity.
Qed.

Lemma StronglySorted_nth {A : Type} (R : A -> A -> Prop) (l : list A) (d : A) :
  StronglySorted R l ->
  forall i j, (i < j < length l)%nat -> R (nth i l d) (nth j l d).
Proof.
  induction 1 as [| x l Hs IH Hall]; intros i j Hij; [cbn in Hij; lia |].
  destruct j as [| j]; [lia |].
  destruct i as [| i]; cbn [nth].
  - rewrite List.Forall_forall in Hall. apply Hall, nth_In.
    cbn in Hij. lia.
  - apply IH. cbn in Hij. lia.
Qed.

Lemma tiles_from_Qeq {Clip : Type} (plan : list (segment Q Clip)) (x y to : Q) :
  (x == y)%Q -> tiles x plan to -> tiles y plan to.
Proof.
  intros E. destruct plan as [| s rest]; cbn [tiles].
  - intros Hx. rewrite <- E. exact Hx.
  - intros [Hs Hrest]. split; [rewrite <- E; exact Hs | exact Hrest].
Qed.

Section Placement.
Context {Clip : Type}.
Variable video_clips : list Clip.
Variable clip_durations : list Q.
Variable audio_duration : Q.
Variable beat_times : list Q.

Hypothesis pool : video_clips <> [].
Hypothesis probed : length clip_durations = length video_clips.

Local Abbreviation start := (window_start audio_duration beat_times).
Local Abbreviation stop := (window_stop audio_duration beat_times).
Local Abbreviation contribution :=
  (segment_of_window video_clips clip_durations audio_duration beat_times).

(** Either window [k] adds nothing, or it adds one segment that starts with
    the window and is no longer than it. *)
Lemma contribution_inside (k : nat) :
  contribution k = []
  \/ exists s, contribution k = [s] /\ output_start s = start k
               /\ (0 <= duration s)%Q
               /\ (output_start s + duration s <= stop k)%Q.
Proof.
  unfold contribution, segment_of_window, degenerate, window_duration.
  fold (start k) (stop k).
  destruct (leb (sub (stop k) (start k)) (of_Z 0)) eqn:Hdeg; [left; reflexivity |].
  apply Q_leb_false in Hdeg. change (0 < stop k - start k)%Q in Hdeg.
  destruct (nth_error video_clips _) as [c |]; [| left; reflexivity].
  destruct (nth_error clip_durations _) as [d |]; [| left; reflexivity].
  destruct (leb d (of_Z 0)) eqn:Hd; [left; reflexivity |].
  apply Q_leb_false in Hd. change (0 < d)%Q in Hd.
  right. eexists. split; [reflexivity |]. cbn [output_start duration].
  split; [reflexivity |].
  pose proof (Q_py_min_le d (stop k - start k) Hd) as Hmin.
  cbn [sub Q_number].
  specialize (Hmin Hdeg). lra.
Qed.

Section NoOverlap.
Hypothesis nondecreasing : StronglySorted Qle beat_times.
Hypothesis within : Forall (fun b => 0 <= b <= audio_duration)%Q beat_times.

Lemma beat_within (i : nat) :
  (i < length beat_times)%nat ->
  (0 <= nth i beat_times (of_Z 0) <= audio_duration)%Q.
Proof.
  intros Hi. rewrite List.Forall_forall in within.
  apply within, nth_In, Hi.
Qed.

Lemma stop_within (k : nat) :
  (k < window_count beat_times)%nat -> (stop k <= audio_duration)%Q.
Proof.
  intros Hk. unfold stop, window_at. cbn [snd].
  destruct (Nat.ltb_spec (4 * k + 4) (length beat_times)) as [Hn | Hn].
  - apply beat_within, Hn.
  - lra.
Qed.

Lemma stop_before_next_start (k : nat) :
  (S k < window_count beat_times)%nat -> (stop k <= start (S k))%Q.
Proof.
  intros Hk. apply window_count_bound in Hk.
  unfold stop, start, window_at. cbn [fst snd].
  destruct (Nat.ltb_spec (4 * k + 4) (length beat_times)) as [Hn | Hn]; [| lia].
  replace (4 * S k)%nat with (4 * k + 4)%nat by lia. lra.
Qed.

Lemma start_nondecreasing (k : nat) :
  (S k < window_count beat_times)%nat -> (start k <= start (S k))%Q.
Proof.
  intros Hk. apply window_count_bound in Hk.
  unfold start, window_at. cbn [fst].
  apply StronglySorted_nth; [exact nondecreasing | lia].
Qed.

Lemma packed_windows (m k0 : nat) (lo : Q) :
  (k0 + m = window_count beat_times)%nat ->
  (lo <= audio_duration)%Q ->
  ((0 < m)%nat -> (lo <= start k0)%Q) ->
  packed lo (concat (map contribution (seq k0 m))) audio_duration.
Proof.
  revert k0 lo. induction m as [| m IH]; intros k0 lo Hsum Hlo Hstart.
  - exact Hlo.
  - cbn [seq map concat].
    specialize (Hstart ltac:(lia)).
    destruct (contribution_inside k0) as [-> | (s & -> & Hs & Hd & He)].
    + cbn [app]. apply IH; [lia | exact Hlo |].
      intros Hm. pose proof (start_nondecreasing k0 ltac:(lia)). lra.
    + cbn [app packed]. rewrite Hs.
      split; [exact Hstart |]. split; [exact Hd |].
      rewrite Hs in He.
      apply IH; [lia | |].
      * pose proof (stop_within k0 ltac:(lia)). lra.
      * intros Hm. pose proof (stop_before_next_start k0 ltac:(lia)). lra.
Qed.
End NoOverlap.

Section Gapless.
Hypothesis increasing : StronglySorted Qlt beat_times.
Hypothesis inside : Forall (fun b => b < audio_duration)%Q beat_times.
Hypothesis covering :
  forall k d, (k < window_count beat_times)%nat -> In d clip_durations ->
              (window_duration audio_duration beat_times k <= d)%Q.

Lemma window_positive (k : nat) :
  (k < window_count beat_times)%nat -> (start k < stop k)%Q.
Proof.
  intros Hk. apply window_count_bound in Hk.
  unfold start, stop, window_at. cbn [fst snd].
  destruct (Nat.ltb_spec (4 * k + 4) (length beat_times)) as [Hn | Hn].
  - apply StronglySorted_nth; [exact increasing | lia].
  - rewrite List.Forall_forall in inside. apply inside, nth_In, Hk.
Qed.

(** A window no clip is shorter than adds one segment that fills it. *)
Lemma contribution_fills (k : nat) :
  (k < window_count beat_times)%nat ->
  exists s, contribution k = [s] /\ output_start s = start k
            /\ (output_start s + duration s == stop k)%Q.
Proof.
  intros Hk. pose proof (window_positive k Hk) as Hpos.
  unfold contribution, segment_of_window, degenerate.
  assert (leb (window_duration audio_duration beat_times k) (of_Z 0) = false)
    as -> by (apply Q_leb_false; change (0 < stop k - start k)%Q; lra).
  assert (length video_clips <> 0)%nat as Hn
    by (destruct video_clips; [congruence | discriminate]).
  set (j := (_ mod _)%nat).
  assert (j < length video_clips)%nat as Hj by (apply Nat.mod_upper_bound, Hn).
  destruct (nth_error video_clips j) as [c |] eqn:Ec;
    [| apply nth_error_None in Ec; lia].
  destruct (nth_error clip_durations j) as [d |] eqn:Ed;
    [| apply nth_error_None in Ed; lia].
  pose proof (covering k d Hk (nth_error_In _ _ Ed)) as Hcov.
  change (window_duration audio_duration beat_times k)
    with (stop k - start k)%Q in Hcov.
  assert (leb d (of_Z 0) = false) as ->
    by (apply Q_leb_false; change (0 < d)%Q; lra).
  eexists. split; [reflexivity |]. cbn [output_start duration].
  split; [reflexivity |].
  change (window_duration audio_duration beat_times k)
    with (stop k - start k)%Q.
  change (fst (window_at audio_duration beat_times k)) with (start k).
  rewrite (Q_py_min_covering d _ Hcov). lra.
Qed.

Lemma tiles_windows (m k0 : nat) :
  (k0 + S m = window_count beat_times)%nat ->
  tiles (start k0) (concat (map contribution (seq k0 (S m)))) audio_duration.
Proof.
  revert k0. induction m as [| m IH]; intros k0 Hsum;
    destruct (contribution_fills k0 ltac:(lia)) as (s & Es & Hs & He).
  - cbn [seq map concat]. rewrite Es. cbn [app tiles].
    split; [rewrite Hs; reflexivity |].
    rewrite He. unfold stop, window_at. cbn [snd].
    destruct (Nat.ltb_spec (4 * k0 + 4) (length beat_times)) as [Hn | Hn];
      [| reflexivity].
    exfalso. unfold window_count in Hsum.
    pose proof (Nat.div_mod_eq (length beat_times + 3) 4).
    pose proof (Nat.mod_upper_bound (length beat_times + 3) 4). lia.
  - change (seq k0 (S (S m))) with (k0 :: seq (S k0) (S m)).
    cbn [map concat]. rewrite Es. cbn [app tiles].
    split; [rewrite Hs; reflexivity |].
    apply (tiles_from_Qeq _ (start (S k0))); [| apply IH; lia].
    rewrite He. pose proof (window_count_bound (length beat_times) (S k0) ltac:(fold (window_count beat_times); lia)) as Hb.
    unfold start, stop, window_at. cbn [fst snd].
    destruct (Nat.ltb_spec (4 * k0 + 4) (length beat_times)) as [Hn | Hn]; [| lia].
    replace (4 * S k0)%nat with (4 * k0 + 4)%nat by lia. reflexivity.
Qed.
End Gapless.
End Placement.

(** On the grid of scenario B with two clips of one second each, under 4.5
    seconds of audio, the plan places one second of video at 0, one at 2 and
    half a second at 4: nothing covers the second from 1 to 2, and the
    intervals do not tile the audio. *)
Lemma short_clips_leave_gaps :
  exists plan,
    plan_beat_sync scenario_B_clips [1; 1]%Q (9 # 2)%Q scenario_B_beats_Q
    = Return plan
    /\ map (fun s => (output_start s, duration s)) plan
       = [(0, 1); (2, 1); (4, 1 # 2)]%Q
    /\ ~ tiles 0%Q plan (9 # 2)%Q.
Proof.
  eexists. split; [vm_compute; reflexivity |]. split; [reflexivity |].
  cbn. intros (_ & Hgap & _). revert Hgap. unfold Qeq. cbn. lia.
Qed.

(** C1.  For a pool that is not empty (with one duration per
    clip), a positive audio duration and a beat grid that never decreases and
    lies within the audio, in exact arithmetic: the planner returns a plan
    whose placement intervals, in order, never overlap and lie in
    [[0, audio_duration)]; each starts with its beat window and is no longer
    than it, so gaps remain where a clip is shorter than its window, where a
    window is skipped, and before the first beat.  The intervals tile
    [[0, audio_duration)] exactly when, in addition, the grid is not empty,
    strictly increasing, starts at 0, ends before the end of the audio, and no
    clip is shorter than a window. *)
Theorem beat_plan_packed {Clip : Type} (video_clips : list Clip)
    (clip_durations : list Q) (audio_duration : Q) (beat_times : list Q) :
  video_clips <> [] ->
  length clip_durations = length video_clips ->
  (0 < audio_duration)%Q ->
  StronglySorted Qle beat_times ->
  Forall (fun b => 0 <= b <= audio_duration)%Q beat_times ->
  exists plan,
    plan_beat_sync video_clips clip_durations audio_duration beat_times
    = Return plan
    /\ packed 0%Q plan audio_duration
    /\ (beat_times <> [] ->
        (nth 0 beat_times 0 == 0)%Q ->
        StronglySorted Qlt beat_times ->
        Forall (fun b => b < audio_duration)%Q beat_times ->
        (forall k d, (k < window_count beat_times)%nat -> In d clip_durations ->
                     (window_duration audio_duration beat_times k <= d)%Q) ->
        tiles 0%Q plan audio_duration).
Proof.
  intros Hpool Hlen Haudio Hsorted Hwithin.
  eexists. split.
  { unfold plan_beat_sync. rewrite py_range_windows.
    rewrite beat_loop_windows by auto. reflexivity. }
  cbn [snd]. split.
  - apply packed_windows; [assumption .. | reflexivity | lra |].
    intros Hm. unfold window_at. cbn [fst]. change (4 * 0)%nat with 0%nat.
    apply window_count_bound in Hm.
    rewrite List.Forall_forall in Hwithin.
    apply (Hwithin (nth 0 beat_times (of_Z 0))), nth_In, Hm.
  - intros Hne Hfirst Hincr Hinside Hcover.
    assert (exists m, window_count beat_times = S m) as [m Em].
    { unfold window_count. destruct beat_times as [| b bs]; [congruence |].
      cbn [length]. exists ((length bs + 0) / 4)%nat.
      replace (S (length bs) + 3)%nat with (length bs + 0 + 1 * 4)%nat by lia.
      rewrite Nat.div_add by lia. lia. }
    change ((length beat_times + 3) / 4)%nat with (window_count beat_times).
    rewrite Em.
    apply (tiles_from_Qeq _ (fst (window_at audio_duration beat_times 0))).
    + unfold window_at. cbn [fst]. exact Hfirst.
    + apply tiles_windows; [assumption .. | lia].
Qed.

Lemma beat_plan_packed_witness :
  exists plan,
    plan_beat_sync scenario_B_clips scenario_B_durations_Q (9 # 2)%Q
      scenario_B_beats_Q = Return plan
    /\ packed 0%Q plan (9 # 2)%Q
    /\ tiles 0%Q plan (9 # 2)%Q.
Proof.
  destruct (beat_plan_packed scenario_B_clips scenario_B_durations_Q (9 # 2)%Q
              scenario_B_beats_Q) as (plan & Hplan & Hpacked & Htiles).
  - discriminate.
  - reflexivity.
  - reflexivity.
  - repeat constructor; unfold Qle; cbn; lia.
  - repeat constructor; unfold Qle; cbn; lia.
  - exists plan. split; [exact Hplan |]. split; [exact Hpacked |].
    apply Htiles.
    + discriminate.
    + reflexivity.
    + repeat constructor; unfold Qlt; cbn; lia.
    + repeat constructor; unfold Qlt; cbn; lia.
    + intros k d Hk Hd.
      assert (d = 3%Q) as -> by (cbn in Hd; intuition congruence).
      change (window_count scenario_B_beats_Q) with 3%nat in Hk.
      assert (k = 0 \/ k = 1 \/ k = 2)%nat as [-> | [-> | ->]] by lia;
        vm_compute; discriminate.
Defined.

(** ** Matching the video to the audio *)

(** C2.  The grid of scenario B, 4.5 seconds of audio, two clips of one second,
    and a tool that does all it is asked.  The plan holds 1.0, 1.0 and 0.5
    seconds of video; the concatenation lasts 2.5 seconds, 2.0 short of the
    audio; [int(2.0 / 2) + 1 = 2] repeats of the half-second final segment
    bring it to 3.5 seconds, which the limit [t=4.5] leaves as it is.  The
    video handed to the mux step lasts 3.5 seconds under 4.5 seconds of audio,
    and the assembly reports success.  Computed in binary64. *)
Theorem padding_stops_short_of_audio :
  let tools := ideal_tool 4.5%float (Some scenario_B_beats) (fun _ : nat => 1.0%float) in
  exists plan segment_files combined_video delivered,
    plan_beat_sync scenario_B_clips [1.0; 1.0]%float 4.5%float scenario_B_beats
    = Return plan
    /\ map duration plan = [1.0; 1.0; 0.5]%float
    /\ render_segments tools 0 plan [] ([] : list log_entry)
       = (Return segment_files, [])
    /\ concat_demux tools segment_files None = Done combined_video
    /\ video_duration combined_video = 2.5%float
    /\ match_duration tools segment_files combined_video 4.5%float
         ([] : list log_entry)
       = (Return delivered, [])
    /\ video_duration delivered = 3.5%float
    /\ ltb (video_duration delivered) 4.5%float = true
    /\ fst (create_mv_from_clips tools 0 scenario_B_clips true
              ([] : list log_entry)) = Return true.
Proof.
  do 4 eexists.
  split; [vm_compute; reflexivity |].
  split; [reflexivity |].
  split; [vm_compute; reflexivity |].
  split; [vm_compute; reflexivity |].
  split; [reflexivity |].
  split; [vm_compute; reflexivity |].
  repeat split; reflexivity.
Qed.

(** ** What the assembly returns *)

Lemma last_level_snoc (l : list log_entry) (lvl : log_level) (msg : string) :
  last_level (l ++ [LogEntry lvl msg]) = Some lvl.
Proof. unfold last_level. rewrite last_snoc. reflexivity. Qed.

Section AssemblyOutcome.
Context {T : Type} `{Number T} {Clip Video : Type}.
Variable tools : Tools T Clip Video.

Lemma load_beat_data_returns {W : Type} `{Logging W}
    (csv : option (tool_result (gmap string (list T)))) (w : W) :
  exists r w', load_beat_data csv w = (Return r, w').
Proof.
  unfold load_beat_data, try_except, bind, run, ret, lift, log_callback.
  destruct csv as [[df | e] |]; cbn; eauto.
  destruct (df !! "beat_time_seconds") as [bt |]; cbn; eauto.
  destruct bt as [| t0 [| t1 rest]]; cbn; eauto.
Qed.

Lemma load_beat_data_some {W : Type} `{Logging W}
    (csv : option (tool_result (gmap string (list T)))) (w w' : W)
    (d : beat_data T) :
  load_beat_data csv w = (Return (Some d), w') ->
  exists df bt, csv = Some (Done df) /\ df !! "beat_time_seconds" = Some bt.
Proof.
  unfold load_beat_data, try_except, bind, run, ret, lift, log_callback.
  destruct csv as [[df | e] |]; cbn; try discriminate.
  destruct (df !! "beat_time_seconds") as [bt |] eqn:E; cbn; try discriminate.
  eauto.
Qed.

Lemma probe_clips_returns (video_clips : list Clip) (l : list log_entry) :
  exists ds, probe_clips tools video_clips l = (Return ds, l).
Proof.
  induction video_clips as [| c rest [ds IH]]; [eexists; reflexivity |].
  cbn [probe_clips]. unfold bind, try_except, run, ret, lift in *.
  destruct (probe_clip tools c) as [d | e]; cbn; rewrite IH; eauto.
Qed.

Lemma render_segments_outcome (clip_segments : list (segment T Clip)) :
  forall (i : nat) (acc : list Video) (l : list log_entry),
    (exists files, render_segments tools i clip_segments acc l = (Return files, l))
    \/ (exists e, render_segments tools i clip_segments acc l = (Raise e, l)).
Proof.
  induction clip_segments as [| s rest IH]; intros i acc l.
  - left. eexists. reflexivity.
  - cbn [render_segments]. unfold bind, run, ret, lift.
    destruct (extract tools i s) as [f | e]; cbn.
    + apply IH.
    + right. eauto.
Qed.

Lemma match_duration_returns (segment_files : list Video) (combined_video : Video)
    (audio_duration : T) (l : list log_entry) :
  exists v, match_duration tools segment_files combined_video audio_duration l
            = (Return v, l).
Proof.
  unfold match_duration, try_except, bind, run, ret, lift, py_last.
  destruct (probe_video tools combined_video) as [d | e]; cbn; eauto.
  destruct (ltb d audio_duration); cbn.
  - destruct (last segment_files) as [final |]; cbn; eauto.
    destruct (stat_size tools final) as [size | e]; cbn; eauto.
    destruct (size =? 0)%N; cbn; eauto.
    unfold py_int. destruct (to_int _) as [n |]; cbn; eauto.
    destruct (append_concat tools _) as [[] | e]; cbn; eauto.
    destruct (concat_demux tools _ _) as [v | e]; cbn; eauto.
  - destruct (ltb audio_duration d); cbn; eauto.
    destruct (trim_copy tools combined_video audio_duration) as [v | e]; cbn; eauto.
Qed.

Ltac assemble_leaf :=
  cbn; first [ exact I | apply last_level_snoc ].

Lemma assemble_outcome (clip_segments : list (segment T Clip))
    (audio_duration : T) (l : list log_entry) :
  ends_well (rendered_and_muxed tools) False
    (assemble tools clip_segments audio_duration l).
Proof.
  unfold ends_well, assemble, try_except at 1, bind at 1.
  destruct (render_segments_outcome clip_segments 0 [] l)
    as [[files Hrender] | [e ->]].
  2: { destruct e; assemble_leaf. }
  rewrite Hrender.
  destruct files as [| f files]; [assemble_leaf |].
  unfold bind, try_except, run, ret, lift, log_callback, write_log, log_only.
  destruct (write_concat tools (f :: files)) as [[] | e] eqn:Hwrite;
    cbn -[match_duration].
  2: { destruct e; assemble_leaf. }
  destruct (concat_demux tools (f :: files) None) as [combined | e] eqn:Hconcat;
    cbn -[match_duration].
  2: { destruct e; assemble_leaf. }
  destruct (match_duration_returns (f :: files) combined audio_duration l)
    as [v Hv].
  rewrite Hv. cbn.
  destruct (mux tools v) as [[] | e] eqn:Hmux; cbn.
  2: { destruct e; assemble_leaf. }
  assert (output_nonempty tools = Done true -> rendered_and_muxed tools) as Hok.
  { intros Hout.
    exists clip_segments, audio_duration, (f :: files), combined, v, l.
    repeat split; (assumption || discriminate). }
  destruct (cleanup tools) as [[] | e]; cbn;
    (destruct (output_nonempty tools) as [[] | e'] eqn:Hout; cbn;
     [ split; [apply Hok; reflexivity | apply last_level_snoc]
     | assemble_leaf
     | destruct e'; assemble_leaf ]).
Qed.

Lemma beat_body_comes_back (video_clips : list Clip) (clip_durations : list T)
    (audio_duration : T) (beat_times : list T)
    (st : nat * list (segment T Clip)) (i : nat) :
  beat_body video_clips clip_durations audio_duration beat_times st i <> Diverge.
Proof.
  unfold beat_body, window, py_index, py_mod. destruct st as [ci acc].
  repeat match goal with
         | |- context [match ?x with _ => _ end] => destruct x; cbn
         | |- context [if ?x then _ else _] => destruct x; cbn
         end; discriminate.
Qed.

Lemma plan_beat_sync_comes_back (video_clips : list Clip)
    (clip_durations : list T) (audio_duration : T) (beat_times : list T) :
  plan_beat_sync video_clips clip_durations audio_duration beat_times <> Diverge.
Proof.
  unfold plan_beat_sync.
  generalize (py_range 0 (length beat_times) beats_per_clip) as starts.
  generalize (0%nat, @nil (segment T Clip)) as st.
  intros st starts. revert st.
  induction starts as [| i starts IH]; intros st; [discriminate |].
  cbn [beat_loop].
  pose proof (beat_body_comes_back video_clips clip_durations audio_duration
                beat_times st i) as Hbody.
  destruct (beat_body _ _ _ _ st i) as [st' | e |]; cbn [obind];
    [apply IH | discriminate | congruence].
Qed.
End AssemblyOutcome.

(** A failed tool call that does not make the assembly fail: on the tool that
    otherwise does all it is asked, the probe of the concatenated video (the
    first call of the duration-matching step) raises [ffmpeg.Error]; the
    step is passed over, and the assembly returns true with no ERROR in the
    log (computed in binary64, on scenario A).  And an assembly that does not
    return: without a beat table, one clip whose duration is 0 keeps the
    sequential fill running, whatever the number of passes allowed. *)
Lemma failed_length_check_is_passed_over :
  let tools :=
    failing_length_check
      (ideal_tool 65.0%float None
         (fun c : nat => nth c scenario_A_durations 0.0%float)) in
  (forall v, probe_video tools v = Failed FfmpegError)
  /\ fst (create_mv_from_clips tools 5 scenario_A_clips false ([] : list log_entry))
     = Return true
  /\ Forall (fun e => level e <> ERROR)
       (snd (create_mv_from_clips tools 5 scenario_A_clips false
               ([] : list log_entry)))
  /\ (forall fuel,
        fst (create_mv_from_clips
               (ideal_tool 65.0%float None (fun _ : nat => 0.0%float))
               fuel [0%nat] false ([] : list log_entry))
        = Diverge).
Proof.
  split; [reflexivity |]. split; [reflexivity |]. split.
  - vm_compute. repeat constructor; discriminate.
  - intros fuel.
    unfold create_mv_from_clips, try_except, bind, log_callback, ret, lift, run.
    cbn -[plan_sequential].
    unfold plan_sequential. change (of_Z 0) with 0.0%float.
    rewrite fill_loop_stuck. reflexivity.
Qed.

(** C8.  For every clip list, sync flag, starting log and every
    behaviour of the tool and the file system, in any arithmetic with
    [0 <= 0]: the assembly never raises past its own boundary.  When it
    returns true, the audio file was there and probed with a positive
    duration, a concatenation of at least one segment, the mux and the final
    look at the output file (it exists with a size above zero) all succeeded,
    and the last log entry is a SUCCESS.  When it returns false, the last log
    entry is an ERROR.  The calls in between (clip probes, the
    duration-matching step, the cleanup) may fail without making it false.  It
    fails to return only while the sequential-fill loop is still running,
    which is never the case when the beat table loads with the sync flag
    set. *)
Theorem assembly_result {T : Type} `{Number T} {Clip Video : Type}
    (tools : Tools T Clip Video) (fuel : nat) (video_clips : list Clip)
    (sync_to_beat : bool) (l : list log_entry) :
  leb (of_Z 0) (of_Z 0) = true ->
  assembly_contract tools fuel video_clips sync_to_beat
    (create_mv_from_clips tools fuel video_clips sync_to_beat l).
Proof.
  intros Hzero. unfold assembly_contract.
  set (P := audio_exists tools = true
            /\ (exists a, probe_audio tools = Done a /\ leb a (of_Z 0) = false)
            /\ rendered_and_muxed tools).
  set (D := (exists clip_durations audio_duration,
                plan_sequential video_clips clip_durations audio_duration fuel
                = Diverge)
            /\ ~ (sync_to_beat = true /\ beat_table_loads tools)).
  unfold create_mv_from_clips.
  match goal with
  | |- context [try_except ?b Exception ?h l] =>
      set (body := b); assert (ends_well P D (body l)) as Hbody
  end.
  2: { unfold try_except, ends_well in *.
       destruct (body l) as [[[] | e |] l']; cbn.
       - destruct Hbody as [(? & ? & ?) ?]. auto.
       - exact Hbody.
       - apply last_level_snoc.
       - exact Hbody. }
  subst body.
  unfold bind at 1, log_callback at 1.
  set (l1 := write_log (LogEntry INFO "MV生成を開始") l).
  destruct (audio_exists tools) eqn:Haudio; cbn [negb];
    [| cbn; apply last_level_snoc].
  unfold bind at 1, try_except at 1.
  assert ((exists a, run (probe_audio tools) l1 = (Return a, l1)
                     /\ probe_audio tools = Done a)
          \/ (exists e, run (probe_audio tools) l1 = (Raise e, l1)))
    as Hprobe.
  { destruct (probe_audio tools) as [a | e]; cbn; eauto. }
  destruct Hprobe as [[a [-> Ha]] | [e ->]].
  2: { cbn. rewrite Hzero. cbn. apply last_level_snoc. }
  destruct (leb a (of_Z 0)) eqn:Hpos; [cbn; apply last_level_snoc |].
  unfold bind at 1.
  destruct (mkdir_temp tools) as [[] | e]; cbn [run ret lift]; [| exact I].
  unfold bind at 1.
  assert (exists beat l2,
             (if sync_to_beat
              then
                let* loaded := load_beat_data (beat_csv tools) in
                match loaded with
                | Some d =>
                    let* _ := log_callback "ビートデータを読み込みました" INFO in
                    ret (Some d)
                | None =>
                    let* _ := log_callback
                      "ビートデータが見つかりません。通常の結合を行います。" WARNING in
                    ret None
                end
              else ret None) l1 = (Return beat, l2)
             /\ (beat = None \/ (sync_to_beat = true /\ beat_table_loads tools))
             /\ (beat = None -> ~ (sync_to_beat = true /\ beat_table_loads tools)))
    as (beat & l2 & -> & Hbeat & Hnone).
  { destruct sync_to_beat.
    - unfold bind at 1.
      destruct (load_beat_data_returns (beat_csv tools) l1) as (r & w' & E).
      rewrite E. destruct r as [d |]; cbn.
      + do 2 eexists. split; [reflexivity |]. split; [| discriminate].
        right. split; [reflexivity |].
        apply load_beat_data_some in E. exact E.
      + do 2 eexists. split; [reflexivity |]. split; [left; reflexivity |].
        intros _ [_ (df & bt & Hcsv & Hcol)].
        revert E. unfold load_beat_data, try_except, bind, run, ret, lift.
        rewrite Hcsv. cbn. rewrite Hcol.
        destruct bt as [| t0 [| t1 rest]]; cbn; discriminate.
    - do 2 eexists. split; [reflexivity |]. split; [left; reflexivity |].
      intros _ [Hs _]. discriminate. }
  unfold bind at 1.
  destruct (probe_clips_returns tools video_clips l2) as [ds ->].
  unfold bind at 1.
  assert (forall p l3, ends_well P D (assemble tools p a l3)) as Hassemble.
  { intros p l3. pose proof (assemble_outcome tools p a l3) as Hout.
    unfold ends_well in *.
    destruct (assemble tools p a l3) as [[[] | e |] l']; auto.
    - destruct Hout as [Hr Hl]. split; [| exact Hl].
      split; [reflexivity |]. split; [exists a; split; [exact Ha | exact Hpos] | exact Hr].
    - destruct Hout. }
  destruct beat as [d |].
  - destruct Hbeat as [? | Hloaded]; [discriminate |].
    unfold bind at 1, lift at 1.
    pose proof (plan_beat_sync_comes_back video_clips ds a (beat_times d)) as Hback.
    destruct (plan_beat_sync video_clips ds a (beat_times d)) as [p | e |];
      [| exact I | congruence].
    unfold bind at 1, log_callback at 1. apply Hassemble.
  - unfold bind at 1, lift at 1.
    destruct (plan_sequential video_clips ds a fuel) as [p | e |] eqn:Hplan;
      [| exact I |].
    + unfold bind at 1, log_callback at 1. apply Hassemble.
    + split; [exists ds, a; exact Hplan | apply Hnone; reflexivity].
Qed.

Lemma assembly_result_witness :
  assembly_contract
    (ideal_tool 65.0%float None (fun c : nat => nth c scenario_A_durations 0.0%float))
    5 scenario_A_clips false
    (create_mv_from_clips
       (ideal_tool 65.0%float None
          (fun c : nat => nth c scenario_A_durations 0.0%float))
       5 scenario_A_clips false []).
Proof.
  apply (assembly_result
           (ideal_tool 65.0%float None
              (fun c : nat => nth c scenario_A_durations 0.0%float))
           5 scenario_A_clips false []).
  reflexivity.
Defined.

(** ** Unsupported files in the audio intake folder *)

(** A path gets into [processed_files] only past the extension checks. *)
Lemma on_created_processed (ev : event) (w : watcher) (p : path) :
  p ∈ processed_files (snd (on_created ev w)) ->
  p ∈ processed_files w \/ ~ unsupported_audio p.
Proof.
  unfold on_created, try_except, bind, already_processed, on_disk,
    mark_processed, start_thread, log_callback, ret, unsupported_audio.
  destruct (is_directory ev); cbn; [auto |].
  destruct (bool_decide (src_path ev ∈ processed_files w)); cbn; [auto |].
  destruct (bool_decide (is_Some (disk w !! src_path ev))); cbn; [| auto].
  destruct (bool_decide (path_name (path_parent (src_path ev)) = audio_input_folder))
    eqn:Haudio; cbn.
  - destruct (bool_decide (lower (path_suffix (src_path ev)) ∈ valid_audio_extensions))
      eqn:Hext; cbn; [| auto].
    apply bool_decide_eq_true in Hext.
    destruct (bool_decide (path_name (path_parent (src_path ev)) = video_input_folder)
              && negb (bool_decide (lower (path_suffix (src_path ev))
                                      ∈ valid_video_extensions))); cbn; [auto |].
    intros [->%elem_of_singleton | Hin]%elem_of_union; [| auto].
    right. intros [_ Hno]. exact (Hno Hext).
  - apply bool_decide_eq_false in Haudio.
    destruct (bool_decide (path_name (path_parent (src_path ev)) = video_input_folder)
              && negb (bool_decide (lower (path_suffix (src_path ev))
                                      ∈ valid_video_extensions))); cbn; [auto |].
    assert (p ∈ {[src_path ev]} ∪ processed_files w ->
            p ∈ processed_files w
            \/ ~ (path_name (path_parent p) = audio_input_folder
                  /\ lower (path_suffix p) ∉ valid_audio_extensions))
      as Hcase.
    { intros [->%elem_of_singleton | Hin]%elem_of_union; [| auto].
      right. intros [Hp _]. exact (Haudio Hp). }
    repeat match goal with
           | |- context [if ?b then _ else _] => destruct b; cbn
           end; exact Hcase.
Qed.

Lemma reachable_supported (seen : gset path) :
  reachable seen -> forall p, p ∈ seen -> ~ unsupported_audio p.
Proof.
  induction 1 as [| seen ev fs l ts Hreach IH]; intros p Hp.
  - apply not_elem_of_empty in Hp. destruct Hp.
  - apply on_created_processed in Hp. cbn [processed_files] in Hp.
    destruct Hp as [Hp | Hp]; [apply IH, Hp | exact Hp].
Qed.

(** C10.  In any state a watcher instance can be in, whatever the disk, the
    log and the started threads: an event for a file (not a directory) that is
    on the disk after the wait, lies in the audio intake folder and has an
    extension outside the audio allow-list is answered with exactly one new
    log entry, of level ERROR.  No thread is started, so no analysis runs; the
    disk is as before, so the file stays at its path; and the set of processed
    paths is as before, so nothing moves to another stage. *)
Theorem unsupported_audio_is_rejected (seen : gset path) (ev : event)
    (fs : gmap path node) (l : list log_entry) (ts : list (job * path)) :
  reachable seen ->
  is_directory ev = false ->
  is_Some (fs !! src_path ev) ->
  unsupported_audio (src_path ev) ->
  exists msg,
    on_created ev (Watcher fs l seen ts)
    = (Return tt, Watcher fs (l ++ [LogEntry ERROR msg]) seen ts).
Proof.
  intros Hreach Hfile Hdisk Hbad.
  pose proof (reachable_supported seen Hreach (src_path ev)) as Hnew.
  destruct Hbad as [Hfolder Hext].
  unfold on_created, try_except, bind, already_processed, on_disk,
    log_callback, ret.
  rewrite Hfile. cbn.
  rewrite bool_decide_eq_false_2
    by (intros Hin; apply (Hnew Hin); split; assumption).
  rewrite (bool_decide_eq_true_2 _ Hdisk). cbn.
  rewrite (bool_decide_eq_true_2 _ Hfolder).
  rewrite (bool_decide_eq_false_2 _ Hext). cbn.
  eexists. reflexivity.
Qed.

Lemma unsupported_audio_is_rejected_witness :
  exists msg,
    on_created (Event false ["C:"; "MVAI"; audio_input_folder; "notes.TXT"])
      (Watcher {[ ["C:"; "MVAI"; audio_input_folder; "notes.TXT"] := File "text" ]}
         [] ∅ [])
    = (Return tt,
       Watcher {[ ["C:"; "MVAI"; audio_input_folder; "notes.TXT"] := File "text" ]}
         ([] ++ [LogEntry ERROR msg]) ∅ []).
Proof.
  apply (unsupported_audio_is_rejected ∅
           (Event false ["C:"; "MVAI"; audio_input_folder; "notes.TXT"])).
  - apply reachable_init.
  - reflexivity.
  - cbn [src_path]. rewrite lookup_singleton_eq. eexists. reflexivity.
  - split; [reflexivity |].
    apply (bool_decide_unpack _). vm_compute. exact I.
Defined.

(** ** Names for new files *)

Lemma string_app_length (a b : string) :
  String.length (a +:+ b) = (String.length a + String.length b)%nat.
Proof.
  induction a as [| c a IH]; [reflexivity |].
  change (String c a +:+ b) with (String c (a +:+ b)).
  cbn [String.length]. rewrite IH. reflexivity.
Qed.

Lemma string_app_inv_tail (a b t : string) : a +:+ t = b +:+ t -> a = b.
Proof.
  revert b. induction a as [| c a IH]; intros [| d b] E.
  - reflexivity.
  - change (t = String d (b +:+ t)) in E.
    pose proof (f_equal String.length E) as L. cbn [String.length] in L.
    rewrite string_app_length in L. lia.
  - change (String c (a +:+ t) = t) in E.
    pose proof (f_equal String.length E) as L. cbn [String.length] in L.
    rewrite string_app_length in L. lia.
  - change (String c (a +:+ t) = String d (b +:+ t)) in E.
    injection E as -> E. f_equal. apply IH, E.
Qed.

Lemma numbered_inj (stem_ suffix_ : string) (i j : nat) :
  numbered stem_ i suffix_ = numbered stem_ j suffix_ -> i = j.
Proof.
  unfold numbered. intros E.
  apply (inj (String.app stem_)) in E.
  apply (inj (String.app "(")) in E.
  apply string_app_inv_tail in E.
  apply (inj pretty) in E. exact E.
Qed.

Lemma candidate_inj (dir : path) (stem_ suffix_ : string) (i j : nat) :
  joinpath dir (numbered stem_ i suffix_) = joinpath dir (numbered stem_ j suffix_) ->
  i = j.
Proof.
  unfold joinpath. intros E. apply app_inv_head in E.
  injection E as E. apply numbered_inj in E. exact E.
Qed.

Section FreeName.
Lemma path_exists_eq (p : path) (w : world) :
  path_exists p w = (Return (bool_decide (is_Some (files w !! p))), w).
Proof. reflexivity. Qed.

Lemma free_name_step (fuel : nat) (candidate : nat -> path) (p : path)
    (counter : nat) (w : world) :
  free_name fuel candidate p counter w
  = if bool_decide (is_Some (files w !! p)) then
      match fuel with
      | O => (Diverge, w)
      | S fuel' => free_name fuel' candidate (candidate counter) (S counter) w
      end
    else (Return p, w).
Proof.
  destruct fuel; cbn [free_name]; unfold bind; rewrite path_exists_eq;
    destruct (bool_decide (is_Some (files w !! p))); reflexivity.
Qed.

(** The search leaves the world as it is; it ends on a free path, or is cut
    off with every candidate it looked at taken. *)
Lemma free_name_outcome (fuel : nat) (candidate : nat -> path) :
  forall (p : path) (counter : nat) (w : world),
    (exists q, free_name fuel candidate p counter w = (Return q, w)
               /\ files w !! q = None)
    \/ (free_name fuel candidate p counter w = (Diverge, w)
        /\ is_Some (files w !! p)
        /\ forall i, (counter <= i < counter + fuel)%nat ->
                     is_Some (files w !! candidate i)).
Proof.
  induction fuel as [| fuel IH]; intros p counter w;
    rewrite free_name_step;
    destruct (bool_decide (is_Some (files w !! p))) eqn:E.
  - apply bool_decide_eq_true in E. right.
    split; [reflexivity |]. split; [exact E |]. intros i Hi. lia.
  - apply bool_decide_eq_false in E. left. exists p.
    split; [reflexivity |]. apply eq_None_not_Some, E.
  - apply bool_decide_eq_true in E.
    destruct (IH (candidate counter) (S counter) w)
      as [(q & Hq & Hfree) | (Hdiv & Hfirst & Hall)].
    + left. exists q. auto.
    + right. split; [exact Hdiv |]. split; [exact E |]. intros i Hi.
      destruct (decide (i = counter)) as [-> | Hne]; [exact Hfirst |].
      apply Hall. lia.
  - apply bool_decide_eq_false in E. left. exists p.
    split; [reflexivity |]. apply eq_None_not_Some, E.
Qed.

(** The path found is the first one or one of the candidates. *)
Lemma free_name_shape (P : path -> Prop) (fuel : nat) (candidate : nat -> path) :
  (forall i, P (candidate i)) ->
  forall (p : path) (counter : nat) (w w' : world) (q : path),
    P p -> free_name fuel candidate p counter w = (Return q, w') -> P q.
Proof.
  intros Hcand. induction fuel as [| fuel IH]; intros p counter w w' q Hp;
    rewrite free_name_step;
    destruct (bool_decide (is_Some (files w !! p))); try discriminate.
  - intros [= <- _]. exact Hp.
  - apply IH, Hcand.
  - intros [= <- _]. exact Hp.
Qed.

(** With more passes allowed than there are entries on the disk, and
    candidates that differ from one another, the search ends. *)
Lemma free_name_returns (fuel : nat) (candidate : nat -> path) (p : path)
    (counter : nat) (w : world) :
  (forall i j, candidate i = candidate j -> i = j) ->
  (size (files w) < fuel)%nat ->
  exists q, free_name fuel candidate p counter w = (Return q, w)
            /\ files w !! q = None.
Proof.
  intros Hinj Hfuel.
  destruct (free_name_outcome fuel candidate p counter w)
    as [Hq | (_ & _ & Hall)]; [exact Hq | exfalso].
  assert (NoDup (candidate <$> seq counter fuel)) as Hnodup.
  { apply NoDup_fmap_2_strong; [| apply NoDup_seq].
    intros i j _ _ E. apply Hinj, E. }
  assert ((list_to_set (candidate <$> seq counter fuel) : gset path)
          ⊆ dom (files w)) as Hsub.
  { intros q Hq. apply elem_of_list_to_set, list_elem_of_fmap in Hq.
    destruct Hq as (i & -> & Hi). apply elem_of_seq in Hi.
    apply elem_of_dom, Hall. lia. }
  apply subseteq_size in Hsub.
  rewrite size_list_to_set, length_fmap, length_seq, size_dom in Hsub
    by exact Hnodup.
  lia.
Qed.
End FreeName.

(** ** Finalizing a video that lives in an archive *)

Section FinalizeArchived.
Variable dir_size : N.
Variable refuses : io_op -> bool.
Context {Probe : Type}.
Variable final_assets_dir lipsync_video_dir : path.
Variable probe : path -> tool_result Probe.
Variable metadata_xml : Probe -> string -> string -> string.

Lemma st_size_file (p : path) (data : string) (w : world) :
  files w !! p = Some (File data) ->
  st_size dir_size p w = (Return (N.of_nat (String.length data)), w).
Proof.
  intros E. unfold st_size, bind, lookup_node, ret. rewrite E. reflexivity.
Qed.

Lemma mkdir_fresh (p : path) (w : world) :
  files w !! p = None ->
  mkdir refuses p w
  = if refuses (OpMkdir p) then (Raise OSError, w)
    else (Return tt, World (<[p := Dir]> (files w)) (log w)).
Proof.
  intros E. unfold mkdir, bind, lookup_node, ret, lift, set_files. rewrite E.
  destruct (refuses (OpMkdir p)); reflexivity.
Qed.

Lemma copy2_file (src dst : path) (data : string) (w : world) :
  files w !! src = Some (File data) ->
  copy2 refuses src dst w
  = if refuses (OpCopy src dst) then (Raise OSError, w)
    else (Return tt, World (<[dst := File data]> (files w)) (log w)).
Proof.
  intros E. unfold copy2, bind, lookup_node, ret, lift, set_files. rewrite E.
  destruct (refuses (OpCopy src dst)); reflexivity.
Qed.

Lemma write_file_eq (p : path) (data : string) (w : world) :
  write_file refuses p data w
  = if refuses (OpWrite p) then (Raise OSError, w)
    else (Return tt, World (<[p := File data]> (files w)) (log w)).
Proof.
  unfold write_file, lift, set_files.
  destruct (refuses (OpWrite p)); reflexivity.
Qed.

Lemma preserved_refl (fs : gmap path node) : preserved fs fs.
Proof. intros p n Hp. exact Hp. Qed.

Lemma preserved_insert (fs fs' : gmap path node) (q : path) (n : node) :
  preserved fs fs' -> fs' !! q = None -> preserved fs (<[q := n]> fs').
Proof.
  intros Hpre Hq p m Hp. rewrite lookup_insert_ne; [apply Hpre, Hp |].
  intros ->. apply Hpre in Hp. congruence.
Qed.

Lemma place_video_archived (fuel : nat) (file_path dest : path) (data : string)
    (w : world) :
  used_folder ∈ file_path ->
  files w !! file_path = Some (File data) ->
  place_video refuses lipsync_video_dir fuel file_path dest w
  = if refuses (OpCopy file_path dest) then
      (Return false,
       write_log (LogEntry ERROR "ファイル移動に失敗しました") w)
    else
      (Return true,
       write_log (LogEntry INFO "動画ファイルをコピーしました")
         (World (<[dest := File data]> (files w)) (log w))).
Proof.
  intros Hused Hfile. unfold place_video, try_except.
  rewrite (bool_decide_eq_true_2 _ Hused).
  unfold bind at 1. rewrite (copy2_file _ _ data) by exact Hfile.
  destruct (refuses (OpCopy file_path dest)); reflexivity.
Qed.

Lemma write_metadata_preserves (fuel : nat) (pr : Probe)
    (set_folder file_path dest : path) (w : world) :
  (size (files w) < fuel)%nat ->
  exists w',
    write_metadata refuses metadata_xml fuel pr set_folder file_path dest w
    = (Return tt, w')
    /\ preserved (files w) (files w').
Proof.
  intros Hfuel. unfold write_metadata, bind at 1.
  destruct (free_name_returns fuel
              (fun counter =>
                 joinpath set_folder
                   (numbered (path_stem file_path +:+ "_metadata") counter ".xml"))
              (joinpath set_folder (path_stem file_path +:+ "_metadata.xml")) 1 w)
    as (xml_path & -> & Hfree); [apply candidate_inj | exact Hfuel |].
  unfold try_except, bind. rewrite write_file_eq.
  destruct (refuses (OpWrite xml_path)); cbn.
  - eexists. split; [reflexivity |]. apply preserved_refl.
  - eexists. split; [reflexivity |]. cbn.
    apply preserved_insert; [apply preserved_refl | exact Hfree].
Qed.

(** C9.  A video whose path has a "used" archive folder among its parts, and
    that is on the disk: whatever the operating system refuses and whatever
    the probe answers, the finalize stage returns (given more passes for its
    name searches than the disk has entries, plus two), and every entry the
    disk had is still there unchanged; in particular the original is still
    at its archive path with its content, so it was not moved.  When the
    file is not empty, the probe succeeds and nothing is refused, a copy
    with the same content is in a folder under the final-assets folder, at
    a path that was free before. *)
Theorem archived_original_is_copied (fuel : nat) (file_path : path)
    (data : string) (w : world) :
  used_folder ∈ file_path ->
  files w !! file_path = Some (File data) ->
  (size (files w) + 2 < fuel)%nat ->
  exists w',
    finalize_assets dir_size refuses final_assets_dir lipsync_video_dir probe
      metadata_xml fuel file_path w = (Return tt, w')
    /\ files w' !! file_path = Some (File data)
    /\ preserved (files w) (files w')
    /\ (data <> "" ->
        (exists pr, probe file_path = Done pr) ->
        (forall op, refuses op = false) ->
        exists set_name file_name,
          files w !! joinpath (joinpath final_assets_dir set_name) file_name
          = None
          /\ files w' !! joinpath (joinpath final_assets_dir set_name) file_name
             = Some (File data)).
Proof.
  intros Hused Hfile Hfuel.
  assert (forall o w',
             (o = Return tt \/ exists e, o = Raise e) ->
             preserved (files w) (files w') ->
             (o = Return tt ->
              data <> "" ->
              (exists pr, probe file_path = Done pr) ->
              (forall op, refuses op = false) ->
              exists set_name file_name,
                files w !! joinpath (joinpath final_assets_dir set_name) file_name
                = None
                /\ files w' !! joinpath (joinpath final_assets_dir set_name)
                                file_name = Some (File data)) ->
             (o <> Return tt ->
              ~ (data <> "" /\ (exists pr, probe file_path = Done pr)
                 /\ forall op, refuses op = false)) ->
             exists w'',
               (match o with
                | Raise e =>
                    if Exception e
                    then log_callback "最終処理エラー" ERROR w'
                    else (Raise e, w')
                | r => (r, w')
                end) = (Return tt, w'')
               /\ files w'' !! file_path = Some (File data)
               /\ preserved (files w) (files w'')
               /\ (data <> "" ->
                   (exists pr, probe file_path = Done pr) ->
                   (forall op, refuses op = false) ->
                   exists set_name file_name,
                     files w !! joinpath (joinpath final_assets_dir set_name)
                                 file_name = None
                     /\ files w'' !! joinpath (joinpath final_assets_dir set_name)
                                      file_name = Some (File data)))
    as Hwrap.
  { intros o w' [-> | [e ->]] Hpre Hok Hbad.
    - exists w'. split; [reflexivity |]. split; [apply Hpre, Hfile |].
      split; [exact Hpre |]. apply Hok. reflexivity.
    - eexists. split; [reflexivity |]. cbn.
      split; [apply Hpre, Hfile |]. split; [exact Hpre |].
      intros H1 H2 H3. exfalso. apply Hbad; [discriminate | auto]. }
  unfold finalize_assets, try_except at 1.
  match goal with
  | |- context [let (o, s') := ?b w in _] =>
      assert (exists o w', b w = (o, w')
                /\ (o = Return tt \/ exists e, o = Raise e)
                /\ preserved (files w) (files w')
                /\ (o = Return tt ->
                    data <> "" ->
                    (exists pr, probe file_path = Done pr) ->
                    (forall op, refuses op = false) ->
                    exists set_name file_name,
                      files w !! joinpath (joinpath final_assets_dir set_name)
                                  file_name = None
                      /\ files w' !! joinpath (joinpath final_assets_dir set_name)
                                      file_name = Some (File data))
                /\ (o <> Return tt ->
                    ~ (data <> "" /\ (exists pr, probe file_path = Done pr)
                       /\ forall op, refuses op = false)))
        as (o & w' & -> & Ho & Hpre & Hok & Hbad)
  end.
  2: { destruct (Hwrap o w' Ho Hpre Hok Hbad) as (w'' & E & ?).
       exists w''. split; [| assumption].
       destruct o as [[] | e |]; exact E. }
  clear Hwrap.
  unfold bind at 1. rewrite path_exists_eq.
  rewrite bool_decide_eq_true_2 by eauto. cbn [negb].
  unfold bind at 1. rewrite (st_size_file _ data) by exact Hfile.
  destruct (N.of_nat (String.length data) =? 0)%N eqn:Hsize.
  { do 2 eexists. split; [reflexivity |]. split; [left; reflexivity |].
    split; [apply preserved_refl |]. split; [| intros Hne; congruence].
    intros _ Hdata. exfalso. apply Hdata.
    apply N.eqb_eq in Hsize. destruct data; [reflexivity | discriminate]. }
  unfold bind at 1, log_callback at 1.
  set (w1 := write_log (LogEntry INFO "最終処理を開始") w).
  unfold bind at 1, try_except at 1, bind at 1.
  destruct (probe file_path) as [pr | e] eqn:Hprobe; cbn [run ret lift].
  2: { do 2 eexists. split; [reflexivity |]. split; [left; reflexivity |].
       split; [apply preserved_refl |]. split; [| intros Hne; congruence].
       intros _ _ [pr' Hpr]. discriminate. }
  cbn [Exception].
  unfold bind at 1.
  destruct (free_name_returns fuel
              (fun counter =>
                 joinpath final_assets_dir
                   (numbered (path_stem file_path) counter ""))
              (joinpath final_assets_dir (path_stem file_path)) 1 w1)
    as (set_folder & Eset & Hset); [apply candidate_inj | cbn; lia |].
  assert (exists set_name, set_folder = joinpath final_assets_dir set_name)
    as [set_name Hset_name].
  { eapply (free_name_shape
              (fun q => exists nm, q = joinpath final_assets_dir nm));
      [| | exact Eset]; cbn; eauto. }
  rewrite Eset.
  unfold bind at 1. rewrite mkdir_fresh by exact Hset.
  destruct (refuses (OpMkdir set_folder)) eqn:Hmk.
  { do 2 eexists. split; [reflexivity |]. split; [right; eauto |].
    split; [apply preserved_refl |]. split; [discriminate |].
    intros _ (_ & _ & Hall). rewrite Hall in Hmk. discriminate. }
  unfold bind at 1, log_callback at 1.
  set (w2 := write_log (LogEntry INFO "セットフォルダを作成しました")
               (World (<[set_folder := Dir]> (files w1)) (log w1))).
  assert (files w2 = <[set_folder := Dir]> (files w)) as Hw2 by reflexivity.
  unfold bind at 1.
  destruct (free_name_returns fuel
              (fun counter =>
                 joinpath set_folder
                   (numbered (path_stem file_path) counter (path_suffix file_path)))
              (joinpath set_folder (path_name file_path)) 1 w2)
    as (dest & Edest & Hdest).
  { apply candidate_inj. }
  { rewrite Hw2, map_size_insert_None by exact Hset. lia. }
  assert (exists file_name, dest = joinpath set_folder file_name)
    as [file_name Hdest_name].
  { eapply (free_name_shape
              (fun q => exists nm, q = joinpath set_folder nm));
      [| | exact Edest]; cbn; eauto. }
  rewrite Edest.
  rewrite Hw2 in Hdest. apply lookup_insert_None in Hdest as [Hdest_free Hdest_ne].
  assert (files w2 !! file_path = Some (File data)) as Hfile2.
  { rewrite Hw2, lookup_insert_ne; [exact Hfile |].
    intros ->. change (files w1) with (files w) in Hset. congruence. }
  unfold bind at 1.
  rewrite (place_video_archived fuel file_path dest data w2 Hused Hfile2).
  destruct (refuses (OpCopy file_path dest)) eqn:Hcp; cbn [negb].
  { do 2 eexists. split; [reflexivity |]. split; [left; reflexivity |].
    split.
    { cbn. apply preserved_insert; [apply preserved_refl | exact Hset]. }
    split; [| intros Hne; congruence].
    intros _ _ _ Hall. rewrite Hall in Hcp. discriminate. }
  set (w3 := write_log (LogEntry INFO "動画ファイルをコピーしました")
               (World (<[dest := File data]> (files w2)) (log w2))).
  assert (files w3 = <[dest := File data]> (<[set_folder := Dir]> (files w)))
    as Hw3 by reflexivity.
  unfold bind at 1.
  destruct (write_metadata_preserves fuel pr set_folder file_path dest w3)
    as (w4 & -> & Hpre4).
  { rewrite Hw3, !map_size_insert_None; [lia | exact Hset |].
    rewrite lookup_insert_ne by exact Hdest_ne.
    exact Hdest_free. }
  unfold log_callback.
  do 2 eexists. split; [reflexivity |]. split; [left; reflexivity |].
  assert (preserved (files w) (files w3)) as Hpre3.
  { rewrite Hw3. apply preserved_insert.
    - apply preserved_insert; [apply preserved_refl | exact Hset].
    - rewrite lookup_insert_ne by exact Hdest_ne.
      exact Hdest_free. }
  split.
  { intros p n Hp. cbn. apply Hpre4, Hpre3, Hp. }
  split; [| intros Hne; congruence].
  intros _ _ _ _. exists set_name, file_name.
  rewrite <- Hset_name, <- Hdest_name.
  split; [exact Hdest_free |].
  cbn. apply Hpre4. rewrite Hw3. apply lookup_insert_eq.
Qed.
End FinalizeArchived.

Lemma archived_original_is_copied_witness :
  exists w',
    finalize_on_mvai 4 archived_clip (World {[ archived_clip := File "video" ]} [])
    = (Return tt, w')
    /\ files w' !! archived_clip = Some (File "video")
    /\ preserved {[ archived_clip := File "video" ]} (files w')
    /\ ("video" <> "" ->
        (exists pr : unit, Done tt = Done pr) ->
        (forall op : io_op, false = false) ->
        exists set_name file_name,
          ({[ archived_clip := File "video" ]} : gmap path node)
            !! joinpath (joinpath mvai_final_assets set_name) file_name = None
          /\ files w' !! joinpath (joinpath mvai_final_assets set_name) file_name
             = Some (File "video")).
Proof.
  refine (archived_original_is_copied 0%N (fun _ => false) mvai_final_assets
            mvai_lipsync (fun _ => Done tt)
            (fun _ file_name original => file_name +:+ original)
            4 archived_clip "video"
            (World {[ archived_clip := File "video" ]} []) _ _ _).
  - apply (bool_decide_unpack _). vm_compute. exact I.
  - apply lookup_singleton_eq.
  - cbn [files]. rewrite map_size_singleton. lia.
Defined.

(** For contrast, a video that is not in an archive is moved: after the
    stage, nothing is left at its path, and it sits in the archive of the
    lip-sync stage and, as a copy, in its set folder. *)
Example fresh_video_is_moved :
  let w' := snd (finalize_on_mvai 4 fresh_clip (World {[ fresh_clip := File "video" ]} [])) in
  files w' !! fresh_clip = None
  /\ files w' !! (mvai_lipsync ++ [used_folder; "clip.mp4"]) = Some (File "video")
  /\ files w' !! (mvai_final_assets ++ ["clip"; "clip.mp4"]) = Some (File "video").
Proof. vm_compute. repeat split; reflexivity. Qed.

(** ** The sequential fill under a first clip as long as the audio *)

(** X1.  In binary64, for every positive audio duration and every pool
    whose first clip lasts at least as long: the sequential fill ends after
    one pass, whatever the other clips are, and the plan is a single segment,
    the first clip from its beginning for exactly the audio duration, placed
    at 0. *)
Theorem long_first_clip_fills_alone {Clip : Type} (c : Clip)
    (more_clips : list Clip) (d : float) (more_durations : list float)
    (audio_duration : float) (fuel : nat) :
  PrimFloat.ltb 0 audio_duration = true ->
  PrimFloat.leb audio_duration d = true ->
  (0 < fuel)%nat ->
  plan_sequential (c :: more_clips) (d :: more_durations) audio_duration fuel
  = Return [Segment c 0%float audio_duration 0%float].
Proof.
  intros Ha Hd Hfuel. destruct fuel as [| fuel]; [lia |].
  unfold plan_sequential. change (of_Z 0) with 0%float.
  cbn [fill_loop].
  change (ltb 0%float audio_duration) with (PrimFloat.ltb 0 audio_duration).
  rewrite Ha. cbn [length py_mod]. rewrite Nat.Div0.mod_0_l.
  cbn [obind py_index nth_error app].
  change (sub audio_duration 0%float) with (audio_duration - 0)%float.
  rewrite float_sub_zero.
  unfold py_min. change (ltb audio_duration d) with (audio_duration <? d)%float.
  rewrite (float_min_of_longer audio_duration d Ha Hd).
  change (add 0%float audio_duration) with (0 + audio_duration)%float.
  rewrite (float_zero_add audio_duration Ha).
  change (of_Z 0) with 0%float.
  destruct fuel; cbn [fill_loop];
    change (ltb audio_duration audio_duration)
      with (audio_duration <? audio_duration)%float;
    rewrite float_ltb_irrefl; reflexivity.
Qed.

(** A 70 s clip, then a 5 s clip, under 65 s of audio. *)
Lemma long_first_clip_fills_alone_witness :
  plan_sequential ["a"; "b"] [70.0; 5.0]%float 65.0%float 1
  = Return [Segment "a" 0%float 65.0%float 0%float].
Proof.
  apply long_first_clip_fills_alone; [reflexivity | reflexivity | lia].
Defined.

(** ** The round robin on a strictly increasing grid *)

Lemma advances_on_increasing_grid (audio_duration : Q) (beat_times : list Q) :
  StronglySorted Qlt beat_times ->
  forall k, (k < window_count beat_times)%nat ->
            advances_before audio_duration beat_times k = k.
Proof.
  intros Hincr. induction k as [| k IH]; intros Hk; [reflexivity |].
  cbn [advances_before]. rewrite IH by lia.
  assert (degenerate audio_duration beat_times k = false) as ->; [| lia].
  apply Q_leb_false.
  pose proof (window_count_bound (length beat_times) (S k) Hk) as Hb.
  unfold window_duration, window_start, window_stop, window_at. cbn [fst snd].
  destruct (Nat.ltb_spec (4 * k + 4) (length beat_times)) as [Hn | Hn]; [| lia].
  pose proof (StronglySorted_nth Qlt beat_times (of_Z 0) Hincr (4 * k) (4 * k + 4)
                ltac:(lia)) as Hlt.
  change (of_Z 0) with 0%Q in *. change (sub ?x ?y) with (x - y)%Q. lra.
Qed.

(** X2.  On a strictly increasing beat grid, with a pool that is not empty, in
    exact arithmetic: every segment of the beat-synced plan that comes from
    window [k] is on the clip at position [k mod len(clips)] and is placed at
    the start of the window.  (Only the last window can be degenerate there,
    and no window follows it.) *)
Theorem round_robin_on_increasing_grid {Clip : Type} (video_clips : list Clip)
    (clip_durations : list Q) (audio_duration : Q) (beat_times : list Q) :
  video_clips <> [] ->
  length clip_durations = length video_clips ->
  StronglySorted Qlt beat_times ->
  plan_beat_sync video_clips clip_durations audio_duration beat_times
  = Return (concat (map (segment_of_window video_clips clip_durations
                           audio_duration beat_times)
                      (seq 0 (window_count beat_times))))
  /\ forall k s,
      (k < window_count beat_times)%nat ->
      In s (segment_of_window video_clips clip_durations audio_duration
              beat_times k) ->
      nth_error video_clips (k mod length video_clips) = Some (clip s)
      /\ output_start s = window_start audio_duration beat_times k.
Proof.
  intros Hpool Hlen Hincr. split.
  - unfold plan_beat_sync. rewrite py_range_windows.
    rewrite beat_loop_windows by auto. reflexivity.
  - intros k s Hk. unfold segment_of_window.
    rewrite (advances_on_increasing_grid audio_duration beat_times Hincr k Hk).
    destruct (degenerate audio_duration beat_times k); [intros [] |].
    destruct (nth_error video_clips (k mod length video_clips)) as [c |];
      [| intros []].
    destruct (nth_error clip_durations (k mod length video_clips)) as [d |];
      [| intros []].
    destruct (leb d (of_Z 0)); [intros [] |].
    intros [<- | []]. split; reflexivity.
Qed.

Lemma round_robin_on_increasing_grid_witness :
  plan_beat_sync scenario_B_clips scenario_B_durations_Q (9 # 2)%Q
    scenario_B_beats_Q
  = Return (concat (map (segment_of_window scenario_B_clips scenario_B_durations_Q
                           (9 # 2)%Q scenario_B_beats_Q)
                      (seq 0 (window_count scenario_B_beats_Q))))
  /\ forall k s,
      (k < window_count scenario_B_beats_Q)%nat ->
      In s (segment_of_window scenario_B_clips scenario_B_durations_Q (9 # 2)%Q
              scenario_B_beats_Q k) ->
      nth_error scenario_B_clips (k mod length scenario_B_clips) = Some (clip s)
      /\ output_start s = window_start (9 # 2)%Q scenario_B_beats_Q k.
Proof.
  apply (round_robin_on_increasing_grid scenario_B_clips scenario_B_durations_Q
           (9 # 2)%Q scenario_B_beats_Q).
  - discriminate.
  - reflexivity.
  - repeat constructor; unfold Qlt; cbn; lia.
Defined.

(** * Further properties of the code *)

(** ** The session log keeps the newest hundred entries *)

Lemma py_tail_short {A : Type} (n : nat) (l : list A) :
  (length l <= n)%nat -> py_tail n l = l.
Proof.
  intros Hlen. unfold py_tail.
  replace (length l - n)%nat with 0%nat by lia. reflexivity.
Qed.

Lemma py_tail_length {A : Type} (n : nat) (l : list A) :
  length (py_tail n l) = Nat.min n (length l).
Proof. unfold py_tail. rewrite length_drop. lia. Qed.

Lemma py_tail_app {A : Type} (n : nat) (a b : list A) :
  py_tail n (py_tail n a ++ b) = py_tail n (a ++ b).
Proof.
  unfold py_tail at 2.
  rewrite <- (drop_app_le a b) by lia.
  unfold py_tail. rewrite drop_drop. f_equal.
  rewrite length_drop, !length_app. lia.
Qed.

Lemma add_log_tail (now msg : string) (ty : log_level) (l : list session_entry) :
  add_log now msg ty l = py_tail 100 (l ++ [SessionEntry now (LogEntry ty msg)]).
Proof.
  unfold add_log.
  destruct (100 <? length (l ++ [SessionEntry now (LogEntry ty msg)]))%nat eqn:E;
    [reflexivity |].
  apply Nat.ltb_ge in E. symmetry. apply py_tail_short, E.
Qed.

Lemma add_log_foldl (calls : list session_entry) :
  forall l : list session_entry,
    foldl (fun processing_logs e =>
             add_log (timestamp e) (message (logged e)) (level (logged e))
               processing_logs)
      (py_tail 100 l) calls
    = py_tail 100 (l ++ calls).
Proof.
  induction calls as [| e calls IH]; intros l.
  - rewrite app_nil_r. reflexivity.
  - cbn [foldl]. rewrite add_log_tail, py_tail_app.
    destruct e as [now [ty msg]]. cbn [timestamp logged message level].
    rewrite IH, <- app_assoc. reflexivity.
Qed.

(** X3.  However many entries are logged in a session, the session log is
    the last hundred of them (all of them, while there are no more than a
    hundred), in the order they were logged; so it never holds more than a
    hundred entries, and the newest entry is never the one dropped. *)
Theorem session_log_keeps_newest (calls : list session_entry) :
  session_log calls = py_tail 100 calls
  /\ length (session_log calls) = Nat.min 100 (length calls).
Proof.
  assert (session_log calls = py_tail 100 calls) as E.
  { unfold session_log. change [] with (py_tail 100 (@nil session_entry)) at 1.
    rewrite add_log_foldl. reflexivity. }
  split; [exact E |]. rewrite E. apply py_tail_length.
Qed.

(** ** Runs of the watcher *)

Lemma on_created_step (ev : event) (w : watcher) :
  (processed_files (snd (on_created ev w)) = processed_files w
   /\ threads (snd (on_created ev w)) = threads w)
  \/ ((src_path ev ∉ processed_files w)
      /\ processed_files (snd (on_created ev w))
         = {[ src_path ev ]} ∪ processed_files w
      /\ (threads (snd (on_created ev w)) = threads w
          \/ exists j,
               threads (snd (on_created ev w)) = threads w ++ [(j, src_path ev)]
               /\ path_name (path_parent (src_path ev)) = stage_folder j
               /\ intake_allowed j (src_path ev))).
Proof.
  unfold on_created, try_except, bind, already_processed, on_disk,
    mark_processed, start_thread, log_callback, ret.
  destruct (is_directory ev); cbn; [auto |].
  repeat match goal with
         | |- context [bool_decide ?P] =>
             let H := fresh "Hd" in destruct (bool_decide P) eqn:H; cbn
         end.
  all: try (left; split; reflexivity).
  all: right; split; [eapply bool_decide_eq_false_1; eassumption |];
       split; [reflexivity |].
  all: try (left; reflexivity).
  all: right; eexists; split; [reflexivity |]; cbn [stage_folder intake_allowed].
  all: split; [eapply bool_decide_eq_true_1; eassumption |].
  all: first [exact I | eapply bool_decide_eq_true_1; eassumption].
Qed.

Lemma handled_threads_recorded (w : watcher) :
  handled w -> Forall (fun t => t.2 ∈ processed_files w) (threads w).
Proof.
  induction 1 as [fs l | w ev Hw IH | w fs l Hw IH].
  - apply Forall_nil_2.
  - destruct (on_created_step ev w)
      as [[Eseen Ethreads] | (Hnew & Eseen & [Ethreads | (j & Ethreads & Hj)])];
      rewrite Ethreads, Eseen; [exact IH | |].
    + eapply Forall_impl; [exact IH |]. intros t Hin. apply elem_of_union_r, Hin.
    + apply Forall_app. split.
      * eapply Forall_impl; [exact IH |]. intros t Hin. apply elem_of_union_r, Hin.
      * apply Forall_singleton, elem_of_union_l, elem_of_singleton. reflexivity.
  - exact IH.
Qed.

(** X4.  Over the life of a handler instance, whatever events arrive and
    however the disk and the log change in between, no path is given to a
    worker thread twice: the paths of the started threads are pairwise
    distinct. *)
Theorem threads_started_once (w : watcher) :
  handled w -> NoDup (threads w).*2.
Proof.
  induction 1 as [fs l | w ev Hw IH | w fs l Hw IH].
  - apply NoDup_nil_2.
  - destruct (on_created_step ev w)
      as [[Eseen Ethreads] | (Hnew & Eseen & [Ethreads | (j & Ethreads & Hj)])];
      rewrite Ethreads; [exact IH | exact IH |].
    rewrite fmap_app. apply NoDup_app. split; [exact IH |].
    split; [| apply NoDup_singleton].
    intros p Hp Hq. cbn in Hq. apply list_elem_of_singleton in Hq as ->.
    apply list_elem_of_fmap in Hp as (t & Et & Ht).
    pose proof (handled_threads_recorded w Hw) as Hrec.
    rewrite Forall_forall in Hrec. apply Hnew. rewrite Et. apply Hrec, Ht.
  - exact IH.
Qed.

Lemma threads_started_once_witness : NoDup (threads twice_notified).*2.
Proof.
  apply (threads_started_once twice_notified).
  apply handled_event, handled_event, handled_new.
Defined.

(** X5.  Over the life of a handler instance, every thread it started is
    on a path it recorded in [processed_files], runs the handler of the stage
    folder the path lies in ([01_曲_Input]: audio analysis, [02_元動画_Sora]:
    frame extraction, [04_AI動画_生成中]: quality pipeline,
    [05_動画_高品質化]: lip-sync, [06_動画_口パク]: finalize), and, for the two
    intake folders, has an extension that is on the folder's allow-list when
    put in lower case. *)
Theorem threads_follow_folders (w : watcher) :
  handled w -> Forall (well_dispatched w) (threads w).
Proof.
  induction 1 as [fs l | w ev Hw IH | w fs l Hw IH].
  - apply Forall_nil_2.
  - assert (forall seen,
               processed_files w ⊆ seen ->
               Forall (fun t => t.2 ∈ seen
                                /\ path_name (path_parent t.2) = stage_folder t.1
                                /\ intake_allowed t.1 t.2) (threads w)) as Hkeep.
    { intros seen Hsub. eapply Forall_impl; [exact IH |].
      intros t (Hin & Hfolder & Hext). split; [apply Hsub, Hin | auto]. }
    destruct (on_created_step ev w)
      as [[Eseen Ethreads] | (Hnew & Eseen & [Ethreads | (j & Ethreads & Hj)])];
      unfold well_dispatched; rewrite Ethreads, Eseen.
    + apply Hkeep. reflexivity.
    + apply Hkeep, union_subseteq_r.
    + apply Forall_app. split; [apply Hkeep, union_subseteq_r |].
      apply Forall_singleton.
      split; [apply elem_of_union_l, elem_of_singleton; reflexivity | exact Hj].
  - exact IH.
Qed.

Lemma threads_follow_folders_witness :
  Forall (well_dispatched twice_notified) (threads twice_notified).
Proof.
  apply (threads_follow_folders twice_notified).
  apply handled_event, handled_event, handled_new.
Defined.

(** The song was notified twice and is analysed once. *)
Example song_notified_twice :
  threads twice_notified = [(process_audio_file, dropped_song)].
Proof. vm_compute. reflexivity. Qed.

(** ** Stage handlers on the disk *)

Lemma try_except_logs (body : M world unit) (msg : string) (lvl : log_level)
    (w w1 : world) (o : outcome unit) :
  body w = (o, w1) ->
  o <> Diverge ->
  exists w2,
    try_except body Exception (fun _ => log_callback msg lvl) w = (Return tt, w2)
    /\ files w2 = files w1.
Proof.
  intros E Ho. unfold try_except. rewrite E.
  destruct o as [[] | e |]; [| | congruence].
  - exists w1. split; reflexivity.
  - eexists. split; reflexivity.
Qed.

Lemma bind_return {A B : Type} (m : M world A) (k : A -> M world B)
    (w w1 : world) (a : A) :
  m w = (Return a, w1) -> bind m k w = k a w1.
Proof. intros E. unfold bind. rewrite E. reflexivity. Qed.

Lemma move_eq (refuses : io_op -> bool) (src dst : path) (w : world) :
  move refuses src dst w
  = match files w !! src with
    | Some nd =>
        if refuses (OpMove src dst) then (Raise OSError, w)
        else (Return tt, World (<[dst := nd]> (delete src (files w))) (log w))
    | None => (Raise OSError, w)
    end.
Proof.
  unfold move, bind, lookup_node, ret, lift, set_files.
  destruct (files w !! src); [| reflexivity].
  destruct (refuses (OpMove src dst)); reflexivity.
Qed.

Lemma copy2_eq (refuses : io_op -> bool) (src dst : path) (w : world) :
  copy2 refuses src dst w
  = match files w !! src with
    | Some (File data) =>
        if refuses (OpCopy src dst) then (Raise OSError, w)
        else (Return tt, World (<[dst := File data]> (files w)) (log w))
    | _ => (Raise OSError, w)
    end.
Proof.
  unfold copy2, bind, lookup_node, ret, lift, set_files.
  destruct (files w !! src) as [[data |] |]; try reflexivity.
  destruct (refuses (OpCopy src dst)); reflexivity.
Qed.

Lemma st_size_eq (dir_size : N) (p : path) (w : world) :
  st_size dir_size p w
  = match files w !! p with
    | Some (File data) => (Return (N.of_nat (String.length data)), w)
    | Some Dir => (Return dir_size, w)
    | None => (Raise OSError, w)
    end.
Proof.
  unfold st_size, bind, lookup_node, ret, lift.
  destruct (files w !! p) as [[data |] |]; reflexivity.
Qed.

Lemma others_preserved_refl (file_path : path) (fs : gmap path node) :
  others_preserved file_path fs fs.
Proof. intros p n _ Hp. exact Hp. Qed.

Lemma others_preserved_insert (file_path q : path) (n : node)
    (fs fs' : gmap path node) :
  others_preserved file_path fs fs' -> fs !! q = None ->
  others_preserved file_path fs (<[q := n]> fs').
Proof.
  intros Hpre Hq p m Hne Hp. rewrite lookup_insert_ne; [apply Hpre; assumption |].
  intros ->. congruence.
Qed.

Lemma others_preserved_delete (file_path : path) (fs fs' : gmap path node) :
  others_preserved file_path fs fs' ->
  others_preserved file_path fs (delete file_path fs').
Proof.
  intros Hpre p m Hne Hp. rewrite lookup_delete_ne by congruence.
  apply Hpre; assumption.
Qed.

Section LipSync.
Variable dir_size : N.
Variable refuses : io_op -> bool.
Variable base_dir : path.

(** X6.  The lip-sync stage, on any disk, for any path and whatever the
    operating system refuses, comes back without an exception (given more
    passes for its name searches than the disk has entries, plus one), and
    what it did to the disk is a [lipsync_effect]: it loses and overwrites
    nothing; it moves the original only after the copy is in the lip-sync
    folder, and never when the original is in a "used" archive; and on a
    non-empty file with nothing refused it does make the copy and archive
    the original. *)
Theorem lipsync_copies_then_archives (fuel : nat) (file_path : path) (w : world) :
  (size (files w) + 1 < fuel)%nat ->
  exists w',
    MediaProcessor.process_lipsync dir_size refuses base_dir fuel file_path w
    = (Return tt, w')
    /\ lipsync_effect refuses base_dir file_path (files w) (files w').
Proof.
  intros Hfuel. unfold MediaProcessor.process_lipsync.
  match goal with
  | |- exists w', try_except ?body _ _ w = _ /\ _ =>
      enough (exists o w1,
                 body w = (o, w1) /\ o <> Diverge
                 /\ lipsync_effect refuses base_dir file_path (files w) (files w1))
        as (o & w1 & E & Ho & Heff)
  end.
  { destruct (try_except_logs _ "リップシンク処理エラー" ERROR w w1 o E Ho)
      as (w2 & E2 & Hfiles).
    exists w2. rewrite E2, Hfiles. auto. }
  assert (forall l,
             (forall data,
                 files w !! file_path = Some (File data) -> data <> "" ->
                 ~ (forall op, refuses op = false)) ->
             lipsync_effect refuses base_dir file_path (files w)
               (files (World (files w) l))) as Hidle.
  { intros l Hno. split; [apply others_preserved_refl |].
    split; [left; reflexivity |].
    intros data Hfile Hdata Hall. destruct (Hno data Hfile Hdata Hall). }
  rewrite (bind_return _ _ w w _ (path_exists_eq file_path w)).
  destruct (files w !! file_path) as [nd |] eqn:Hfile.
  2: { rewrite bool_decide_eq_false_2 by (intros [? ?]; discriminate).
       cbn [negb]. do 2 eexists. split; [reflexivity |].
       split; [discriminate |]. apply Hidle. intros data [=]. }
  rewrite bool_decide_eq_true_2 by eauto. cbn [negb].
  unfold bind at 1. rewrite st_size_eq, Hfile.
  set (size_ := match nd with
                | File data => N.of_nat (String.length data)
                | Dir => dir_size
                end).
  assert ((match nd with
           | File data => (Return (N.of_nat (String.length data)), w)
           | Dir => (Return dir_size, w)
           end) = (Return size_, w)) as -> by (destruct nd; reflexivity).
  destruct (size_ =? 0)%N eqn:Hsize.
  { do 2 eexists. split; [reflexivity |]. split; [discriminate |].
    apply Hidle. intros data [= ->] Hdata. exfalso. apply Hdata.
    apply N.eqb_eq in Hsize. subst size_.
    destruct data; [reflexivity | discriminate]. }
  unfold bind at 1, log_callback at 1.
  set (w1 := write_log (LogEntry INFO "リップシンク処理を開始") w).
  unfold bind at 1.
  destruct (free_name_returns fuel
              (fun counter =>
                 joinpath (MediaProcessor.lipsync_video_dir base_dir)
                   (numbered (path_stem file_path +:+ "_lipsync") counter
                      (path_suffix file_path)))
              (joinpath (MediaProcessor.lipsync_video_dir base_dir)
                 (path_stem file_path +:+ "_lipsync" +:+ path_suffix file_path))
              1 w1)
    as (output_path & Eout & Hout); [apply candidate_inj | cbn; lia |].
  assert (exists nm, output_path
                     = joinpath (MediaProcessor.lipsync_video_dir base_dir) nm)
    as [out_name Hout_name].
  { eapply (free_name_shape
              (fun q => exists nm,
                   q = joinpath (MediaProcessor.lipsync_video_dir base_dir) nm));
      [| | exact Eout]; cbn; eauto. }
  rewrite Eout. change (files w1) with (files w) in Hout.
  unfold try_except at 1, bind at 1. rewrite copy2_eq.
  change (files w1) with (files w). rewrite Hfile.
  destruct nd as [data |].
  2: { do 2 eexists. split; [reflexivity |]. split; [discriminate |].
       apply Hidle. intros data [=]. }
  destruct (refuses (OpCopy file_path output_path)) eqn:Hcopy.
  { do 2 eexists. split; [reflexivity |]. split; [discriminate |].
    apply Hidle. intros _ _ _ Hall. rewrite Hall in Hcopy. discriminate. }
  clear Hidle.
  set (w2 := World (<[output_path := File data]> (files w)) (log w1)).
  assert (output_path <> file_path) as Hne by (intros ->; congruence).
  assert (new_entry (MediaProcessor.lipsync_video_dir base_dir)
            (Some (File data)) (files w) (<[output_path := File data]> (files w)))
    as Hcopied.
  { exists out_name. rewrite <- Hout_name. split; [exact Hout |].
    apply lookup_insert_eq. }
  rewrite (bind_return _ _ w2 w2 _ (path_exists_eq output_path w2)).
  rewrite bool_decide_eq_true_2
    by (cbn [files w2]; rewrite lookup_insert_eq; eauto).
  unfold bind at 1, log_callback at 1.
  set (w3 := write_log (LogEntry SUCCESS "リップシンク処理完了") w2).
  destruct (bool_decide (used_folder ∈ file_path)) eqn:Hused; cbn [negb].
  { apply bool_decide_eq_true in Hused.
    do 2 eexists. split; [reflexivity |]. split; [discriminate |]. cbn.
    split; [apply others_preserved_insert;
            [apply others_preserved_refl | exact Hout] |].
    split; [left; rewrite lookup_insert_ne by exact Hne; reflexivity |].
    intros data' Hd _ _. rewrite Hfile in Hd. injection Hd as <-.
    split; [exact Hcopied | intros Hno; contradiction]. }
  apply bool_decide_eq_false in Hused.
  unfold try_except at 1, bind at 1.
  destruct (free_name_returns fuel
              (fun counter =>
                 joinpath (joinpath (MediaProcessor.hq_video_dir base_dir) used_folder)
                   (numbered (path_stem file_path) counter (path_suffix file_path)))
              (joinpath (joinpath (MediaProcessor.hq_video_dir base_dir) used_folder)
                 (path_name file_path))
              1 w3)
    as (used_path & Eused & Hused_free).
  { apply candidate_inj. }
  { cbn [files w3 w2 write_log world_logging].
    rewrite map_size_insert_None by exact Hout. lia. }
  assert (exists nm, used_path
                     = joinpath (joinpath (MediaProcessor.hq_video_dir base_dir)
                                   used_folder) nm)
    as [used_name Hused_name].
  { eapply (free_name_shape
              (fun q => exists nm,
                   q = joinpath (joinpath (MediaProcessor.hq_video_dir base_dir)
                                   used_folder) nm));
      [| | exact Eused]; cbn; eauto. }
  rewrite Eused.
  change (files w3) with (<[output_path := File data]> (files w)) in Hused_free.
  apply lookup_insert_None in Hused_free as [Hused_free Hused_ne].
  unfold bind at 1. rewrite move_eq.
  change (files w3) with (<[output_path := File data]> (files w)).
  rewrite lookup_insert_ne by exact Hne. rewrite Hfile.
  assert (used_path <> file_path) as Hune by (intros ->; congruence).
  destruct (refuses (OpMove file_path used_path)) eqn:Hmove.
  { do 2 eexists. split; [reflexivity |]. split; [discriminate |]. cbn.
    split; [apply others_preserved_insert;
            [apply others_preserved_refl | exact Hout] |].
    split; [left; rewrite lookup_insert_ne by exact Hne; reflexivity |].
    intros ? _ _ Hall. rewrite Hall in Hmove. discriminate. }
  do 2 eexists. split; [reflexivity |]. split; [discriminate |]. cbn.
  assert ((<[used_path := File data]>
             (delete file_path (<[output_path := File data]> (files w))))
            !! file_path = None) as Hgone.
  { rewrite lookup_insert_ne by exact Hune. apply lookup_delete_eq. }
  split.
  { apply others_preserved_insert; [| exact Hused_free].
    apply others_preserved_delete, others_preserved_insert;
      [apply others_preserved_refl | exact Hout]. }
  split.
  { right. split; [exact Hused |]. split; [exact Hgone |]. rewrite Hfile. split.
    - exists out_name. rewrite <- Hout_name. split; [exact Hout |].
      rewrite lookup_insert_ne by congruence.
      rewrite lookup_delete_ne by congruence. apply lookup_insert_eq.
    - exists used_name. rewrite <- Hused_name. split; [exact Hused_free |].
      apply lookup_insert_eq. }
  intros data' Hd _ _. rewrite Hfile in Hd. injection Hd as <-.
  split; [| intros _; exact Hgone].
  exists out_name. rewrite <- Hout_name. split; [exact Hout |].
  rewrite lookup_insert_ne by congruence.
  rewrite lookup_delete_ne by congruence. apply lookup_insert_eq.
Qed.
End LipSync.

Lemma lipsync_copies_then_archives_witness :
  exists w',
    lipsync_on_mvai 3 hq_clip (World {[ hq_clip := File "video" ]} [])
    = (Return tt, w')
    /\ lipsync_effect (fun _ => false) mvai hq_clip
         {[ hq_clip := File "video" ]} (files w').
Proof.
  refine (lipsync_copies_then_archives 0%N (fun _ => false) mvai 3 hq_clip
            (World {[ hq_clip := File "video" ]} []) _).
  cbn [files]. rewrite map_size_singleton. lia.
Defined.

(** On that disk the copy is [clip_lipsync.mp4] and the original goes to
    the archive under its own name. *)
Example lipsync_on_a_clip :
  let w' := snd (lipsync_on_mvai 3 hq_clip (World {[ hq_clip := File "video" ]} [])) in
  files w' !! hq_clip = None
  /\ files w' !! (MediaProcessor.lipsync_video_dir mvai ++ ["clip_lipsync.mp4"])
     = Some (File "video")
  /\ files w' !! (MediaProcessor.hq_video_dir mvai ++ [used_folder; "clip.mp4"])
     = Some (File "video").
Proof. vm_compute. repeat split; reflexivity. Qed.

(** ** The quality stage *)

Lemma joinpath_ne (d : path) (nm : string) : joinpath d nm <> d.
Proof.
  unfold joinpath. intros E. apply (f_equal length) in E.
  rewrite length_app in E. cbn in E. lia.
Qed.

Lemma path_parent_joinpath (d : path) (nm : string) :
  path_parent (joinpath d nm) = d.
Proof. unfold path_parent, joinpath. apply removelast_last. Qed.

Lemma joinpath_depth (d : path) (a b c : string) :
  joinpath (joinpath d a) b <> joinpath d c.
Proof.
  unfold joinpath. intros E. apply (f_equal length) in E.
  rewrite !length_app in E. cbn in E. lia.
Qed.

Lemma joinpath_inj (d : path) (a b : string) :
  joinpath d a = joinpath d b -> a = b.
Proof. unfold joinpath. intros E. apply app_inv_head in E. congruence. Qed.

Lemma mkdir_outcome (refuses : io_op -> bool) (p : path) (w : world) :
  mkdir refuses p w = (Raise OSError, w)
  \/ exists w',
       mkdir refuses p w = (Return tt, w')
       /\ (forall q, q <> p -> files w' !! q = files w !! q)
       /\ (forall n, files w !! p = Some n -> files w' !! p = Some n)
       /\ (files w !! p = Some Dir \/ files w !! p = None)
       /\ (size (files w') <= size (files w) + 1)%nat.
Proof.
  unfold mkdir, bind, lookup_node, ret, lift, set_files.
  destruct (files w !! p) as [[data |] |] eqn:Hp.
  - left. reflexivity.
  - right. exists w. split; [reflexivity |].
    split; [auto |]. split; [intros n [= <-]; exact Hp |].
    split; [left; reflexivity | lia].
  - destruct (refuses (OpMkdir p)); [left; reflexivity |].
    right. eexists. split; [reflexivity |]. cbn.
    split; [intros q Hq; apply lookup_insert_ne; congruence |].
    split; [intros n [=] |]. split; [right; reflexivity |].
    rewrite map_size_insert_None by exact Hp. lia.
Qed.

(** Paths of different depth under the same folder differ. *)
Ltac path_depth :=
  let E := fresh "E" in
  intros E; apply (f_equal length) in E;
  unfold MediaProcessor.hq_video_dir, MediaProcessor.ai_video_dir,
    MediaProcessor.final_assets_dir, MediaProcessor.lipsync_video_dir,
    joinpath in E;
  rewrite ?length_app in E; cbn [length] in E; lia.

Section QualityStage.
Variable dir_size : N.
Variable refuses : io_op -> bool.
Variable unlink_refused : path -> bool.
Variable base_dir : path.
Context {T : Type} `{Number T} `{Product T}.
Variable probe : path -> tool_result (MediaProcessor.probe_answer T).
Variable encode : path -> path -> MediaProcessor.settings T
                  -> MediaProcessor.run_result.

Local Abbreviation hq_dir := (MediaProcessor.hq_video_dir base_dir).
Local Abbreviation ai_used_dir :=
  (joinpath (MediaProcessor.ai_video_dir base_dir) used_folder).

Lemma unlink_eq (p : path) (w : world) :
  MediaProcessor.unlink unlink_refused p w
  = match files w !! p with
    | Some (File _) =>
        if unlink_refused p then (Raise OSError, w)
        else (Return tt, World (delete p (files w)) (log w))
    | _ => (Raise OSError, w)
    end.
Proof.
  unfold MediaProcessor.unlink, bind, lookup_node, ret, lift, set_files.
  destruct (files w !! p) as [[data |] |]; try reflexivity.
  destruct (unlink_refused p); reflexivity.
Qed.

(** After the handler of a failed run, the output path holds nothing,
    unless the operating system refused the deletion. *)
Lemma discard_output_effect (out : path) (w : world) :
  files w !! out <> Some Dir ->
  exists w',
    MediaProcessor.discard_output unlink_refused out w = (Return tt, w')
    /\ ((files w' = delete out (files w))
        \/ (files w' = files w /\ unlink_refused out = true)).
Proof.
  intros Hdir. unfold MediaProcessor.discard_output, bind at 1, log_callback at 1.
  set (w1 := write_log _ w).
  rewrite (bind_return _ _ w1 w1 _ (path_exists_eq out w1)).
  change (files w1) with (files w).
  destruct (files w !! out) as [[data |] |] eqn:Hout.
  - rewrite bool_decide_eq_true_2 by eauto.
    unfold try_except. rewrite unlink_eq. change (files w1) with (files w).
    rewrite Hout. destruct (unlink_refused out) eqn:Href.
    + eexists. split; [reflexivity |]. right. split; reflexivity.
    + eexists. split; [reflexivity |]. left. reflexivity.
  - congruence.
  - rewrite bool_decide_eq_false_2 by (intros [? ?]; discriminate).
    eexists. split; [reflexivity |]. left. cbn.
    symmetry. apply delete_id, Hout.
Qed.

(** The archive step comes back; it leaves the disk as it is, or moves the
    original, which is not in an archive, to a free name in the archive;
    and it does move an original that is there and not in an archive when
    nothing is refused. *)
Lemma archive_original_effect (fuel : nat) (file_path : path) (w : world) :
  (size (files w) < fuel)%nat ->
  exists w',
    MediaProcessor.archive_original refuses base_dir fuel file_path w
    = (Return tt, w')
    /\ (files w' = files w
        \/ ((used_folder ∉ file_path)
            /\ exists nm nd,
                 files w !! file_path = Some nd
                 /\ files w !! joinpath ai_used_dir nm = None
                 /\ files w'
                    = <[joinpath ai_used_dir nm := nd]> (delete file_path (files w))))
    /\ ((forall op, refuses op = false) -> used_folder ∉ file_path ->
        is_Some (files w !! file_path) -> files w' !! file_path = None).
Proof.
  intros Hfuel. unfold MediaProcessor.archive_original.
  destruct (bool_decide (used_folder ∈ file_path)) eqn:Hused; cbn [negb].
  { apply bool_decide_eq_true in Hused. eexists. split; [reflexivity |].
    split; [left; reflexivity |]. intros _ Hno. contradiction. }
  apply bool_decide_eq_false in Hused.
  unfold try_except, bind at 1.
  destruct (free_name_returns fuel
              (fun counter =>
                 joinpath ai_used_dir
                   (numbered (path_stem file_path) counter (path_suffix file_path)))
              (joinpath ai_used_dir (path_name file_path)) 1 w)
    as (used_path & Eused & Hfree); [apply candidate_inj | exact Hfuel |].
  assert (exists nm, used_path = joinpath ai_used_dir nm) as [used_name ->].
  { eapply (free_name_shape (fun q => exists nm, q = joinpath ai_used_dir nm));
      [| | exact Eused]; cbn; eauto. }
  rewrite Eused.
  rewrite (bind_return _ _ w w _ (path_exists_eq file_path w)).
  destruct (files w !! file_path) as [nd |] eqn:Hfile.
  2: { rewrite bool_decide_eq_false_2 by (intros [? ?]; discriminate).
       eexists. split; [reflexivity |]. split; [left; reflexivity |].
       intros _ _ [? ?]. discriminate. }
  rewrite bool_decide_eq_true_2 by eauto.
  unfold bind at 1. rewrite move_eq, Hfile.
  destruct (refuses (OpMove file_path (joinpath ai_used_dir used_name))) eqn:Hmove.
  { eexists. split; [reflexivity |]. split; [left; reflexivity |].
    intros Hall. rewrite Hall in Hmove. discriminate. }
  eexists. split; [reflexivity |]. cbn. split.
  - right. split; [exact Hused |]. exists used_name, nd. auto.
  - intros _ _ _. rewrite lookup_insert_ne by (intros E; congruence).
    apply lookup_delete_eq.
Qed.

Section Shapes.
Variables (fs fs1 : gmap path node) (file_path : path) (out_name : string).
Hypothesis same : forall p, p <> hq_dir -> fs1 !! p = fs !! p.
Hypothesis folder : forall n, fs !! hq_dir = Some n -> fs1 !! hq_dir = Some n.
Hypothesis out_free : fs !! joinpath hq_dir out_name = None.
Hypothesis not_folder : file_path <> hq_dir.

Lemma made_preserved : others_preserved file_path fs fs1.
Proof.
  intros p n _ Hp. destruct (decide (p = hq_dir)) as [-> | Hne].
  - apply folder, Hp.
  - rewrite same by exact Hne. exact Hp.
Qed.

Lemma quality_effect_idle :
  quality_effect unlink_refused base_dir file_path fs fs1.
Proof.
  split; [apply made_preserved |]. split; [left; apply same, not_folder |].
  intros nm n Hfree Hn. rewrite same in Hn by apply joinpath_ne. congruence.
Qed.

Lemma quality_effect_output (data : string) :
  is_Some (fs !! file_path) ->
  data <> "" \/ unlink_refused (joinpath hq_dir out_name) = true ->
  quality_effect unlink_refused base_dir file_path fs
    (<[joinpath hq_dir out_name := File data]> fs1).
Proof.
  intros [nd Hfile] Hdata.
  assert (joinpath hq_dir out_name <> file_path) as Hne
    by (intros E; rewrite E in out_free; congruence).
  split; [apply others_preserved_insert; [apply made_preserved | exact out_free] |].
  split; [left; rewrite lookup_insert_ne by exact Hne; apply same, not_folder |].
  intros nm n Hfree Hn.
  destruct (decide (nm = out_name)) as [-> | Hnm].
  - rewrite lookup_insert_eq in Hn. injection Hn as <-.
    destruct Hdata as [Hdata | Href]; [left; eauto | right; exact Href].
  - rewrite lookup_insert_ne in Hn by (intros E; apply joinpath_inj in E; congruence).
    rewrite same in Hn by apply joinpath_ne. congruence.
Qed.

Lemma quality_effect_moved (data used_name : string) (nd : node) :
  is_Some (fs !! file_path) ->
  used_folder ∉ file_path ->
  data <> "" ->
  (<[joinpath hq_dir out_name := File data]> fs1) !! file_path = Some nd ->
  (<[joinpath hq_dir out_name := File data]> fs1) !! joinpath ai_used_dir used_name
  = None ->
  quality_effect unlink_refused base_dir file_path fs
    (<[joinpath ai_used_dir used_name := nd]>
       (delete file_path (<[joinpath hq_dir out_name := File data]> fs1))).
Proof.
  intros [nd0 Hthere] Hused Hdata Hfile Hfree.
  apply lookup_insert_None in Hfree as [Hfree Hne_used].
  rewrite same in Hfree by path_depth.
  assert (joinpath hq_dir out_name <> file_path) as Hne
    by (intros E; rewrite E in out_free; congruence).
  rewrite lookup_insert_ne in Hfile by exact Hne.
  rewrite same in Hfile by exact not_folder.
  assert (joinpath ai_used_dir used_name <> file_path) as Hne_file
    by (intros E; rewrite E in Hfree; congruence).
  assert ((<[joinpath ai_used_dir used_name := nd]>
             (delete file_path (<[joinpath hq_dir out_name := File data]> fs1)))
            !! joinpath hq_dir out_name = Some (File data)) as Hout.
  { rewrite lookup_insert_ne by congruence.
    rewrite lookup_delete_ne by congruence. apply lookup_insert_eq. }
  split.
  { apply others_preserved_insert; [| exact Hfree].
    apply others_preserved_delete, others_preserved_insert;
      [apply made_preserved | exact out_free]. }
  split.
  { right. split; [exact Hused |]. split.
    - rewrite lookup_insert_ne by exact Hne_file. apply lookup_delete_eq.
    - split; [exists out_name, data; auto |].
      exists used_name. split; [exact Hfree |].
      rewrite lookup_insert_eq. symmetry. exact Hfile. }
  intros nm n Hnm Hn.
  destruct (decide (nm = out_name)) as [-> | Hnm_ne].
  - rewrite Hout in Hn. injection Hn as <-. left. eauto.
  - rewrite lookup_insert_ne in Hn by path_depth.
    destruct (decide (joinpath hq_dir nm = file_path)) as [E | Hnf].
    + rewrite E, lookup_delete_eq in Hn. discriminate.
    + rewrite lookup_delete_ne in Hn by congruence.
      rewrite lookup_insert_ne in Hn
        by (intros E; apply joinpath_inj in E; congruence).
      rewrite same in Hn by apply joinpath_ne. congruence.
Qed.
End Shapes.

Lemma upscale_settings_ends (info : MediaProcessor.video_info T) :
  MediaProcessor.upscale_settings info <> Diverge.
Proof.
  unfold MediaProcessor.upscale_settings, int_truediv, float_truediv, py_int.
  repeat match goal with
         | |- context [if ?b then _ else _] => destruct b; cbn [obind]
         | |- context [match to_int ?x with _ => _ end] =>
             destruct (to_int x); cbn [obind]
         end; discriminate.
Qed.

(** X7.  The quality stage, for a path that is not a directory, on any
    disk, whatever the probe and the encoder do and whatever the operating
    system refuses, comes back without an exception (given more passes for
    its name searches than the disk has entries, plus two), and what it did
    to the disk is a [quality_effect]: nothing but the original is lost or
    overwritten; the original is moved to the archive only when a non-empty
    encoded file is in the high-quality folder, and never when it lives in a
    "used" archive; and no empty or partial output stays in the
    high-quality folder, unless the operating system refused to delete it. *)
Theorem quality_stage_is_safe (fuel : nat) (file_path : path) (w : world) :
  files w !! file_path <> Some Dir ->
  (size (files w) + 2 < fuel)%nat ->
  exists w',
    MediaProcessor.trigger_quality_pipeline dir_size refuses unlink_refused
      base_dir probe encode fuel file_path w
    = (Return tt, w')
    /\ quality_effect unlink_refused base_dir file_path (files w) (files w').
Proof.
  intros Hnodir Hfuel. unfold MediaProcessor.trigger_quality_pipeline.
  match goal with
  | |- exists w', try_except ?body _ _ w = _ /\ _ =>
      enough (exists o w1,
                 body w = (o, w1) /\ o <> Diverge
                 /\ quality_effect unlink_refused base_dir file_path
                      (files w) (files w1))
        as (o & w1 & E & Ho & Heff)
  end.
  { destruct (try_except_logs _ "高品質化パイプラインエラー" ERROR w w1 o E Ho)
      as (w2 & E2 & Hfiles).
    exists w2. rewrite E2, Hfiles. auto. }
  rewrite (bind_return _ _ w w _ (path_exists_eq file_path w)).
  destruct (files w !! file_path) as [nd |] eqn:Hfile.
  2: { rewrite bool_decide_eq_false_2 by (intros [? ?]; discriminate).
       cbn [negb]. do 2 eexists. split; [reflexivity |].
       split; [discriminate |].
       split; [apply others_preserved_refl |]. split; [left; reflexivity |].
       cbn. intros nm n ? ?. congruence. }
  destruct nd as [data |]; [| congruence]. clear Hnodir.
  assert (forall l, quality_effect unlink_refused base_dir file_path (files w)
                      (files (World (files w) l))) as Hidle.
  { intros l. split; [apply others_preserved_refl |].
    split; [left; reflexivity |]. cbn. intros nm n ? ?. congruence. }
  rewrite bool_decide_eq_true_2 by eauto. cbn [negb].
  unfold bind at 1. rewrite st_size_eq, Hfile.
  destruct (N.of_nat (String.length data) =? 0)%N eqn:Hsize.
  { do 2 eexists. split; [reflexivity |]. split; [discriminate |]. apply Hidle. }
  unfold bind at 1, log_callback at 1.
  set (w1 := write_log (LogEntry INFO "高品質化処理を開始") w).
  unfold bind at 1, try_except at 1, bind at 1.
  destruct (probe file_path) as [pr | e]; cbn [run ret lift Exception].
  2: { do 2 eexists. split; [reflexivity |]. split; [discriminate |]. apply Hidle. }
  destruct (MediaProcessor.video_stream pr) as [info |].
  2: { do 2 eexists. split; [reflexivity |]. split; [discriminate |]. apply Hidle. }
  unfold bind at 1.
  destruct (free_name_returns fuel
              (fun counter =>
                 joinpath hq_dir
                   (numbered (path_stem file_path +:+ "_hq") counter
                      (path_suffix file_path)))
              (joinpath hq_dir (path_stem file_path +:+ "_hq" +:+ path_suffix file_path))
              1 w1)
    as (output_path & Eout & Hout); [apply candidate_inj | cbn; lia |].
  assert (exists nm, output_path = joinpath hq_dir nm) as [out_name ->].
  { eapply (free_name_shape (fun q => exists nm, q = joinpath hq_dir nm));
      [| | exact Eout]; cbn; eauto. }
  rewrite Eout. change (files w1) with (files w) in Hout.
  unfold try_except at 1, bind at 1.
  pose proof (upscale_settings_ends info) as Hends.
  destruct (MediaProcessor.upscale_settings info) as [s | e |];
    [| | congruence]; cbn [lift].
  2: { do 2 eexists. split; [reflexivity |]. split; [discriminate |]. apply Hidle. }
  clear Hends.
  unfold bind at 1, log_callback at 1.
  set (w2 := write_log (LogEntry INFO "アップスケール") w1).
  unfold bind at 1.
  set (w3 := snd ((if MediaProcessor.interpolate s
                   then log_callback "フレームレート補間" INFO
                   else log_callback "フレームレート（補間なし）" INFO) w2)).
  assert ((if MediaProcessor.interpolate s
           then log_callback "フレームレート補間" INFO
           else log_callback "フレームレート（補間なし）" INFO) w2
          = (Return tt, w3)) as -> by (subst w3; destruct (MediaProcessor.interpolate s); reflexivity).
  assert (files w3 = files w) as Hw3
    by (subst w3; destruct (MediaProcessor.interpolate s); reflexivity).
  unfold bind at 1, log_callback at 1.
  set (w4 := write_log (LogEntry INFO "出力先") w3).
  rewrite path_parent_joinpath.
  unfold bind at 1.
  destruct (mkdir_outcome refuses hq_dir w4)
    as [-> | (w5 & -> & Hsame & Hfolder & Hwas & Hsize5)].
  { do 2 eexists. split; [reflexivity |]. split; [discriminate |].
    cbn. rewrite Hw3. apply (Hidle []). }
  change (files w4) with (files w3) in Hsame, Hfolder, Hwas, Hsize5.
  rewrite Hw3 in Hsame, Hfolder, Hwas, Hsize5.
  assert (file_path <> hq_dir) as Hnf
    by (intros E; rewrite E in Hfile; destruct Hwas; congruence).
  assert (files w5 !! joinpath hq_dir out_name = None) as Hout5
    by (rewrite Hsame by apply joinpath_ne; exact Hout).
  assert (files w5 !! file_path = Some (File data)) as Hfile5
    by (rewrite Hsame by exact Hnf; exact Hfile).
  clear Hidle.
  pose proof (quality_effect_idle _ _ file_path Hsame Hfolder Hnf) as Hidle.
  match goal with
  | |- context [try_except ?inner Exception ?h w5] =>
      enough (exists w6,
                 try_except inner Exception h w5 = (Return tt, w6)
                 /\ quality_effect unlink_refused base_dir file_path
                      (files w) (files w6))
        as (w6 & -> & Heff)
  end.
  { do 2 eexists. split; [reflexivity |]. split; [discriminate | exact Heff]. }
  unfold try_except at 1, bind at 1, MediaProcessor.ffmpeg_run.
  destruct (encode file_path (joinpath hq_dir out_name) s) as [[out |] [e |]];
    cbn [MediaProcessor.leaves MediaProcessor.raises Exception].
  - (* a failed run that left a file *)
    destruct (discard_output_effect (joinpath hq_dir out_name)
                (World (<[joinpath hq_dir out_name := File out]> (files w5)) (log w5)))
      as (w6 & -> & [Efiles | [Efiles Href]]).
    { cbn [files]. rewrite lookup_insert_eq. discriminate. }
    + exists w6. split; [reflexivity |]. rewrite Efiles. cbn [files].
      rewrite delete_insert_id by exact Hout5. exact Hidle.
    + exists w6. split; [reflexivity |]. rewrite Efiles. cbn [files].
      apply quality_effect_output; eauto.
  - (* a run that ended well and left a file *)
    set (w6 := World (<[joinpath hq_dir out_name := File out]> (files w5)) (log w5)).
    rewrite (bind_return _ _ w6 w6 _ (path_exists_eq _ w6)).
    rewrite bool_decide_eq_true_2
      by (cbn [files w6]; rewrite lookup_insert_eq; eauto).
    unfold bind at 1. rewrite st_size_eq. cbn [files w6].
    rewrite lookup_insert_eq.
    destruct (0 <? N.of_nat (String.length out))%N eqn:Hpos.
    + assert (out <> "") as Hout_data by (intros ->; discriminate).
      unfold bind at 1, log_callback at 1. unfold bind at 1, log_callback at 1.
      set (w7 := write_log _ (write_log _ w6)).
      destruct (archive_original_effect fuel file_path w7)
        as (w8 & -> & [Efiles | (Hused & nm & nd & Hnd & Hfree & Efiles)] & _).
      { cbn [files w7 w6 write_log world_logging].
        rewrite map_size_insert_None by exact Hout5. lia. }
      * exists w8. split; [reflexivity |]. rewrite Efiles.
        apply quality_effect_output; eauto.
      * exists w8. split; [reflexivity |]. rewrite Efiles.
        apply quality_effect_moved; eauto.
    + unfold bind at 1, log_callback at 1.
      set (w7 := write_log _ w6).
      rewrite (bind_return _ _ w7 w7 _ (path_exists_eq _ w7)).
      rewrite bool_decide_eq_true_2
        by (cbn [files w7 w6 write_log world_logging];
            rewrite lookup_insert_eq; eauto).
      rewrite unlink_eq. cbn [files w7 w6 write_log world_logging].
      rewrite lookup_insert_eq.
      destruct (unlink_refused (joinpath hq_dir out_name)) eqn:Href.
      * destruct (discard_output_effect (joinpath hq_dir out_name) w7)
          as (w8 & -> & [Efiles | [Efiles _]]).
        { cbn [files w7 w6 write_log world_logging].
          rewrite lookup_insert_eq. discriminate. }
        -- exists w8. split; [reflexivity |]. rewrite Efiles.
           cbn [files w7 w6 write_log world_logging].
           rewrite delete_insert_id by exact Hout5. exact Hidle.
        -- exists w8. split; [reflexivity |]. rewrite Efiles.
           apply quality_effect_output; eauto.
      * eexists. split; [reflexivity |]. cbn [files].
        rewrite delete_insert_id by exact Hout5. exact Hidle.
  - (* a failed run that left nothing *)
    destruct (discard_output_effect (joinpath hq_dir out_name) w5)
      as (w6 & -> & [Efiles | [Efiles _]]).
    { rewrite Hout5. discriminate. }
    + exists w6. split; [reflexivity |]. rewrite Efiles.
      rewrite delete_id by exact Hout5. exact Hidle.
    + exists w6. split; [reflexivity |]. rewrite Efiles. exact Hidle.
  - (* a run that ended well and left nothing *)
    rewrite (bind_return _ _ w5 w5 _ (path_exists_eq _ w5)).
    rewrite bool_decide_eq_false_2
      by (rewrite Hout5; intros [? ?]; discriminate).
    eexists. split; [reflexivity |]. exact Hidle.
Qed.

(** X8.  When the original is a non-empty file, the high-quality folder is
    there, the probe finds a video stream, the settings can be computed,
    the encoder run ends well and leaves a non-empty file, and the operating
    system refuses nothing, the quality stage delivers: the encoded file is
    in the high-quality folder under a name that was free, a SUCCESS entry
    is logged, and the original is moved to the archive of the AI-video
    folder, unless it lives in a "used" archive, in which case it stays. *)
Theorem quality_stage_delivers (fuel : nat) (file_path : path) (w : world)
    (data out : string) (pr : MediaProcessor.probe_answer T)
    (info : MediaProcessor.video_info T) (s : MediaProcessor.settings T) :
  files w !! file_path = Some (File data) -> data <> "" ->
  files w !! hq_dir = Some Dir ->
  probe file_path = Done pr ->
  MediaProcessor.video_stream pr = Some info ->
  MediaProcessor.upscale_settings info = Return s ->
  (forall output_path,
      encode file_path output_path s = MediaProcessor.RunResult (Some out) None) ->
  out <> "" ->
  (forall op, refuses op = false) ->
  (size (files w) + 1 < fuel)%nat ->
  exists w',
    MediaProcessor.trigger_quality_pipeline dir_size refuses unlink_refused
      base_dir probe encode fuel file_path w
    = (Return tt, w')
    /\ new_entry hq_dir (Some (File out)) (files w) (files w')
    /\ (exists msg, LogEntry SUCCESS msg ∈ log w')
    /\ (if bool_decide (used_folder ∈ file_path)
        then files w' !! file_path = Some (File data)
        else files w' !! file_path = None
             /\ new_entry ai_used_dir (Some (File data)) (files w) (files w')).
Proof.
  intros Hfile Hdata Hfolder Hprobe Hstream Hset Henc Hout_data Hall Hfuel.
  unfold MediaProcessor.trigger_quality_pipeline, try_except at 1.
  rewrite (bind_return _ _ w w _ (path_exists_eq file_path w)).
  rewrite bool_decide_eq_true_2 by eauto. cbn [negb].
  unfold bind at 1. rewrite st_size_eq, Hfile.
  assert ((N.of_nat (String.length data) =? 0)%N = false) as ->.
  { destruct data; [congruence | reflexivity]. }
  unfold bind at 1, log_callback at 1.
  set (w1 := write_log (LogEntry INFO "高品質化処理を開始") w).
  unfold bind at 1, try_except at 1, bind at 1.
  rewrite Hprobe. cbn [run ret]. rewrite Hstream.
  unfold bind at 1.
  destruct (free_name_returns fuel
              (fun counter =>
                 joinpath hq_dir
                   (numbered (path_stem file_path +:+ "_hq") counter
                      (path_suffix file_path)))
              (joinpath hq_dir (path_stem file_path +:+ "_hq" +:+ path_suffix file_path))
              1 w1)
    as (output_path & Eout & Hout); [apply candidate_inj | cbn; lia |].
  assert (exists nm, output_path = joinpath hq_dir nm) as [out_name ->].
  { eapply (free_name_shape (fun q => exists nm, q = joinpath hq_dir nm));
      [| | exact Eout]; cbn; eauto. }
  rewrite Eout. change (files w1) with (files w) in Hout.
  unfold try_except at 1, bind at 1. rewrite Hset. cbn [lift].
  unfold bind at 1, log_callback at 1.
  set (w2 := write_log (LogEntry INFO "アップスケール") w1).
  unfold bind at 1.
  set (w3 := snd ((if MediaProcessor.interpolate s
                   then log_callback "フレームレート補間" INFO
                   else log_callback "フレームレート（補間なし）" INFO) w2)).
  assert ((if MediaProcessor.interpolate s
           then log_callback "フレームレート補間" INFO
           else log_callback "フレームレート（補間なし）" INFO) w2
          = (Return tt, w3)) as ->
      by (subst w3; destruct (MediaProcessor.interpolate s); reflexivity).
  assert (files w3 = files w) as Hw3
    by (subst w3; destruct (MediaProcessor.interpolate s); reflexivity).
  unfold bind at 1, log_callback at 1.
  set (w4 := write_log (LogEntry INFO "出力先") w3).
  rewrite path_parent_joinpath.
  assert (mkdir refuses hq_dir w4 = (Return tt, w4)) as Emk.
  { unfold mkdir, bind, lookup_node. change (files w4) with (files w3).
    rewrite Hw3, Hfolder. reflexivity. }
  rewrite (bind_return _ _ w4 w4 _ Emk).
  unfold try_except at 1, bind at 1, MediaProcessor.ffmpeg_run.
  rewrite Henc. cbn [MediaProcessor.leaves MediaProcessor.raises].
  change (files w4) with (files w3). rewrite Hw3.
  set (w6 := World (<[joinpath hq_dir out_name := File out]> (files w)) (log w4)).
  rewrite (bind_return _ _ w6 w6 _ (path_exists_eq _ w6)).
  rewrite bool_decide_eq_true_2
    by (cbn [files w6]; rewrite lookup_insert_eq; eauto).
  unfold bind at 1. rewrite st_size_eq. cbn [files w6].
  rewrite lookup_insert_eq.
  assert ((0 <? N.of_nat (String.length out))%N = true) as ->.
  { destruct out; [congruence | reflexivity]. }
  unfold bind at 1, log_callback at 1. unfold bind at 1, log_callback at 1.
  set (w7 := write_log (LogEntry INFO "保存先")
               (write_log (LogEntry SUCCESS "✅ 高品質化処理完了") w6)).
  assert (joinpath hq_dir out_name <> file_path) as Hne
    by (intros E; rewrite E in Hout; congruence).
  assert (files w7 !! file_path = Some (File data)) as Hfile7.
  { cbn [files w7 w6 write_log world_logging].
    rewrite lookup_insert_ne by exact Hne. exact Hfile. }
  assert (new_entry hq_dir (Some (File out)) (files w)
            (<[joinpath hq_dir out_name := File out]> (files w))) as Hnew.
  { exists out_name. split; [exact Hout | apply lookup_insert_eq]. }
  unfold MediaProcessor.archive_original.
  destruct (bool_decide (used_folder ∈ file_path)) eqn:Hused; cbn [negb].
  { eexists. split; [reflexivity |]. cbn [files w7 w6 write_log world_logging log].
    split; [exact Hnew |]. split.
    - exists "✅ 高品質化処理完了". rewrite !elem_of_app, !list_elem_of_singleton.
      auto.
    - rewrite lookup_insert_ne by exact Hne. exact Hfile. }
  unfold try_except at 1, bind at 1.
  destruct (free_name_returns fuel
              (fun counter =>
                 joinpath ai_used_dir
                   (numbered (path_stem file_path) counter (path_suffix file_path)))
              (joinpath ai_used_dir (path_name file_path)) 1 w7)
    as (used_path & Eused & Hfree).
  { apply candidate_inj. }
  { cbn [files w7 w6 write_log world_logging].
    rewrite map_size_insert_None by exact Hout. lia. }
  assert (exists nm, used_path = joinpath ai_used_dir nm) as [used_name ->].
  { eapply (free_name_shape (fun q => exists nm, q = joinpath ai_used_dir nm));
      [| | exact Eused]; cbn; eauto. }
  rewrite Eused.
  rewrite (bind_return _ _ w7 w7 _ (path_exists_eq file_path w7)).
  rewrite bool_decide_eq_true_2 by (rewrite Hfile7; eauto).
  unfold bind at 1. rewrite move_eq, Hfile7, Hall.
  cbn [files w7 w6 write_log world_logging] in Hfree.
  apply lookup_insert_None in Hfree as [Hfree Hne_used].
  assert (joinpath ai_used_dir used_name <> file_path) as Hne_file
    by (intros E; rewrite E in Hfree; congruence).
  eexists. split; [reflexivity |].
  cbn [files w7 w6 write_log world_logging log].
  split.
  { exists out_name. split; [exact Hout |].
    rewrite lookup_insert_ne by congruence.
    rewrite lookup_delete_ne by congruence. apply lookup_insert_eq. }
  split.
  { exists "✅ 高品質化処理完了". rewrite !elem_of_app, !list_elem_of_singleton.
    auto. }
  split.
  { rewrite lookup_insert_ne by exact Hne_file. apply lookup_delete_eq. }
  exists used_name. split; [exact Hfree | apply lookup_insert_eq].
Qed.
End QualityStage.

Lemma quality_stage_is_safe_witness :
  exists w',
    quality_on_mvai 5 ai_clip (World ai_clip_disk []) = (Return tt, w')
    /\ quality_effect (fun _ => false) mvai ai_clip ai_clip_disk (files w').
Proof.
  refine (quality_stage_is_safe 0%N (fun _ => false) (fun _ => false) mvai
            (fun _ => Done (MediaProcessor.ProbeAnswer (Some full_hd) None))
            (fun _ _ _ => MediaProcessor.RunResult (Some "encoded") None)
            5 ai_clip (World ai_clip_disk []) _ _).
  - vm_compute. discriminate.
  - vm_compute. lia.
Defined.

Lemma quality_stage_delivers_witness :
  exists w',
    quality_on_mvai 5 ai_clip (World ai_clip_disk []) = (Return tt, w')
    /\ new_entry (MediaProcessor.hq_video_dir mvai) (Some (File "encoded"))
         ai_clip_disk (files w')
    /\ (exists msg, LogEntry SUCCESS msg ∈ log w')
    /\ (if bool_decide (used_folder ∈ ai_clip)
        then files w' !! ai_clip = Some (File "video")
        else files w' !! ai_clip = None
             /\ new_entry (joinpath (MediaProcessor.ai_video_dir mvai) used_folder)
                  (Some (File "video")) ai_clip_disk (files w')).
Proof.
  refine (quality_stage_delivers 0%N (fun _ => false) (fun _ => false) mvai
            (fun _ => Done (MediaProcessor.ProbeAnswer (Some full_hd) None))
            (fun _ _ _ => MediaProcessor.RunResult (Some "encoded") None)
            5 ai_clip (World ai_clip_disk []) "video" "encoded"
            (MediaProcessor.ProbeAnswer (Some full_hd) None) full_hd
            (MediaProcessor.Settings 3840 2160 (of_Z 60) true)
            _ _ _ _ _ _ _ _ _ _).
  - vm_compute. reflexivity.
  - discriminate.
  - vm_compute. reflexivity.
  - reflexivity.
  - reflexivity.
  - vm_compute. reflexivity.
  - reflexivity.
  - discriminate.
  - reflexivity.
  - vm_compute. lia.
Defined.

(** On that disk: a 1920x1080 clip at 30 fps is encoded to 3840x2160 at
    60 fps with interpolation (in binary64), the result is
    [clip_hq.mp4], and the original goes to the archive. *)
Example quality_on_a_clip :
  MediaProcessor.upscale_settings full_hd
  = Return (MediaProcessor.Settings 3840 2160 (of_Z 60) true)
  /\ let w' := snd (quality_on_mvai 5 ai_clip (World ai_clip_disk [])) in
     files w' !! ai_clip = None
     /\ files w' !! (MediaProcessor.hq_video_dir mvai ++ ["clip_hq.mp4"])
        = Some (File "encoded")
     /\ files w' !! (MediaProcessor.ai_video_dir mvai ++ [used_folder; "clip.mp4"])
        = Some (File "video").
Proof. vm_compute. repeat split; reflexivity. Qed.

(** ** The encoder settings *)

Lemma even_below (a : Z) :
  Z.even (a - a mod 2) = true
  /\ (a - 1 <= a - a mod 2 <= a)%Z
  /\ (0 <= a -> 0 <= a - a mod 2)%Z.
Proof.
  pose proof (Z.mod_pos_bound a 2 ltac:(lia)) as Hb.
  pose proof (Z.div_mod a 2 ltac:(lia)) as Hd.
  replace (a - a mod 2)%Z with (2 * (a / 2))%Z by lia.
  split; [rewrite Z.even_mul; reflexivity |]. split; [lia |].
  intros Ha. pose proof (Z.div_pos a 2 Ha ltac:(lia)). lia.
Qed.

Lemma even_kept (a : Z) : (a mod 2 = 0)%Z -> (a - a mod 2 = a)%Z.
Proof. lia. Qed.

Lemma doubled_cap_even (a cap : Z) :
  (cap mod 2 = 0)%Z -> (Z.min (a * 2) cap mod 2 = 0)%Z.
Proof.
  intros Hcap. destruct (Z.min_spec (a * 2) cap) as [[_ ->] | [_ ->]];
    [apply Z.mod_mul; lia | exact Hcap].
Qed.

(** The check holds of every stream from 1x1 to 3840x2160: evaluated in
    binary64, one stream after the other. *)
Lemma settings_checked :
  all_from (Z.to_nat 3840) 1
    (fun w => all_from (Z.to_nat 2160) 1 (fun h => settings_check w h)) = true.
Proof. vm_cast_no_check (eq_refl true). Qed.

(** What the check says of [upscale_settings]. *)
Lemma settings_check_sound (w h : int)
    (r : MediaProcessor.frame_rate float) :
  (1 <= Uint63.to_Z w <= 3840)%Z -> (1 <= Uint63.to_Z h <= 2160)%Z ->
  settings_check w h = true ->
  exists tw th fps i,
    MediaProcessor.upscale_settings
      (MediaProcessor.VideoInfo (Uint63.to_Z w) (Uint63.to_Z h) r)
    = Return (MediaProcessor.Settings tw th fps i)
    /\ Z.even tw = true /\ Z.even th = true
    /\ (0 <= tw <= Z.min (Uint63.to_Z w * 2) 3840)%Z
    /\ (0 <= th <= Z.min (Uint63.to_Z h * 2) 2160)%Z
    /\ ((th = Z.min (Uint63.to_Z h * 2) 2160
         /\ tw * Uint63.to_Z h <= th * Uint63.to_Z w
            <= (tw + 2) * Uint63.to_Z h)
        \/ (tw = Z.min (Uint63.to_Z w * 2) 3840
            /\ th * Uint63.to_Z w <= tw * Uint63.to_Z h
               <= (th + 2) * Uint63.to_Z w))%Z.
Proof.
  intros Hw Hh Hc. unfold settings_check in Hc.
  assert (Uint63.to_Z (2 * w)%uint63 = 2 * Uint63.to_Z w)%Z as E2w
    by (rewrite small_product; change (Uint63.to_Z 2) with 2%Z; lia).
  assert (Uint63.to_Z (2 * h)%uint63 = 2 * Uint63.to_Z h)%Z as E2h
    by (rewrite small_product; change (Uint63.to_Z 2) with 2%Z; lia).
  set (tw0 := (if (2 * w <=? 3840)%uint63 then (2 * w)%uint63 else 3840%uint63))
    in Hc.
  set (th0 := (if (2 * h <=? 2160)%uint63 then (2 * h)%uint63 else 2160%uint63))
    in Hc.
  assert (Uint63.to_Z tw0 = Z.min (Uint63.to_Z w * 2) 3840) as Etw.
  { unfold tw0. destruct (2 * w <=? 3840)%uint63 eqn:E.
    - apply Uint63.leb_spec in E. rewrite E2w in *.
      change (Uint63.to_Z 3840) with 3840%Z in E. lia.
    - assert (~ (Uint63.to_Z (2 * w)%uint63 <= Uint63.to_Z 3840%uint63)%Z) as N
        by (intros N; apply Uint63.leb_spec in N; congruence).
      rewrite E2w in N. change (Uint63.to_Z 3840) with 3840%Z in *. lia. }
  assert (Uint63.to_Z th0 = Z.min (Uint63.to_Z h * 2) 2160) as Eth.
  { unfold th0. destruct (2 * h <=? 2160)%uint63 eqn:E.
    - apply Uint63.leb_spec in E. rewrite E2h in *.
      change (Uint63.to_Z 2160) with 2160%Z in E. lia.
    - assert (~ (Uint63.to_Z (2 * h)%uint63 <= Uint63.to_Z 2160%uint63)%Z) as N
        by (intros N; apply Uint63.leb_spec in N; congruence).
      rewrite E2h in N. change (Uint63.to_Z 2160) with 2160%Z in *. lia. }
  clearbody tw0 th0.
  assert (Uint63.to_Z tw0 mod 2 = 0)%Z as Mtw
    by (rewrite Etw; apply doubled_cap_even; reflexivity).
  assert (Uint63.to_Z th0 mod 2 = 0)%Z as Mth
    by (rewrite Eth; apply doubled_cap_even; reflexivity).
  pose proof (proj1 (even_below (Uint63.to_Z tw0))) as Hew.
  pose proof (proj1 (even_below (Uint63.to_Z th0))) as Heh.
  rewrite (even_kept _ Mtw) in Hew. rewrite (even_kept _ Mth) in Heh.
  unfold MediaProcessor.upscale_settings, int_truediv.
  cbn [MediaProcessor.width MediaProcessor.height MediaProcessor.r_frame_rate].
  rewrite <- Etw, <- Eth.
  destruct (Z.eqb_spec (Uint63.to_Z h) 0) as [? | _]; [lia |].
  destruct (Z.eqb_spec (Uint63.to_Z th0) 0) as [? | _]; [lia |].
  cbn [obind of_Z div ltb leb float_number].
  rewrite !float_of_to_Z.
  destruct (of_uint63 w / of_uint63 h <? of_uint63 tw0 / of_uint63 th0)%float.
  - set (q := (of_uint63 th0 * (of_uint63 w / of_uint63 h))%float) in *.
    set (n := int_near (th0 * w / h) q) in *.
    apply andb_prop in Hc as [Hb Hc]. apply andb_prop in Hc as [Hc H3].
    apply andb_prop in Hc as [H1 H2].
    apply Uint63.leb_spec in H1, H2, H3.
    pose proof (Uint63.to_Z_bounded n) as Bn.
    assert (Uint63.to_Z (n + 1)%uint63 = Uint63.to_Z n + 1)%Z as Es.
    { rewrite Uint63.add_spec. change (Uint63.to_Z 1) with 1%Z.
      apply Z.mod_small.
      split; [lia |]. apply Z.le_lt_trans with 3841%Z; [lia | reflexivity]. }
    rewrite !small_product in H2, H3 by lia. rewrite Es in H3.
    unfold py_int, mul, float_product. cbn [to_int float_number]. fold q.
    assert (Uint63.to_Z n + 1 < 2 ^ 53)%Z as Hsmall
      by (apply Z.le_lt_trans with 3841%Z; [lia | reflexivity]).
    rewrite (between_int n q Hsmall Hb).
    cbn [obind fst snd]. do 4 eexists. split; [reflexivity |].
    rewrite (even_kept _ Mth).
    destruct (even_below (Uint63.to_Z n)) as (He & Hr & Hr0).
    specialize (Hr0 ltac:(lia)).
    set (tw := (Uint63.to_Z n - Uint63.to_Z n mod 2)%Z) in *. clearbody tw.
    split; [exact He |]. split; [exact Heh |].
    split; [lia |]. split; [lia |]. left. split; [reflexivity |]. nia.
  - apply andb_prop in Hc as [Hz Hc].
    set (q := (of_uint63 tw0 / (of_uint63 w / of_uint63 h))%float) in *.
    set (n := int_near (tw0 * h / w) q) in *.
    apply andb_prop in Hc as [Hb Hc]. apply andb_prop in Hc as [Hc H3].
    apply andb_prop in Hc as [H1 H2].
    apply Uint63.leb_spec in H1, H2, H3.
    pose proof (Uint63.to_Z_bounded n) as Bn.
    assert (Uint63.to_Z (n + 1)%uint63 = Uint63.to_Z n + 1)%Z as Es.
    { rewrite Uint63.add_spec. change (Uint63.to_Z 1) with 1%Z.
      apply Z.mod_small.
      split; [lia |]. apply Z.le_lt_trans with 2161%Z; [lia | reflexivity]. }
    rewrite !small_product in H2, H3 by lia. rewrite Es in H3.
    unfold float_truediv, is_zero. cbn [leb of_Z div float_number].
    change (float_of_Z 0) with (of_uint63 0).
    apply negb_true_iff in Hz. rewrite Hz. cbn [obind]. fold q.
    unfold py_int. cbn [to_int float_number].
    assert (Uint63.to_Z n + 1 < 2 ^ 53)%Z as Hsmall
      by (apply Z.le_lt_trans with 2161%Z; [lia | reflexivity]).
    rewrite (between_int n q Hsmall Hb).
    cbn [obind fst snd]. do 4 eexists. split; [reflexivity |].
    rewrite (even_kept _ Mtw).
    destruct (even_below (Uint63.to_Z n)) as (He & Hr & Hr0).
    specialize (Hr0 ltac:(lia)).
    set (th := (Uint63.to_Z n - Uint63.to_Z n mod 2)%Z) in *. clearbody th.
    split; [exact Hew |]. split; [exact He |].
    split; [lia |]. split; [lia |]. right. split; [reflexivity |]. nia.
Qed.

(** X9.  In binary64, for every video stream from 1x1 to 3840x2160, the
    quality stage arrives at settings, and the resolution it encodes to has
    even, non-negative dimensions, neither more than twice the source's nor
    beyond 3840x2160; one dimension is exactly the doubled (or capped) one,
    and the other is at most the value that keeps the aspect ratio and at
    most two pixels under it. *)
Theorem upscale_stays_in_bounds (info : MediaProcessor.video_info float) :
  (1 <= MediaProcessor.width info <= 3840)%Z ->
  (1 <= MediaProcessor.height info <= 2160)%Z ->
  exists s,
    MediaProcessor.upscale_settings info = Return s
    /\ Z.even (MediaProcessor.target_width s) = true
    /\ Z.even (MediaProcessor.target_height s) = true
    /\ (0 <= MediaProcessor.target_width s
        <= Z.min (MediaProcessor.width info * 2) 3840)%Z
    /\ (0 <= MediaProcessor.target_height s
        <= Z.min (MediaProcessor.height info * 2) 2160)%Z
    /\ ((MediaProcessor.target_height s
         = Z.min (MediaProcessor.height info * 2) 2160
         /\ MediaProcessor.target_width s * MediaProcessor.height info
            <= MediaProcessor.target_height s * MediaProcessor.width info
            <= (MediaProcessor.target_width s + 2) * MediaProcessor.height info)
        \/ (MediaProcessor.target_width s
            = Z.min (MediaProcessor.width info * 2) 3840
            /\ MediaProcessor.target_height s * MediaProcessor.width info
               <= MediaProcessor.target_width s * MediaProcessor.height info
               <= (MediaProcessor.target_height s + 2)
                  * MediaProcessor.width info))%Z.
Proof.
  destruct info as [width height r].
  cbn [MediaProcessor.width MediaProcessor.height]. intros Hw Hh.
  set (w := Uint63.of_Z width). set (h := Uint63.of_Z height).
  assert (Uint63.to_Z w = width) as Ew.
  { unfold w. rewrite Uint63.of_Z_spec. apply Z.mod_small.
    split; [lia |]. apply Z.le_lt_trans with 3840%Z; [lia | reflexivity]. }
  assert (Uint63.to_Z h = height) as Eh.
  { unfold h. rewrite Uint63.of_Z_spec. apply Z.mod_small.
    split; [lia |]. apply Z.le_lt_trans with 2160%Z; [lia | reflexivity]. }
  assert (settings_check w h = true) as Hc.
  { pose proof settings_checked as Hall.
    apply (all_from_spec _ _ 1%uint63 w) in Hall.
    - apply (all_from_spec _ _ 1%uint63 h) in Hall; [exact Hall | |].
      + rewrite Z2Nat.id by lia. reflexivity.
      + rewrite Z2Nat.id by lia. change (Uint63.to_Z 1) with 1%Z. lia.
    - rewrite Z2Nat.id by lia. reflexivity.
    - rewrite Z2Nat.id by lia. change (Uint63.to_Z 1) with 1%Z. lia. }
  rewrite <- Ew in Hw. rewrite <- Eh in Hh.
  destruct (settings_check_sound w h r Hw Hh Hc)
    as (tw & th & fps & i & E & Hrest).
  rewrite Ew, Eh in E, Hrest.
  eexists. split; [exact E |].
  cbn [MediaProcessor.target_width MediaProcessor.target_height].
  exact Hrest.
Qed.

Lemma upscale_stays_in_bounds_witness :
  exists s,
    MediaProcessor.upscale_settings full_hd = Return s
    /\ Z.even (MediaProcessor.target_width s) = true
    /\ Z.even (MediaProcessor.target_height s) = true
    /\ (0 <= MediaProcessor.target_width s
        <= Z.min (MediaProcessor.width full_hd * 2) 3840)%Z
    /\ (0 <= MediaProcessor.target_height s
        <= Z.min (MediaProcessor.height full_hd * 2) 2160)%Z
    /\ ((MediaProcessor.target_height s
         = Z.min (MediaProcessor.height full_hd * 2) 2160
         /\ MediaProcessor.target_width s * MediaProcessor.height full_hd
            <= MediaProcessor.target_height s * MediaProcessor.width full_hd
            <= (MediaProcessor.target_width s + 2) * MediaProcessor.height full_hd)
        \/ (MediaProcessor.target_width s
            = Z.min (MediaProcessor.width full_hd * 2) 3840
            /\ MediaProcessor.target_height s * MediaProcessor.width full_hd
               <= MediaProcessor.target_width s * MediaProcessor.height full_hd
               <= (MediaProcessor.target_height s + 2)
                  * MediaProcessor.width full_hd))%Z.
Proof.
  apply (upscale_stays_in_bounds full_hd); vm_compute; split; discriminate.
Defined.

(** The two pixels are reached: a 768x900 stream is encoded to 1536x1798,
    since [1536 / (768 / 900)] is just under 1800 in binary64; with
    1920x1080 nothing is lost. *)
Example upscale_of_768x900 :
  MediaProcessor.upscale_settings
    (MediaProcessor.VideoInfo 768 900 (MediaProcessor.Ratio 30 1 : MediaProcessor.frame_rate float))
  = Return (MediaProcessor.Settings 1536 1798 (of_Z 60) true).
Proof. vm_compute. reflexivity. Qed.

(** ** The frame rate the stage encodes at, in exact arithmetic *)

Lemma obind_return {A B : Type} (m : outcome A) (k : A -> outcome B) (b : B) :
  obind m k = Return b -> exists a, m = Return a /\ k a = Return b.
Proof. destruct m as [a | e |]; cbn; [eauto | discriminate | discriminate]. Qed.

(** X10.  In exact arithmetic, whenever the quality stage arrives at
    settings, the frame rate it encodes at is at least 60 and at least the
    source's, so the frame rate is never lowered; frames are interpolated
    exactly when the source is below 60 fps, and then the target is 60; a
    source at 60 fps or above keeps its rate. *)
Theorem frame_rate_never_lowered (info : MediaProcessor.video_info Q)
    (s : MediaProcessor.settings Q) :
  MediaProcessor.upscale_settings info = Return s ->
  (60 <= MediaProcessor.target_fps s
   /\ MediaProcessor.original_fps (MediaProcessor.r_frame_rate info)
      <= MediaProcessor.target_fps s)%Q
  /\ (MediaProcessor.interpolate s = true
      <-> (MediaProcessor.original_fps (MediaProcessor.r_frame_rate info) < 60)%Q)
  /\ (if MediaProcessor.interpolate s
      then (MediaProcessor.target_fps s == 60)%Q
      else (MediaProcessor.target_fps s
            == MediaProcessor.original_fps (MediaProcessor.r_frame_rate info))%Q).
Proof.
  unfold MediaProcessor.upscale_settings. intros E.
  apply obind_return in E as (aspect_ratio & _ & E).
  apply obind_return in E as (shape & _ & E).
  apply obind_return in E as (fitted & _ & E).
  injection E as <-.
  cbn [MediaProcessor.target_fps MediaProcessor.interpolate].
  set (fps := MediaProcessor.original_fps (MediaProcessor.r_frame_rate info)).
  cbn [leb ltb of_Z Q_number]. unfold Q_ltb.
  change (inject_Z 30) with 30%Q. change (inject_Z 60) with 60%Q.
  destruct (Qle_bool fps 30) eqn:H30.
  - apply Qle_bool_iff in H30.
    destruct (Qle_bool 60 fps) eqn:Hge;
      [apply Qle_bool_iff in Hge; lra | cbn [negb]].
    split; [lra |]. split; [split; [intros _; lra | reflexivity] | reflexivity].
  - apply (Q_leb_false fps 30) in H30.
    destruct (Qle_bool fps 60) eqn:H60.
    + apply Qle_bool_iff in H60.
      destruct (Qle_bool 60 fps) eqn:Hge; cbn [negb].
      * apply Qle_bool_iff in Hge. split; [lra |].
        split; [split; [discriminate | intros; lra] | lra].
      * apply (Q_leb_false 60 fps) in Hge. split; [lra |].
        split; [split; [intros _; lra | reflexivity] | reflexivity].
    + apply (Q_leb_false fps 60) in H60.
      destruct (Qle_bool fps fps) eqn:Hrefl; cbn [negb].
      * split; [lra |]. split; [split; [discriminate | intros; lra] | reflexivity].
      * apply (Q_leb_false fps fps) in Hrefl. lra.
Qed.

Lemma frame_rate_never_lowered_witness :
  (60 <= MediaProcessor.target_fps (MediaProcessor.Settings 3840 2160 60%Q true)
   /\ MediaProcessor.original_fps (MediaProcessor.r_frame_rate full_hd_Q)
      <= MediaProcessor.target_fps (MediaProcessor.Settings 3840 2160 60%Q true))%Q
  /\ (MediaProcessor.interpolate (MediaProcessor.Settings 3840 2160 60%Q true) = true
      <-> (MediaProcessor.original_fps (MediaProcessor.r_frame_rate full_hd_Q) < 60)%Q)
  /\ (if MediaProcessor.interpolate (MediaProcessor.Settings 3840 2160 60%Q true)
      then (MediaProcessor.target_fps (MediaProcessor.Settings 3840 2160 60%Q true)
            == 60)%Q
      else (MediaProcessor.target_fps (MediaProcessor.Settings 3840 2160 60%Q true)
            == MediaProcessor.original_fps (MediaProcessor.r_frame_rate full_hd_Q))%Q).
Proof.
  apply (frame_rate_never_lowered full_hd_Q
           (MediaProcessor.Settings 3840 2160 60%Q true)).
  vm_compute. reflexivity.
Defined.

(** ** The audio stage *)

Section AudioStage.
Variable dir_size : N.
Variable refuses : io_op -> bool.
Variable base_dir : path.
Context {T : Type} `{Number T}.
Variable load : path -> tool_result nat.
Variable beat_track : path -> tool_result (T * list T).
Variable render : gmap string (list T) -> string.
Variable parse : string -> tool_result (gmap string (list T)).

Local Abbreviation audio_subdir :=
  (joinpath (MediaProcessor.final_assets_dir base_dir) "音声ファイル").

(** The table the stage writes for a song: the rendering of the frame of
    the analysed beat times, when the analysis comes back. *)
Local Abbreviation table_of file_path :=
  (match beat_track file_path with
   | Done tb => Some (render (MediaProcessor.beat_frame tb.2))
   | Failed _ => None
   end).

Lemma csv_elsewhere (file_path audio_file_path : path) :
  path_parent file_path <> MediaProcessor.logs_dir base_dir ->
  MediaProcessor.beats_csv_path base_dir audio_file_path <> file_path.
Proof.
  intros Hparent E. apply Hparent. rewrite <- E.
  apply path_parent_joinpath.
Qed.

(** X11.  The audio stage, for a path that is not a directory and not in
    the log folder, on any disk, whatever the analysis does and whatever
    the operating system refuses, comes back without an exception (given
    more passes for its name search than the disk has entries, plus one),
    and what it did to the disk is an [audio_effect]: only the song and its
    beat table are touched; the table is written only with the analysed
    beats; and the song leaves the intake folder only after its beat table
    is saved, for a name that was free in the audio folder of the final
    assets. *)
Theorem audio_stage_is_safe (fuel : nat) (file_path : path) (w : world) :
  files w !! file_path <> Some Dir ->
  path_parent file_path <> MediaProcessor.logs_dir base_dir ->
  (size (files w) + 1 < fuel)%nat ->
  exists w',
    MediaProcessor.process_audio_file dir_size refuses base_dir load beat_track
      render fuel file_path w
    = (Return tt, w')
    /\ audio_effect base_dir file_path
         (MediaProcessor.beats_csv_path base_dir file_path)
         (table_of file_path) (files w) (files w').
Proof.
  intros Hnodir Hparent Hfuel.
  pose proof (csv_elsewhere file_path file_path Hparent) as Hcsv.
  set (csv_path := MediaProcessor.beats_csv_path base_dir file_path) in *.
  unfold MediaProcessor.process_audio_file. fold csv_path.
  match goal with
  | |- exists w', try_except ?body _ _ w = _ /\ _ =>
      enough (exists o w1,
                 body w = (o, w1) /\ o <> Diverge
                 /\ audio_effect base_dir file_path csv_path
                      (table_of file_path) (files w) (files w1))
        as (o & w1 & E & Ho & Heff)
  end.
  { destruct (try_except_logs _ "音声処理エラー" ERROR w w1 o E Ho)
      as (w2 & E2 & Hfiles).
    exists w2. rewrite E2, Hfiles. auto. }
  assert (forall l, audio_effect base_dir file_path csv_path (table_of file_path)
                      (files w) (files (World (files w) l))) as Hidle.
  { intros l. split; [auto |]. split; left; reflexivity. }
  rewrite (bind_return _ _ w w _ (path_exists_eq file_path w)).
  destruct (files w !! file_path) as [nd |] eqn:Hfile.
  2: { rewrite bool_decide_eq_false_2 by (intros [? ?]; discriminate).
       cbn [negb]. do 2 eexists. split; [reflexivity |].
       split; [discriminate | apply Hidle]. }
  destruct nd as [data |]; [| congruence]. clear Hnodir.
  rewrite bool_decide_eq_true_2 by eauto. cbn [negb].
  unfold bind at 1. rewrite st_size_eq, Hfile.
  destruct (N.of_nat (String.length data) =? 0)%N eqn:Hsize.
  { do 2 eexists. split; [reflexivity |]. split; [discriminate |]. apply Hidle. }
  unfold bind at 1, log_callback at 1.
  set (w1 := write_log (LogEntry INFO "音声ファイルの処理を開始") w).
  unfold bind at 1, try_except at 1, bind at 1.
  destruct (load file_path) as [len_y | e]; cbn [run ret lift Exception].
  2: { do 2 eexists. split; [reflexivity |]. split; [discriminate |]. apply Hidle. }
  destruct (len_y =? 0)%nat.
  { do 2 eexists. split; [reflexivity |]. split; [discriminate |]. apply Hidle. }
  unfold bind at 1, try_except at 1, bind at 1.
  destruct (beat_track file_path) as [[tempo beat_times] | e];
    cbn [run ret lift Exception snd].
  2: { do 2 eexists. split; [reflexivity |]. split; [discriminate |]. apply Hidle. }
  unfold bind at 1, try_except at 1, bind at 1. rewrite write_file_eq.
  destruct (refuses (OpWrite csv_path)).
  { do 2 eexists. split; [reflexivity |]. split; [discriminate |]. apply Hidle. }
  cbn [negb ret]. clear Hidle.
  set (text := render (MediaProcessor.beat_frame beat_times)).
  unfold bind at 1, log_callback at 1.
  set (w2 := write_log (LogEntry SUCCESS "音声解析完了")
               (World (<[csv_path := File text]> (files w1)) (log w1))).
  assert (files w2 = <[csv_path := File text]> (files w)) as Hw2 by reflexivity.
  assert (forall p n, p <> file_path -> p <> csv_path ->
                      files w !! p = Some n -> files w2 !! p = Some n) as Hkeep.
  { intros p n _ Hp Hn. rewrite Hw2, lookup_insert_ne by congruence. exact Hn. }
  assert (files w2 !! file_path = Some (File data)) as Hfile2
    by (rewrite Hw2, lookup_insert_ne by exact Hcsv; exact Hfile).
  assert (files w2 !! csv_path = Some (File text)) as Hcsv2
    by (rewrite Hw2; apply lookup_insert_eq).
  unfold try_except at 1, bind at 1.
  destruct (free_name_returns fuel
              (fun counter =>
                 joinpath audio_subdir
                   (numbered (path_stem file_path) counter (path_suffix file_path)))
              (joinpath audio_subdir (path_name file_path)) 1 w2)
    as (dest_path & Edest & Hfree).
  { apply candidate_inj. }
  { rewrite Hw2. pose proof (map_size_insert csv_path (File text) (files w)) as Hs.
    destruct (files w !! csv_path); cbn in Hs; lia. }
  assert (exists nm, dest_path = joinpath audio_subdir nm) as [dest_name ->].
  { eapply (free_name_shape (fun q => exists nm, q = joinpath audio_subdir nm));
      [| | exact Edest]; cbn; eauto. }
  rewrite Edest.
  unfold bind at 1. rewrite move_eq, Hfile2.
  destruct (refuses (OpMove file_path (joinpath audio_subdir dest_name))).
  { do 2 eexists. split; [reflexivity |]. split; [discriminate |]. cbn.
    split; [exact Hkeep |]. split; [right; eauto |]. left.
    rewrite Hfile. exact Hfile2. }
  do 2 eexists. split; [reflexivity |]. split; [discriminate |]. cbn.
  assert (joinpath audio_subdir dest_name <> csv_path) as Hne_csv
    by (intros E; rewrite E in Hfree; congruence).
  assert (joinpath audio_subdir dest_name <> file_path) as Hne_file
    by (intros E; rewrite E in Hfree; congruence).
  assert (files w !! joinpath audio_subdir dest_name = None) as Hfree0.
  { rewrite Hw2, lookup_insert_ne in Hfree by congruence. exact Hfree. }
  assert ((<[joinpath audio_subdir dest_name := File data]>
             (delete file_path (files w2))) !! csv_path = Some (File text))
    as Hcsv3.
  { rewrite lookup_insert_ne by exact Hne_csv.
    rewrite lookup_delete_ne by congruence. exact Hcsv2. }
  split.
  { intros p n Hp Hpc Hn.
    rewrite lookup_insert_ne by (intros E; rewrite <- E in Hn; congruence).
    rewrite lookup_delete_ne by congruence. apply Hkeep; assumption. }
  split; [right; eauto |].
  right. split.
  { rewrite lookup_insert_ne by exact Hne_file. apply lookup_delete_eq. }
  split; [eauto |].
  exists dest_name. split; [exact Hfree0 |].
  rewrite lookup_insert_eq, Hfile. reflexivity.
Qed.

Lemma load_beat_frame {W : Type} `{Logging W} (beat_times : list T) (w : W) :
  load_beat_data (Some (Done (MediaProcessor.beat_frame beat_times))) w
  = (Return (Some (BeatData (reloaded_bpm beat_times) beat_times
                     (length beat_times))), w).
Proof.
  unfold load_beat_data, try_except, bind, run, ret, MediaProcessor.beat_frame.
  rewrite lookup_insert_eq.
  destruct beat_times as [| t0 [| t1 rest]]; reflexivity.
Qed.

(** X12.  When the song is a non-empty file outside the log folder, the
    analysis comes back with samples and beats, [pd.read_csv] reads back
    the table that [to_csv] wrote, and the operating system refuses
    nothing, the audio stage moves the song into the audio folder of the
    final assets, and from then on [load_beat_data], for any audio path
    with the stem the song had on intake, returns the analysed beat times,
    their count, and a BPM recomputed from the first two beats (not the
    tempo of the analysis), without logging. *)
Theorem analysed_beats_reload (fuel : nat) (file_path : path) (w : world)
    (data : string) (len_y : nat) (tempo : T) (beat_times : list T) :
  files w !! file_path = Some (File data) -> data <> "" ->
  path_parent file_path <> MediaProcessor.logs_dir base_dir ->
  load file_path = Done len_y -> len_y <> 0%nat ->
  beat_track file_path = Done (tempo, beat_times) ->
  parse (render (MediaProcessor.beat_frame beat_times))
  = Done (MediaProcessor.beat_frame beat_times) ->
  (forall op, refuses op = false) ->
  (size (files w) + 1 < fuel)%nat ->
  exists w',
    MediaProcessor.process_audio_file dir_size refuses base_dir load beat_track
      render fuel file_path w
    = (Return tt, w')
    /\ files w' !! file_path = None
    /\ new_entry audio_subdir (Some (File data)) (files w) (files w')
    /\ forall audio_file_path,
         path_stem audio_file_path = path_stem file_path ->
         MediaProcessor.load_beat_data_for base_dir parse audio_file_path w'
         = (Return (Some (BeatData (reloaded_bpm beat_times) beat_times
                            (length beat_times))), w').
Proof.
  intros Hfile Hdata Hparent Hload Hlen Htrack Hparse Hall Hfuel.
  pose proof (csv_elsewhere file_path file_path Hparent) as Hcsv.
  set (csv_path := MediaProcessor.beats_csv_path base_dir file_path) in *.
  unfold MediaProcessor.process_audio_file, try_except at 1. fold csv_path.
  rewrite (bind_return _ _ w w _ (path_exists_eq file_path w)).
  rewrite bool_decide_eq_true_2 by eauto. cbn [negb].
  unfold bind at 1. rewrite st_size_eq, Hfile.
  assert ((N.of_nat (String.length data) =? 0)%N = false) as ->.
  { destruct data; [congruence | reflexivity]. }
  unfold bind at 1, log_callback at 1.
  set (w1 := write_log (LogEntry INFO "音声ファイルの処理を開始") w).
  unfold bind at 1, try_except at 1, bind at 1.
  rewrite Hload. cbn [run ret].
  rewrite (proj2 (Nat.eqb_neq len_y 0) Hlen).
  unfold bind at 1, try_except at 1, bind at 1.
  rewrite Htrack. cbn [run ret].
  unfold bind at 1, try_except at 1, bind at 1. rewrite write_file_eq, Hall.
  cbn [negb ret].
  set (text := render (MediaProcessor.beat_frame beat_times)) in *.
  unfold bind at 1, log_callback at 1.
  set (w2 := write_log (LogEntry SUCCESS "音声解析完了")
               (World (<[csv_path := File text]> (files w1)) (log w1))).
  assert (files w2 = <[csv_path := File text]> (files w)) as Hw2 by reflexivity.
  assert (files w2 !! file_path = Some (File data)) as Hfile2
    by (rewrite Hw2, lookup_insert_ne by exact Hcsv; exact Hfile).
  unfold try_except at 1, bind at 1.
  destruct (free_name_returns fuel
              (fun counter =>
                 joinpath audio_subdir
                   (numbered (path_stem file_path) counter (path_suffix file_path)))
              (joinpath audio_subdir (path_name file_path)) 1 w2)
    as (dest_path & Edest & Hfree).
  { apply candidate_inj. }
  { rewrite Hw2. pose proof (map_size_insert csv_path (File text) (files w)) as Hs.
    destruct (files w !! csv_path); cbn in Hs; lia. }
  assert (exists nm, dest_path = joinpath audio_subdir nm) as [dest_name ->].
  { eapply (free_name_shape (fun q => exists nm, q = joinpath audio_subdir nm));
      [| | exact Edest]; cbn; eauto. }
  rewrite Edest.
  unfold bind at 1. rewrite move_eq, Hfile2, Hall.
  eexists. split; [reflexivity |].
  cbn [files write_log world_logging].
  assert (joinpath audio_subdir dest_name <> csv_path) as Hne_csv.
  { intros E. rewrite E, Hw2, lookup_insert_eq in Hfree. discriminate. }
  assert (joinpath audio_subdir dest_name <> file_path) as Hne_file
    by (intros E; rewrite E in Hfree; congruence).
  split.
  { rewrite lookup_insert_ne by exact Hne_file. apply lookup_delete_eq. }
  split.
  { exists dest_name. split; [| apply lookup_insert_eq].
    rewrite Hw2, lookup_insert_ne in Hfree by congruence. exact Hfree. }
  intros audio_file_path Hstem.
  unfold MediaProcessor.load_beat_data_for, MediaProcessor.read_csv.
  cbn [files write_log world_logging].
  unfold MediaProcessor.beats_csv_path. rewrite Hstem.
  fold (MediaProcessor.beats_csv_path base_dir file_path). fold csv_path.
  rewrite lookup_insert_ne by exact Hne_csv.
  rewrite lookup_delete_ne by congruence.
  rewrite Hw2, lookup_insert_eq, Hparse.
  apply load_beat_frame.
Qed.
End AudioStage.

Lemma audio_stage_is_safe_witness :
  exists w',
    audio_on_mvai 3 dropped_song (World song_disk []) = (Return tt, w')
    /\ audio_effect mvai dropped_song
         (MediaProcessor.beats_csv_path mvai dropped_song)
         (Some "table") song_disk (files w').
Proof.
  refine (audio_stage_is_safe 0%N (fun _ => false) mvai
            (fun _ => Done 1000%nat) (fun _ => Done (120.0%float, song_beats))
            (fun _ => "table") 3 dropped_song (World song_disk []) _ _ _).
  - vm_compute. discriminate.
  - vm_compute. discriminate.
  - vm_compute. lia.
Defined.

Lemma analysed_beats_reload_witness :
  exists w',
    audio_on_mvai 3 dropped_song (World song_disk []) = (Return tt, w')
    /\ files w' !! dropped_song = None
    /\ new_entry (joinpath (MediaProcessor.final_assets_dir mvai) "音声ファイル")
         (Some (File "audio")) song_disk (files w')
    /\ forall audio_file_path,
         path_stem audio_file_path = path_stem dropped_song ->
         MediaProcessor.load_beat_data_for mvai read_back audio_file_path w'
         = (Return (Some (BeatData (reloaded_bpm song_beats) song_beats
                            (length song_beats))), w').
Proof.
  refine (analysed_beats_reload 0%N (fun _ => false) mvai
            (fun _ => Done 1000%nat) (fun _ => Done (120.0%float, song_beats))
            (fun _ => "table") read_back 3 dropped_song (World song_disk [])
            "audio" 1000 120.0%float song_beats _ _ _ _ _ _ _ _ _).
  - vm_compute. reflexivity.
  - discriminate.
  - vm_compute. discriminate.
  - reflexivity.
  - discriminate.
  - reflexivity.
  - reflexivity.
  - reflexivity.
  - vm_compute. lia.
Defined.

(** On that disk the song ends up in the audio folder under its own name,
    its table is [song_beats.csv] in the log folder, and the BPM loaded back
    is 60 / 0.5 = 120 from the first two beats (in binary64). *)
Example audio_on_a_song :
  let w' := snd (audio_on_mvai 3 dropped_song (World song_disk [])) in
  files w' !! dropped_song = None
  /\ files w' !! (MediaProcessor.final_assets_dir mvai ++ ["音声ファイル"; "song.MP3"])
     = Some (File "audio")
  /\ files w' !! (MediaProcessor.logs_dir mvai ++ ["song_beats.csv"])
     = Some (File "table")
  /\ reloaded_bpm song_beats = 120.0%float.
Proof. vm_compute. repeat split; reflexivity. Qed.

(** ** The finalize stage, for any video *)

Lemma map_size_insert_le (p : path) (n : node) (fs : gmap path node) :
  (size (<[p := n]> fs) <= S (size fs))%nat.
Proof.
  rewrite map_size_insert. destruct (fs !! p); cbn; lia.
Qed.

Lemma map_size_moved (src dst : path) (n : node) (fs : gmap path node) :
  is_Some (fs !! src) ->
  (size (<[dst := n]> (delete src fs)) <= size fs)%nat.
Proof.
  intros Hsrc.
  pose proof (map_size_insert_le dst n (delete src fs)) as Hi.
  rewrite map_size_delete_Some in Hi by exact Hsrc.
  assert (size fs <> 0)%nat.
  { intros E. apply map_size_empty_inv in E. subst fs.
    destruct Hsrc as [? Hsrc]. rewrite lookup_empty in Hsrc. discriminate. }
  lia.
Qed.

Lemma placed_as_size (lipsync_video_dir file_path dest : path) (data : string)
    (fs fs' : gmap path node) (placed : bool) :
  placed_as lipsync_video_dir file_path dest data fs placed fs' ->
  is_Some (fs !! file_path) ->
  (size fs' <= S (size fs))%nat.
Proof.
  intros Hplaced Hthere.
  destruct Hplaced as [| Hused | nm Hused Hfree | nm Hused Hfree].
  - lia.
  - apply map_size_insert_le.
  - pose proof (map_size_moved file_path
                  (joinpath (joinpath lipsync_video_dir used_folder) nm)
                  (File data) fs Hthere). lia.
  - pose proof (map_size_moved file_path
                  (joinpath (joinpath lipsync_video_dir used_folder) nm)
                  (File data) fs Hthere) as Hm.
    pose proof (map_size_insert_le dest (File data)
                  (<[joinpath (joinpath lipsync_video_dir used_folder) nm
                     := File data]> (delete file_path fs))). lia.
Qed.

Section FinalizeStage.
Variable dir_size : N.
Variable refuses : io_op -> bool.
Context {Probe : Type}.
Variable final_assets_dir lipsync_video_dir : path.
Variable probe : path -> tool_result Probe.
Variable metadata_xml : Probe -> string -> string -> string.

Local Abbreviation used_dir := (joinpath lipsync_video_dir used_folder).

Lemma place_video_outcome (fuel : nat) (file_path dest : path) (data : string)
    (w : world) :
  files w !! file_path = Some (File data) ->
  (size (files w) < fuel)%nat ->
  exists placed w',
    place_video refuses lipsync_video_dir fuel file_path dest w
    = (Return placed, w')
    /\ placed_as lipsync_video_dir file_path dest data (files w) placed (files w')
    /\ ((forall op, refuses op = false) -> placed = true).
Proof.
  intros Hfile Hfuel. unfold place_video, try_except.
  destruct (bool_decide (used_folder ∈ file_path)) eqn:Hused.
  { apply bool_decide_eq_true in Hused.
    unfold bind at 1. rewrite copy2_eq, Hfile.
    destruct (refuses (OpCopy file_path dest)) eqn:Hcopy.
    - do 2 eexists. split; [reflexivity |]. split; [apply placed_nothing |].
      intros Hall. rewrite Hall in Hcopy. discriminate.
    - do 2 eexists. split; [reflexivity |].
      split; [apply placed_copy, Hused | reflexivity]. }
  apply bool_decide_eq_false in Hused.
  unfold bind at 1.
  destruct (free_name_returns fuel
              (fun counter =>
                 joinpath used_dir
                   (numbered (path_stem file_path) counter (path_suffix file_path)))
              (joinpath used_dir (path_name file_path)) 1 w)
    as (used_path & Eused & Hfree); [apply candidate_inj | exact Hfuel |].
  assert (exists nm, used_path = joinpath used_dir nm) as [used_name ->].
  { eapply (free_name_shape (fun q => exists nm, q = joinpath used_dir nm));
      [| | exact Eused]; cbn; eauto. }
  rewrite Eused.
  unfold bind at 1. rewrite move_eq, Hfile.
  destruct (refuses (OpMove file_path (joinpath used_dir used_name))) eqn:Hmove.
  { do 2 eexists. split; [reflexivity |]. split; [apply placed_nothing |].
    intros Hall. rewrite Hall in Hmove. discriminate. }
  unfold bind at 1, log_callback at 1.
  unfold bind at 1. rewrite copy2_eq. cbn [files write_log world_logging].
  rewrite lookup_insert_eq.
  destruct (refuses (OpCopy (joinpath used_dir used_name) dest)) eqn:Hcopy.
  { do 2 eexists. split; [reflexivity |].
    split; [apply placed_move; assumption |].
    intros Hall. rewrite Hall in Hcopy. discriminate. }
  do 2 eexists. split; [reflexivity |].
  split; [apply placed_move_copy; assumption | reflexivity].
Qed.

Lemma placed_as_effect (file_path dest : path) (data : string)
    (fs0 fs fs' : gmap path node) (placed : bool) :
  placed_as lipsync_video_dir file_path dest data fs placed fs' ->
  fs0 !! file_path = Some (File data) ->
  preserved fs0 fs ->
  fs !! dest = None ->
  finalize_effect lipsync_video_dir file_path fs0 fs'.
Proof.
  intros Hplaced Hfile Hpre Hdest.
  assert (others_preserved file_path fs0 fs) as Hothers
    by (intros p n _ Hp; apply Hpre, Hp).
  assert (forall q, fs !! q = None -> fs0 !! q = None) as Hback.
  { intros q Hq. destruct (fs0 !! q) as [n |] eqn:E; [| reflexivity].
    apply Hpre in E. congruence. }
  assert (dest <> file_path) as Hne
    by (intros ->; apply Hpre in Hfile; congruence).
  destruct Hplaced as [| Hused | nm Hused Hfree | nm Hused Hfree].
  - split; [exact Hothers |]. left. rewrite Hfile. apply Hpre, Hfile.
  - split; [apply others_preserved_insert; [exact Hothers | apply Hback, Hdest] |].
    left. rewrite lookup_insert_ne by exact Hne. rewrite Hfile. apply Hpre, Hfile.
  - split.
    + apply others_preserved_insert; [| apply Hback, Hfree].
      apply others_preserved_delete, Hothers.
    + right. split; [exact Hused |]. exists nm.
      split; [apply Hback, Hfree |]. rewrite lookup_insert_eq, Hfile. reflexivity.
  - split.
    + apply others_preserved_insert; [| apply Hback, Hdest].
      apply others_preserved_insert; [| apply Hback, Hfree].
      apply others_preserved_delete, Hothers.
    + right. split; [exact Hused |]. exists nm.
      split; [apply Hback, Hfree |].
      destruct (decide (dest = joinpath used_dir nm)) as [-> | Hd].
      * rewrite lookup_insert_eq, Hfile. reflexivity.
      * rewrite lookup_insert_ne by exact Hd.
        rewrite lookup_insert_eq, Hfile. reflexivity.
Qed.

Lemma finalize_effect_preserved (file_path : path)
    (fs0 fs fs' : gmap path node) :
  finalize_effect lipsync_video_dir file_path fs0 fs ->
  is_Some (fs0 !! file_path) ->
  preserved fs fs' ->
  finalize_effect lipsync_video_dir file_path fs0 fs'.
Proof.
  intros [Hothers Hwhere] [n Hn] Hpre. split.
  - intros p m Hp Hm. apply Hpre, Hothers; assumption.
  - destruct Hwhere as [E | [Hused (nm & Hfree & Hnm)]].
    + left. rewrite Hn in *. apply Hpre, E.
    + right. split; [exact Hused |]. exists nm. split; [exact Hfree |].
      rewrite Hn in *. apply Hpre, Hnm.
Qed.

(** X13.  The finalize stage, for a path that is not a directory, on any
    disk, whatever the probe answers and whatever the operating system
    refuses, comes back without an exception (given more passes for its
    name searches than the disk has entries, plus two), and the original is
    never lost: every other entry of the disk is still there unchanged, and
    the original is still at its path or, when it is not in a "used"
    archive, in the archive of the lip-sync folder under a name that was
    free. *)
Theorem finalize_never_loses (fuel : nat) (file_path : path) (w : world) :
  files w !! file_path <> Some Dir ->
  (size (files w) + 2 < fuel)%nat ->
  exists w',
    finalize_assets dir_size refuses final_assets_dir lipsync_video_dir probe
      metadata_xml fuel file_path w = (Return tt, w')
    /\ finalize_effect lipsync_video_dir file_path (files w) (files w').
Proof.
  intros Hnodir Hfuel. unfold finalize_assets.
  match goal with
  | |- exists w', try_except ?body _ _ w = _ /\ _ =>
      enough (exists o w1,
                 body w = (o, w1) /\ o <> Diverge
                 /\ finalize_effect lipsync_video_dir file_path
                      (files w) (files w1))
        as (o & w1 & E & Ho & Heff)
  end.
  { destruct (try_except_logs _ "最終処理エラー" ERROR w w1 o E Ho)
      as (w2 & E2 & Hfiles).
    exists w2. rewrite E2, Hfiles. auto. }
  assert (forall l, finalize_effect lipsync_video_dir file_path (files w)
                      (files (World (files w) l))) as Hidle.
  { intros l. split; [apply others_preserved_refl | left; reflexivity]. }
  rewrite (bind_return _ _ w w _ (path_exists_eq file_path w)).
  destruct (files w !! file_path) as [nd |] eqn:Hfile.
  2: { rewrite bool_decide_eq_false_2 by (intros [? ?]; discriminate).
       cbn [negb]. do 2 eexists. split; [reflexivity |].
       split; [discriminate |]. apply Hidle. }
  destruct nd as [data |]; [| congruence]. clear Hnodir.
  rewrite bool_decide_eq_true_2 by eauto. cbn [negb].
  unfold bind at 1. rewrite (st_size_file _ _ data) by exact Hfile.
  destruct (N.of_nat (String.length data) =? 0)%N eqn:Hsize.
  { do 2 eexists. split; [reflexivity |]. split; [discriminate |]. apply Hidle. }
  unfold bind at 1, log_callback at 1.
  set (w1 := write_log (LogEntry INFO "最終処理を開始") w).
  unfold bind at 1, try_except at 1, bind at 1.
  destruct (probe file_path) as [pr | e]; cbn [run ret lift Exception].
  2: { do 2 eexists. split; [reflexivity |]. split; [discriminate |]. apply Hidle. }
  unfold bind at 1.
  destruct (free_name_returns fuel
              (fun counter =>
                 joinpath final_assets_dir
                   (numbered (path_stem file_path) counter ""))
              (joinpath final_assets_dir (path_stem file_path)) 1 w1)
    as (set_folder & -> & Hset); [apply candidate_inj | cbn; lia |].
  change (files w1) with (files w) in Hset.
  unfold bind at 1. rewrite mkdir_fresh by exact Hset.
  destruct (refuses (OpMkdir set_folder)).
  { do 2 eexists. split; [reflexivity |]. split; [discriminate |]. apply Hidle. }
  clear Hidle.
  unfold bind at 1, log_callback at 1.
  set (w2 := write_log (LogEntry INFO "セットフォルダを作成しました")
               (World (<[set_folder := Dir]> (files w1)) (log w1))).
  assert (files w2 = <[set_folder := Dir]> (files w)) as Hw2 by reflexivity.
  assert (preserved (files w) (files w2)) as Hpre2.
  { rewrite Hw2. apply preserved_insert; [apply preserved_refl | exact Hset]. }
  assert (size (files w2) = S (size (files w))) as Hsize2
    by (rewrite Hw2; apply map_size_insert_None, Hset).
  unfold bind at 1.
  destruct (free_name_returns fuel
              (fun counter =>
                 joinpath set_folder
                   (numbered (path_stem file_path) counter (path_suffix file_path)))
              (joinpath set_folder (path_name file_path)) 1 w2)
    as (dest & -> & Hdest); [apply candidate_inj | lia |].
  unfold bind at 1.
  destruct (place_video_outcome fuel file_path dest data w2)
    as (placed & w3 & -> & Hplaced & _); [apply Hpre2, Hfile | lia |].
  pose proof (placed_as_effect file_path dest data (files w) (files w2)
                (files w3) placed Hplaced Hfile Hpre2 Hdest) as Heff3.
  destruct placed; cbn [negb].
  2: { do 2 eexists. split; [reflexivity |]. split; [discriminate | exact Heff3]. }
  unfold bind at 1.
  destruct (write_metadata_preserves refuses metadata_xml fuel pr set_folder
              file_path dest w3) as (w4 & -> & Hpre4).
  { assert (is_Some (files w2 !! file_path)) as Hthere
      by (rewrite (Hpre2 _ _ Hfile); eauto).
    pose proof (placed_as_size _ _ _ _ _ _ _ Hplaced Hthere). lia. }
  do 2 eexists. split; [reflexivity |]. split; [discriminate |].
  cbn [files write_log world_logging].
  apply (finalize_effect_preserved file_path (files w) (files w3) (files w4));
    [exact Heff3 | rewrite Hfile; eauto | exact Hpre4].
Qed.
End FinalizeStage.

Lemma finalize_never_loses_witness :
  exists w',
    finalize_on_mvai 4 fresh_clip (World {[ fresh_clip := File "video" ]} [])
    = (Return tt, w')
    /\ finalize_effect mvai_lipsync fresh_clip {[ fresh_clip := File "video" ]}
         (files w').
Proof.
  refine (finalize_never_loses 0%N (fun _ => false) mvai_final_assets
            mvai_lipsync (fun _ => Done tt)
            (fun _ file_name original => file_name +:+ original)
            4 fresh_clip (World {[ fresh_clip := File "video" ]} []) _ _).
  - vm_compute. discriminate.
  - vm_compute. lia.
Defined.

Lemma path_name_joinpath (d : path) (nm : string) : path_name (joinpath d nm) = nm.
Proof. unfold path_name, joinpath. rewrite last_snoc. reflexivity. Qed.

Section FinalizeFresh.
Variable dir_size : N.
Variable refuses : io_op -> bool.
Context {Probe : Type}.
Variable base_dir : path.
Variable probe : path -> tool_result Probe.
Variable metadata_xml : Probe -> string -> string -> string.

Local Abbreviation final_dir := (MediaProcessor.final_assets_dir base_dir).
Local Abbreviation lipsync_dir := (MediaProcessor.lipsync_video_dir base_dir).

(** X14.  When the video is a non-empty file lying in the lip-sync folder
    (with no "used" archive folder among the parts of its path), the probe
    succeeds and the operating system refuses nothing, the
    finalize stage makes a new set folder under the final assets and puts
    into it a copy of the video and the metadata record made from the probe,
    the copy's name and the original's name; the original is moved from
    the lip-sync folder to its archive; and the last log entry is the
    SUCCESS of the stage. *)
Theorem finalize_delivers (fuel : nat) (file_path : path) (w : world)
    (data : string) (pr : Probe) :
  files w !! file_path = Some (File data) -> data <> "" ->
  path_parent file_path = lipsync_dir ->
  used_folder ∉ file_path ->
  probe file_path = Done pr ->
  (forall op, refuses op = false) ->
  (size (files w) + 2 < fuel)%nat ->
  exists w' set_name file_name xml_name,
    finalize_assets dir_size refuses final_dir lipsync_dir probe metadata_xml
      fuel file_path w = (Return tt, w')
    /\ files w' !! file_path = None
    /\ new_entry (joinpath lipsync_dir used_folder) (Some (File data))
         (files w) (files w')
    /\ files w !! joinpath final_dir set_name = None
    /\ files w' !! joinpath final_dir set_name = Some Dir
    /\ files w' !! joinpath (joinpath final_dir set_name) file_name
       = Some (File data)
    /\ files w' !! joinpath (joinpath final_dir set_name) xml_name
       = Some (File (metadata_xml pr file_name (path_name file_path)))
    /\ last (log w') = Some (LogEntry SUCCESS "最終処理完了").
Proof.
  intros Hfile Hdata Hparent Hused Hprobe Hall Hfuel.
  assert (forall a b, joinpath (joinpath final_dir a) b <> file_path) as Hdeep.
  { intros a b E. rewrite <- E, path_parent_joinpath in Hparent.
    revert Hparent. path_depth. }
  unfold finalize_assets, try_except at 1.
  rewrite (bind_return _ _ w w _ (path_exists_eq file_path w)).
  rewrite bool_decide_eq_true_2 by eauto. cbn [negb].
  unfold bind at 1. rewrite (st_size_file _ _ data) by exact Hfile.
  assert ((N.of_nat (String.length data) =? 0)%N = false) as ->.
  { destruct data; [congruence | reflexivity]. }
  unfold bind at 1, log_callback at 1.
  set (w1 := write_log (LogEntry INFO "最終処理を開始") w).
  unfold bind at 1, try_except at 1, bind at 1.
  rewrite Hprobe. cbn [run ret].
  unfold bind at 1.
  destruct (free_name_returns fuel
              (fun counter =>
                 joinpath final_dir (numbered (path_stem file_path) counter ""))
              (joinpath final_dir (path_stem file_path)) 1 w1)
    as (set_folder & Eset & Hset); [apply candidate_inj | cbn; lia |].
  assert (exists nm, set_folder = joinpath final_dir nm) as [set_name ->].
  { eapply (free_name_shape (fun q => exists nm, q = joinpath final_dir nm));
      [| | exact Eset]; cbn; eauto. }
  rewrite Eset. change (files w1) with (files w) in Hset.
  unfold bind at 1. rewrite mkdir_fresh by exact Hset. rewrite Hall.
  unfold bind at 1, log_callback at 1.
  set (w2 := write_log (LogEntry INFO "セットフォルダを作成しました")
               (World (<[joinpath final_dir set_name := Dir]> (files w1)) (log w1))).
  assert (files w2 = <[joinpath final_dir set_name := Dir]> (files w)) as Hw2
    by reflexivity.
  assert (size (files w2) = S (size (files w))) as Hsize2
    by (rewrite Hw2; apply map_size_insert_None, Hset).
  assert (joinpath final_dir set_name <> file_path) as Hset_ne
    by (intros E; rewrite E in Hset; congruence).
  assert (files w2 !! file_path = Some (File data)) as Hfile2
    by (rewrite Hw2, lookup_insert_ne by exact Hset_ne; exact Hfile).
  unfold bind at 1.
  destruct (free_name_returns fuel
              (fun counter =>
                 joinpath (joinpath final_dir set_name)
                   (numbered (path_stem file_path) counter (path_suffix file_path)))
              (joinpath (joinpath final_dir set_name) (path_name file_path)) 1 w2)
    as (dest & Edest & Hdest); [apply candidate_inj | lia |].
  assert (exists nm, dest = joinpath (joinpath final_dir set_name) nm)
    as [file_name ->].
  { eapply (free_name_shape
              (fun q => exists nm, q = joinpath (joinpath final_dir set_name) nm));
      [| | exact Edest]; cbn; eauto. }
  rewrite Edest.
  unfold bind at 1, place_video, try_except at 1.
  rewrite (bool_decide_eq_false_2 _ Hused).
  unfold bind at 1.
  destruct (free_name_returns fuel
              (fun counter =>
                 joinpath (joinpath lipsync_dir used_folder)
                   (numbered (path_stem file_path) counter (path_suffix file_path)))
              (joinpath (joinpath lipsync_dir used_folder) (path_name file_path))
              1 w2)
    as (used_path & Eused & Hfree); [apply candidate_inj | lia |].
  assert (exists nm, used_path = joinpath (joinpath lipsync_dir used_folder) nm)
    as [used_name ->].
  { eapply (free_name_shape
              (fun q => exists nm,
                   q = joinpath (joinpath lipsync_dir used_folder) nm));
      [| | exact Eused]; cbn; eauto. }
  rewrite Eused.
  unfold bind at 1. rewrite move_eq, Hfile2, Hall.
  unfold bind at 1, log_callback at 1.
  unfold bind at 1. rewrite copy2_eq. cbn [files write_log world_logging].
  rewrite lookup_insert_eq, Hall.
  unfold bind at 1, log_callback at 1. cbn [ret negb].
  set (dest := joinpath (joinpath final_dir set_name) file_name) in *.
  set (used_path := joinpath (joinpath lipsync_dir used_folder) used_name) in *.
  set (fs4 := <[dest := File data]>
                (<[used_path := File data]> (delete file_path (files w2)))).
  match goal with
  | |- context [bind (write_metadata _ _ _ _ _ _ _) _ ?w0] => set (w4 := w0)
  end.
  assert (files w4 = fs4) as Hw4 by reflexivity.
  assert (size fs4 <= S (size (files w2)))%nat as Hsize4.
  { subst fs4.
    pose proof (map_size_moved file_path used_path (File data) (files w2)
                  ltac:(eauto)) as Hm.
    pose proof (map_size_insert_le dest (File data)
                  (<[used_path := File data]> (delete file_path (files w2)))).
    lia. }
  unfold bind at 1, write_metadata, bind at 1.
  destruct (free_name_returns fuel
              (fun counter =>
                 joinpath (joinpath final_dir set_name)
                   (numbered (path_stem file_path +:+ "_metadata") counter ".xml"))
              (joinpath (joinpath final_dir set_name)
                 (path_stem file_path +:+ "_metadata.xml")) 1 w4)
    as (xml_path & Exml & Hxml); [apply candidate_inj | rewrite Hw4; lia |].
  assert (exists nm, xml_path = joinpath (joinpath final_dir set_name) nm)
    as [xml_name ->].
  { eapply (free_name_shape
              (fun q => exists nm, q = joinpath (joinpath final_dir set_name) nm));
      [| | exact Exml]; cbn; eauto. }
  rewrite Exml. unfold try_except at 1, bind at 1.
  rewrite write_file_eq, Hall. unfold log_callback.
  set (xml_path := joinpath (joinpath final_dir set_name) xml_name) in *.
  exists (write_log (LogEntry SUCCESS "最終処理完了")
            (write_log (LogEntry SUCCESS "XMLメタデータを生成しました")
               (World (<[xml_path := File (metadata_xml pr (path_name dest)
                                            (path_name file_path))]> (files w4))
                  (log w4)))),
    set_name, file_name, xml_name.
  split; [reflexivity |].
  cbn [files log write_log world_logging]. rewrite Hw4 in Hxml |- *.
  assert (fs4 !! file_path = None) as Hgone.
  { subst fs4. rewrite lookup_insert_ne by apply Hdeep.
    rewrite lookup_insert_ne by (intros E; rewrite E in Hfree; congruence).
    apply lookup_delete_eq. }
  assert (fs4 !! used_path = Some (File data)) as Hkept.
  { subst fs4. destruct (decide (dest = used_path)) as [-> | Hd].
    - apply lookup_insert_eq.
    - rewrite lookup_insert_ne by exact Hd. apply lookup_insert_eq. }
  assert (fs4 !! dest = Some (File data)) as Hcopy
    by (subst fs4; apply lookup_insert_eq).
  assert (fs4 !! joinpath final_dir set_name = Some Dir) as Hdir.
  { subst fs4.
    rewrite lookup_insert_ne by (subst dest; apply joinpath_ne).
    rewrite lookup_insert_ne by (subst used_path; path_depth).
    rewrite lookup_delete_ne by congruence.
    rewrite Hw2. apply lookup_insert_eq. }
  assert (forall q n, fs4 !! q = Some n ->
                      (<[xml_path := File (metadata_xml pr (path_name dest)
                                             (path_name file_path))]> fs4) !! q
                      = Some n) as Hthrough.
  { intros q n Hq. rewrite lookup_insert_ne by (intros E; rewrite E in Hxml; congruence).
    exact Hq. }
  split.
  { rewrite lookup_insert_ne by (subst xml_path; apply Hdeep). exact Hgone. }
  split.
  { exists used_name. fold used_path. split; [| apply Hthrough, Hkept].
    rewrite Hw2 in Hfree. apply lookup_insert_None in Hfree as [Hfree _].
    exact Hfree. }
  split; [exact Hset |].
  split; [apply Hthrough, Hdir |].
  split; [apply Hthrough, Hcopy |].
  split.
  { rewrite lookup_insert_eq. subst dest. rewrite path_name_joinpath. reflexivity. }
  apply last_snoc.
Qed.
End FinalizeFresh.

Lemma finalize_delivers_witness :
  exists w' set_name file_name xml_name,
    finalize_on_mvai 4 fresh_clip (World {[ fresh_clip := File "video" ]} [])
    = (Return tt, w')
    /\ files w' !! fresh_clip = None
    /\ new_entry (joinpath mvai_lipsync used_folder) (Some (File "video"))
         {[ fresh_clip := File "video" ]} (files w')
    /\ ({[ fresh_clip := File "video" ]} : gmap path node)
         !! joinpath mvai_final_assets set_name = None
    /\ files w' !! joinpath mvai_final_assets set_name = Some Dir
    /\ files w' !! joinpath (joinpath mvai_final_assets set_name) file_name
       = Some (File "video")
    /\ files w' !! joinpath (joinpath mvai_final_assets set_name) xml_name
       = Some (File (file_name +:+ path_name fresh_clip))
    /\ last (log w') = Some (LogEntry SUCCESS "最終処理完了").
Proof.
  refine (finalize_delivers 0%N (fun _ => false) mvai (fun _ => Done tt)
            (fun _ file_name original => file_name +:+ original)
            4 fresh_clip (World {[ fresh_clip := File "video" ]} [])
            "video" tt _ _ _ _ _ _ _).
  - vm_compute. reflexivity.
  - discriminate.
  - vm_compute. reflexivity.
  - apply (bool_decide_unpack _). vm_compute. exact I.
  - reflexivity.
  - reflexivity.
  - vm_compute. lia.
Defined.

(** ** The frame-extraction stage *)

Lemma stills_added_refl (base_dir : path) (fs : gmap path node) :
  stills_added base_dir 0 fs fs.
Proof.
  split; [apply preserved_refl |]. split; [| lia].
  intros p Hp [n Hn]. congruence.
Qed.

Lemma stills_added_weaken (base_dir : path) (n m : nat)
    (fs fs' : gmap path node) :
  stills_added base_dir n fs fs' -> (n <= m)%nat -> stills_added base_dir m fs fs'.
Proof. intros (? & ? & ?) ?. split; [assumption |]. split; [assumption | lia]. Qed.

Lemma stills_added_step (base_dir : path) (n : nat) (nm : string) (nd : node)
    (fs fs' : gmap path node) :
  stills_added base_dir n fs fs' ->
  fs' !! joinpath (MediaProcessor.still_images_dir base_dir) nm = None ->
  stills_added base_dir (S n) fs
    (<[joinpath (MediaProcessor.still_images_dir base_dir) nm := nd]> fs').
Proof.
  intros (Hpre & Hnew & Hsize) Hfree. split; [apply preserved_insert; assumption |].
  split.
  - intros p Hp [m Hm].
    destruct (decide (p = joinpath (MediaProcessor.still_images_dir base_dir) nm))
      as [-> | Hne]; [eauto |].
    rewrite lookup_insert_ne in Hm by congruence. apply Hnew; eauto.
  - rewrite map_size_insert_None by exact Hfree. lia.
Qed.

Lemma num_frames_ends {T : Type} `{Number T} `{Product T}
    (duration fps : T) :
  MediaProcessor.num_frames duration fps = Diverge -> False.
Proof.
  unfold MediaProcessor.num_frames, py_int.
  destruct (to_int _); discriminate.
Qed.

Section FrameStage.
Variable dir_size : N.
Variable refuses : io_op -> bool.
Variable base_dir : path.
Context {T : Type} `{Number T} `{Product T}.
Variable probe : path -> tool_result (MediaProcessor.probe_answer T).
Variable extract_frame : path -> T -> path -> MediaProcessor.run_result.

Local Abbreviation stills_dir := (MediaProcessor.still_images_dir base_dir).

Lemma extract_frames_adds (fuel : nat) (file_path : path) (timestamps : list T) :
  forall (i extracted_count n : nat) (w0 w : world),
    stills_added base_dir n (files w0) (files w) ->
    (size (files w) + length timestamps < fuel)%nat ->
    exists count w',
      MediaProcessor.extract_frames base_dir extract_frame fuel file_path i
        timestamps extracted_count w
      = (Return count, w')
      /\ stills_added base_dir (n + length timestamps) (files w0) (files w').
Proof.
  induction timestamps as [| timestamp rest IH];
    intros i extracted_count n w0 w Hadded Hfuel.
  - exists extracted_count, w. split; [reflexivity |].
    cbn [length]. rewrite Nat.add_0_r. exact Hadded.
  - cbn [MediaProcessor.extract_frames length] in *.
    set (frame_name := path_stem file_path +:+ "_frame_"
                       +:+ MediaProcessor.pad3 (S i)).
    unfold bind at 1, try_except at 1, bind at 1.
    destruct (free_name_returns fuel
                (fun counter =>
                   joinpath stills_dir (numbered frame_name counter ".jpg"))
                (joinpath stills_dir (frame_name +:+ ".jpg")) 1 w)
      as (output_path & Eout & Hfree); [apply candidate_inj | lia |].
    assert (exists nm, output_path = joinpath stills_dir nm) as [out_name ->].
    { eapply (free_name_shape (fun q => exists nm, q = joinpath stills_dir nm));
        [| | exact Eout]; cbn; eauto. }
    rewrite Eout. unfold bind at 1, MediaProcessor.ffmpeg_run.
    set (r := extract_frame file_path timestamp (joinpath stills_dir out_name)).
    set (w1 := match MediaProcessor.leaves r with
               | Some data =>
                   World (<[joinpath stills_dir out_name := File data]> (files w))
                     (log w)
               | None => w
               end).
    assert (stills_added base_dir (S n) (files w0) (files w1)) as Hadded1.
    { subst w1. destruct (MediaProcessor.leaves r) as [data |].
      - cbn [files]. apply stills_added_step; assumption.
      - apply (stills_added_weaken base_dir n); [assumption | lia]. }
    assert (size (files w1) + length rest < fuel)%nat as Hfuel1.
    { subst w1. destruct (MediaProcessor.leaves r); cbn [files]; [| lia].
      rewrite map_size_insert_None by exact Hfree. lia. }
    replace (n + S (length rest))%nat with (S n + length rest)%nat by lia.
    destruct (MediaProcessor.raises r) as [e |]; cbn [Exception].
    + unfold bind at 1, log_callback at 1. cbn [ret].
      apply IH; [exact Hadded1 | exact Hfuel1].
    + rewrite (bind_return _ _ w1 w1 _ (path_exists_eq _ w1)). cbn [ret].
      apply IH; [exact Hadded1 | exact Hfuel1].
Qed.

Lemma num_frames_bounds (duration fps : T) (k : nat) :
  MediaProcessor.num_frames duration fps = Return k -> (1 <= k <= 10)%nat.
Proof.
  unfold MediaProcessor.num_frames. intros E.
  apply obind_return in E as (n & _ & E). injection E as <-. lia.
Qed.

Lemma linspace_length (duration : T) (num : nat) :
  length (MediaProcessor.linspace duration num) = num.
Proof. unfold MediaProcessor.linspace. rewrite length_fmap, length_seq. reflexivity. Qed.

(** X15.  The frame-extraction stage, on any disk, for any path, whatever
    the probe and the extraction runs do, comes back without an exception
    (given more passes for its name searches than the disk has entries,
    plus ten), and it only adds: every entry of the disk is still there
    unchanged, the source video included; every new entry lies in the
    stills folder; and at most ten entries are new. *)
Theorem frames_are_only_added (fuel : nat) (file_path : path) (w : world) :
  (size (files w) + 10 < fuel)%nat ->
  exists w',
    MediaProcessor.process_video_file dir_size base_dir probe extract_frame
      fuel file_path w
    = (Return tt, w')
    /\ stills_added base_dir 10 (files w) (files w').
Proof.
  intros Hfuel. unfold MediaProcessor.process_video_file.
  match goal with
  | |- exists w', try_except ?body _ _ w = _ /\ _ =>
      enough (exists o w1,
                 body w = (o, w1) /\ o <> Diverge
                 /\ stills_added base_dir 10 (files w) (files w1))
        as (o & w1 & E & Ho & Heff)
  end.
  { destruct (try_except_logs _ "動画処理エラー" ERROR w w1 o E Ho)
      as (w2 & E2 & Hfiles).
    exists w2. rewrite E2, Hfiles. auto. }
  assert (forall l, stills_added base_dir 10 (files w)
                      (files (World (files w) l))) as Hidle.
  { intros l. apply (stills_added_weaken base_dir 0);
      [apply stills_added_refl | lia]. }
  rewrite (bind_return _ _ w w _ (path_exists_eq file_path w)).
  destruct (bool_decide (is_Some (files w !! file_path))); cbn [negb].
  2: { do 2 eexists. split; [reflexivity |]. split; [discriminate | apply Hidle]. }
  unfold bind at 1. rewrite st_size_eq.
  destruct (files w !! file_path) as [[data |] |].
  3: { do 2 eexists. split; [reflexivity |].
       split; [discriminate | apply (Hidle [])]. }
  all: match goal with
       | |- context [(?sz =? 0)%N] => destruct (sz =? 0)%N
       end.
  1, 3: do 2 eexists; (split; [reflexivity |]); (split; [discriminate | apply Hidle]).
  all: unfold bind at 1, log_callback at 1;
    set (w1 := write_log (LogEntry INFO "動画ファイルの処理を開始") w);
    unfold bind at 1, try_except at 1, bind at 1;
    destruct (probe file_path) as [pr | e]; cbn [run ret lift Exception].
  2, 4: do 2 eexists; (split; [reflexivity |]); (split; [discriminate | apply Hidle]).
  all: destruct (MediaProcessor.video_stream pr) as [info |];
    [| do 2 eexists; (split; [reflexivity |]);
       (split; [discriminate | apply Hidle])];
    destruct (MediaProcessor.format_duration pr) as [duration |];
    [| do 2 eexists; (split; [reflexivity |]);
       (split; [discriminate | apply Hidle])];
    destruct (leb duration (of_Z 0));
    [do 2 eexists; (split; [reflexivity |]);
     (split; [discriminate | apply Hidle]) |];
    unfold bind at 1;
    destruct (MediaProcessor.num_frames duration
                (MediaProcessor.original_fps (MediaProcessor.r_frame_rate info)))
      as [k | e |] eqn:Ek; cbn [lift];
    [| do 2 eexists; (split; [reflexivity |]);
       (split; [discriminate | apply Hidle])
     | apply num_frames_ends in Ek; destruct Ek];
    apply num_frames_bounds in Ek;
    unfold bind at 1;
    destruct (extract_frames_adds fuel file_path
                (MediaProcessor.linspace duration k) 0 0 0 w w1)
      as (count & w2 & -> & Hadded);
    [apply stills_added_refl
    | rewrite linspace_length; change (files w1) with (files w); lia |];
    rewrite linspace_length in Hadded;
    apply (stills_added_weaken base_dir _ 10) in Hadded; [| lia];
    destruct (0 <? count)%nat;
    do 2 eexists; (split; [reflexivity |]); (split; [discriminate | exact Hadded]).
Qed.
End FrameStage.

(** X16.  In exact arithmetic, for a video of positive duration and any
    frame rate, the frame-extraction stage samples between one and ten
    frames; the sample times are evenly spaced, [i * duration / k] for the
    [k] frames [i = 0 .. k-1], so the first is at 0 and every one lies
    strictly before the end of the video. *)
Theorem frames_sample_inside (duration fps : Q) :
  (0 < duration)%Q ->
  exists k,
    MediaProcessor.num_frames duration fps = Return k
    /\ (1 <= k <= 10)%nat
    /\ length (MediaProcessor.linspace duration k) = k
    /\ forall i t,
         MediaProcessor.linspace duration k !! i = Some t ->
         (t == inject_Z (Z.of_nat i) * duration / inject_Z (Z.of_nat k))%Q
         /\ (0 <= t < duration)%Q.
Proof.
  intros Hd.
  destruct (MediaProcessor.num_frames duration fps) as [k | e |] eqn:Ek.
  2: { unfold MediaProcessor.num_frames, py_int in Ek. discriminate. }
  2: { apply num_frames_ends in Ek. destruct Ek. }
  exists k. split; [reflexivity |].
  pose proof (num_frames_bounds duration fps k Ek) as Hk.
  split; [exact Hk |]. split; [apply linspace_length |].
  intros i t Hi. unfold MediaProcessor.linspace in Hi.
  rewrite list_lookup_fmap in Hi.
  destruct (seq 0 k !! i) as [j |] eqn:Hj; [| discriminate].
  apply lookup_seq in Hj as [-> Hlt]. cbn in Hi. injection Hi as <-.
  cbn [add mul of_Z div Q_number]. unfold mul, Q_product.
  set (I := inject_Z (Z.of_nat i)). set (K := inject_Z (Z.of_nat k)).
  assert (0 <= I)%Q as HI
    by (subst I; change 0%Q with (inject_Z 0); rewrite <- Zle_Qle; lia).
  assert (I < K)%Q as HIK by (subst I K; rewrite <- Zlt_Qlt; lia).
  assert (duration / K * K == duration)%Q as Estep by (field; lra).
  assert (0 < duration / K)%Q as Hstep by (apply Qlt_shift_div_l; lra).
  change (inject_Z 0) with 0%Q.
  split; [field; lra |].
  set (step := (duration / K)%Q) in *.
  assert (0 <= I * step)%Q by (apply Qmult_le_0_compat; lra).
  assert (I * step < K * step)%Q by (apply Qmult_lt_compat_r; lra).
  split; lra.
Qed.

Lemma frames_sample_inside_witness :
  exists k,
    MediaProcessor.num_frames 65%Q 30%Q = Return k
    /\ (1 <= k <= 10)%nat
    /\ length (MediaProcessor.linspace 65%Q k) = k
    /\ forall i t,
         MediaProcessor.linspace 65%Q k !! i = Some t ->
         (t == inject_Z (Z.of_nat i) * 65 / inject_Z (Z.of_nat k))%Q
         /\ (0 <= t < 65)%Q.
Proof.
  apply (frames_sample_inside 65%Q 30%Q). reflexivity.
Defined.

Lemma frames_are_only_added_witness :
  exists w',
    MediaProcessor.process_video_file 0%N mvai
      (fun _ => Done (MediaProcessor.ProbeAnswer (Some full_hd) (Some 65.0%float)))
      (fun _ _ _ => MediaProcessor.RunResult (Some "still") None)
      12 ["C:"; "MVAI"; video_input_folder; "clip.mp4"]
      (World {[ ["C:"; "MVAI"; video_input_folder; "clip.mp4"] := File "video" ]} [])
    = (Return tt, w')
    /\ stills_added mvai 10
         {[ ["C:"; "MVAI"; video_input_folder; "clip.mp4"] := File "video" ]}
         (files w').
Proof.
  refine (frames_are_only_added 0%N mvai
            (fun _ => Done (MediaProcessor.ProbeAnswer (Some full_hd)
                              (Some 65.0%float)))
            (fun _ _ _ => MediaProcessor.RunResult (Some "still") None)
            12 ["C:"; "MVAI"; video_input_folder; "clip.mp4"]
            (World {[ ["C:"; "MVAI"; video_input_folder; "clip.mp4"]
                      := File "video" ]} []) _).
  vm_compute. lia.
Defined.

(** A 65 s clip at 30 fps gives ten stills, [clip_frame_001.jpg] to
    [clip_frame_010.jpg], taken 6.5 s apart from 0 (in binary64). *)
Example frames_of_a_clip :
  let w' :=
    snd (MediaProcessor.process_video_file 0%N mvai
           (fun _ => Done (MediaProcessor.ProbeAnswer (Some full_hd)
                             (Some 65.0%float)))
           (fun _ _ _ => MediaProcessor.RunResult (Some "still") None)
           12 ["C:"; "MVAI"; video_input_folder; "clip.mp4"]
           (World {[ ["C:"; "MVAI"; video_input_folder; "clip.mp4"]
                     := File "video" ]} [])) in
  size (files w') = 11%nat
  /\ files w' !! (MediaProcessor.still_images_dir mvai ++ ["clip_frame_001.jpg"])
     = Some (File "still")
  /\ files w' !! (MediaProcessor.still_images_dir mvai ++ ["clip_frame_010.jpg"])
     = Some (File "still")
  /\ MediaProcessor.linspace 65.0%float 10
     = [0.0; 6.5; 13.0; 19.5; 26.0; 32.5; 39.0; 45.5; 52.0; 58.5]%float
  /\ last (log w') = Some (LogEntry SUCCESS "動画処理完了").
Proof. vm_compute. repeat split; reflexivity. Qed.

(** ** From the high-quality folder to the final assets *)

Section CopyArrives.
Variable dir_size : N.
Variable refuses : io_op -> bool.
Context {Probe : Type}.
Variable final_assets_dir lipsync_video_dir : path.
Variable probe : path -> tool_result Probe.
Variable metadata_xml : Probe -> string -> string -> string.

Lemma placed_copy_there (file_path dest : path) (data : string)
    (fs fs' : gmap path node) :
  placed_as lipsync_video_dir file_path dest data fs true fs' ->
  fs' !! dest = Some (File data).
Proof.
  intros Hplaced. remember true as placed eqn:Ep.
  destruct Hplaced; try discriminate; apply lookup_insert_eq.
Qed.

(** With a non-empty file, a probe that succeeds and nothing refused, the
    finalize stage puts a copy into a new set folder, whether the original is
    in an archive or not, and keeps every other entry of the disk. *)
Lemma finalize_copy_arrives (fuel : nat) (file_path : path) (w : world)
    (data : string) (pr : Probe) :
  files w !! file_path = Some (File data) -> data <> "" ->
  probe file_path = Done pr ->
  (forall op, refuses op = false) ->
  (size (files w) + 2 < fuel)%nat ->
  exists w' set_name file_name,
    finalize_assets dir_size refuses final_assets_dir lipsync_video_dir probe
      metadata_xml fuel file_path w = (Return tt, w')
    /\ files w !! joinpath final_assets_dir set_name = None
    /\ files w' !! joinpath (joinpath final_assets_dir set_name) file_name
       = Some (File data)
    /\ finalize_effect lipsync_video_dir file_path (files w) (files w').
Proof.
  intros Hfile Hdata Hprobe Hall Hfuel.
  unfold finalize_assets, try_except at 1.
  rewrite (bind_return _ _ w w _ (path_exists_eq file_path w)).
  rewrite bool_decide_eq_true_2 by eauto. cbn [negb].
  unfold bind at 1. rewrite (st_size_file _ _ data) by exact Hfile.
  assert ((N.of_nat (String.length data) =? 0)%N = false) as ->.
  { destruct data; [congruence | reflexivity]. }
  unfold bind at 1, log_callback at 1.
  set (w1 := write_log (LogEntry INFO "最終処理を開始") w).
  unfold bind at 1, try_except at 1, bind at 1.
  rewrite Hprobe. cbn [run ret].
  unfold bind at 1.
  destruct (free_name_returns fuel
              (fun counter =>
                 joinpath final_assets_dir
                   (numbered (path_stem file_path) counter ""))
              (joinpath final_assets_dir (path_stem file_path)) 1 w1)
    as (set_folder & Eset & Hset); [apply candidate_inj | cbn; lia |].
  assert (exists nm, set_folder = joinpath final_assets_dir nm) as [set_name ->].
  { eapply (free_name_shape (fun q => exists nm, q = joinpath final_assets_dir nm));
      [| | exact Eset]; cbn; eauto. }
  rewrite Eset. change (files w1) with (files w) in Hset.
  unfold bind at 1. rewrite mkdir_fresh by exact Hset. rewrite Hall.
  unfold bind at 1, log_callback at 1.
  set (w2 := write_log (LogEntry INFO "セットフォルダを作成しました")
               (World (<[joinpath final_assets_dir set_name := Dir]> (files w1))
                  (log w1))).
  assert (files w2 = <[joinpath final_assets_dir set_name := Dir]> (files w))
    as Hw2 by reflexivity.
  assert (preserved (files w) (files w2)) as Hpre2.
  { rewrite Hw2. apply preserved_insert; [apply preserved_refl | exact Hset]. }
  assert (size (files w2) = S (size (files w))) as Hsize2
    by (rewrite Hw2; apply map_size_insert_None, Hset).
  unfold bind at 1.
  destruct (free_name_returns fuel
              (fun counter =>
                 joinpath (joinpath final_assets_dir set_name)
                   (numbered (path_stem file_path) counter (path_suffix file_path)))
              (joinpath (joinpath final_assets_dir set_name) (path_name file_path))
              1 w2)
    as (dest & Edest & Hdest); [apply candidate_inj | lia |].
  assert (exists nm, dest = joinpath (joinpath final_assets_dir set_name) nm)
    as [file_name ->].
  { eapply (free_name_shape
              (fun q => exists nm,
                   q = joinpath (joinpath final_assets_dir set_name) nm));
      [| | exact Edest]; cbn; eauto. }
  rewrite Edest. unfold bind at 1.
  destruct (place_video_outcome refuses lipsync_video_dir fuel file_path
              (joinpath (joinpath final_assets_dir set_name) file_name) data w2)
    as (placed & w3 & -> & Hplaced & Htrue); [apply Hpre2, Hfile | lia |].
  rewrite (Htrue Hall) in *. cbn [negb].
  pose proof (placed_as_effect lipsync_video_dir file_path _ data (files w)
                (files w2) (files w3) true Hplaced Hfile Hpre2 Hdest) as Heff3.
  unfold bind at 1.
  destruct (write_metadata_preserves refuses metadata_xml fuel pr
              (joinpath final_assets_dir set_name) file_path
              (joinpath (joinpath final_assets_dir set_name) file_name) w3)
    as (w4 & -> & Hpre4).
  { assert (is_Some (files w2 !! file_path)) as Hthere
      by (rewrite (Hpre2 _ _ Hfile); eauto).
    pose proof (placed_as_size _ _ _ _ _ _ _ Hplaced Hthere). lia. }
  eexists _, set_name, file_name. split; [reflexivity |].
  cbn [files write_log world_logging].
  split; [exact Hset |].
  split; [apply Hpre4, (placed_copy_there _ _ _ _ _ Hplaced) |].
  apply (finalize_effect_preserved lipsync_video_dir file_path (files w)
           (files w3) (files w4));
    [exact Heff3 | rewrite Hfile; eauto | exact Hpre4].
Qed.
End CopyArrives.

Section Pipeline.
Variable dir_size : N.
Variable refuses : io_op -> bool.
Variable base_dir : path.
Context {Probe : Type}.
Variable probe : path -> tool_result Probe.
Variable metadata_xml : Probe -> string -> string -> string.

Local Abbreviation final_dir := (MediaProcessor.final_assets_dir base_dir).
Local Abbreviation lipsync_dir := (MediaProcessor.lipsync_video_dir base_dir).
Local Abbreviation hq_used_dir :=
  (joinpath (MediaProcessor.hq_video_dir base_dir) used_folder).

(** X17.  The last two stages compose.  For a non-empty video, with a probe
    that succeeds and an operating system that refuses nothing: the
    lip-sync stage leaves its output, with the content of the video, under
    a new name in the lip-sync folder, which is the folder whose files the
    watcher hands to the finalize stage; and the finalize stage, run on that
    output, puts a copy with the same content into a new set folder under
    the final assets.  After both stages the original video is still on
    the disk: in the archive of the high-quality folder under a name that
    was free, or at its own path when it lives in a "used" archive. *)
Theorem lipsync_then_finalize (fuel : nat) (file_path : path) (w : world)
    (data : string) :
  files w !! file_path = Some (File data) -> data <> "" ->
  (forall p, exists pr, probe p = Done pr) ->
  (forall op, refuses op = false) ->
  (size (files w) + 4 < fuel)%nat ->
  exists w1 out_name w2 set_name file_name,
    MediaProcessor.process_lipsync dir_size refuses base_dir fuel file_path w
    = (Return tt, w1)
    /\ files w !! joinpath lipsync_dir out_name = None
    /\ files w1 !! joinpath lipsync_dir out_name = Some (File data)
    /\ path_name (path_parent (joinpath lipsync_dir out_name))
       = stage_folder finalize
    /\ finalize_assets dir_size refuses final_dir lipsync_dir probe metadata_xml
         fuel (joinpath lipsync_dir out_name) w1
       = (Return tt, w2)
    /\ files w1 !! joinpath final_dir set_name = None
    /\ files w2 !! joinpath (joinpath final_dir set_name) file_name
       = Some (File data)
    /\ (if bool_decide (used_folder ∈ file_path)
        then files w2 !! file_path = Some (File data)
        else new_entry hq_used_dir (Some (File data)) (files w) (files w2)).
Proof.
  intros Hfile Hdata Hprobe Hall Hfuel.
  (* the lip-sync stage *)
  unfold MediaProcessor.process_lipsync, try_except at 1.
  rewrite (bind_return _ _ w w _ (path_exists_eq file_path w)).
  rewrite bool_decide_eq_true_2 by eauto. cbn [negb].
  unfold bind at 1. rewrite st_size_eq, Hfile.
  assert ((N.of_nat (String.length data) =? 0)%N = false) as ->.
  { destruct data; [congruence | reflexivity]. }
  unfold bind at 1, log_callback at 1.
  set (w0 := write_log (LogEntry INFO "リップシンク処理を開始") w).
  unfold bind at 1.
  destruct (free_name_returns fuel
              (fun counter =>
                 joinpath lipsync_dir
                   (numbered (path_stem file_path +:+ "_lipsync") counter
                      (path_suffix file_path)))
              (joinpath lipsync_dir
                 (path_stem file_path +:+ "_lipsync" +:+ path_suffix file_path))
              1 w0)
    as (output_path & Eout & Hout); [apply candidate_inj | cbn; lia |].
  assert (exists nm, output_path = joinpath lipsync_dir nm) as [out_name ->].
  { eapply (free_name_shape (fun q => exists nm, q = joinpath lipsync_dir nm));
      [| | exact Eout]; cbn; eauto. }
  rewrite Eout. change (files w0) with (files w) in Hout.
  set (out := joinpath lipsync_dir out_name) in *.
  unfold try_except at 1, bind at 1. rewrite copy2_eq.
  change (files w0) with (files w). rewrite Hfile, Hall.
  set (wc := World (<[out := File data]> (files w)) (log w0)).
  assert (out <> file_path) as Hne by (intros E; rewrite E in Hout; congruence).
  rewrite (bind_return _ _ wc wc _ (path_exists_eq out wc)).
  rewrite bool_decide_eq_true_2
    by (cbn [files wc]; rewrite lookup_insert_eq; eauto).
  unfold bind at 1, log_callback at 1.
  set (ws := write_log (LogEntry SUCCESS "リップシンク処理完了") wc).
  assert (exists w1,
             (if negb (bool_decide (used_folder ∈ file_path))
              then
                try_except
                  (let* used_path :=
                     free_name fuel
                       (fun counter =>
                          joinpath hq_used_dir
                            (numbered (path_stem file_path) counter
                               (path_suffix file_path)))
                       (joinpath hq_used_dir (path_name file_path)) 1 in
                   let* _ := move refuses file_path used_path in
                   log_callback "元ファイルを移動しました" INFO)
                  Exception
                  (fun _ => log_callback "元ファイルの移動に失敗しました" WARNING)
              else
                log_callback "使用済み素材フォルダの動画のため、移動しません" INFO) ws
             = (Return tt, w1)
             /\ files w1 !! out = Some (File data)
             /\ (size (files w1) <= S (size (files w)))%nat
             /\ (if bool_decide (used_folder ∈ file_path)
                 then files w1 !! file_path = Some (File data)
                 else new_entry hq_used_dir (Some (File data)) (files w) (files w1)))
    as (w1 & -> & Hout1 & Hsize1 & Horig1).
  { destruct (bool_decide (used_folder ∈ file_path)); cbn [negb].
    - eexists. split; [reflexivity |]. cbn [files ws wc write_log world_logging].
      split; [apply lookup_insert_eq |].
      split; [rewrite map_size_insert_None by exact Hout; lia |].
      rewrite lookup_insert_ne by exact Hne. exact Hfile.
    - unfold try_except, bind at 1.
      destruct (free_name_returns fuel
                  (fun counter =>
                     joinpath hq_used_dir
                       (numbered (path_stem file_path) counter
                          (path_suffix file_path)))
                  (joinpath hq_used_dir (path_name file_path)) 1 ws)
        as (used_path & Eused & Hfree).
      { apply candidate_inj. }
      { cbn [files ws wc write_log world_logging].
        rewrite map_size_insert_None by exact Hout. lia. }
      assert (exists nm, used_path = joinpath hq_used_dir nm) as [used_name ->].
      { eapply (free_name_shape (fun q => exists nm, q = joinpath hq_used_dir nm));
          [| | exact Eused]; cbn; eauto. }
      rewrite Eused. unfold bind at 1. rewrite move_eq.
      cbn [files ws wc write_log world_logging] in Hfree |- *.
      rewrite lookup_insert_ne by exact Hne. rewrite Hfile, Hall.
      apply lookup_insert_None in Hfree as [Hfree Hne_used].
      eexists. split; [reflexivity |]. cbn [files write_log world_logging].
      split.
      { rewrite lookup_insert_ne by congruence.
        rewrite lookup_delete_ne by congruence. apply lookup_insert_eq. }
      split.
      { pose proof (map_size_moved file_path (joinpath hq_used_dir used_name)
                      (File data) (<[out := File data]> (files w))) as Hm.
        pose proof (map_size_insert_None out (File data) (files w) Hout) as Hs.
        rewrite Hs in Hm. apply Hm.
        rewrite lookup_insert_ne by exact Hne. eauto. }
      exists used_name. split; [exact Hfree | apply lookup_insert_eq]. }
  (* the finalize stage, on the output *)
  destruct (Hprobe out) as [pr Hpr].
  destruct (finalize_copy_arrives dir_size refuses final_dir lipsync_dir probe
              metadata_xml fuel out w1 data pr Hout1 Hdata Hpr Hall)
    as (w2 & set_name & file_name & Efin & Hset & Hcopy & Hothers & _); [lia |].
  exists w1, out_name, w2, set_name, file_name.
  split; [reflexivity |]. split; [exact Hout |]. split; [exact Hout1 |].
  split.
  { rewrite path_parent_joinpath. apply path_name_joinpath. }
  split; [exact Efin |]. split; [exact Hset |]. split; [exact Hcopy |].
  destruct (bool_decide (used_folder ∈ file_path)).
  - apply Hothers; [intros E; apply Hne; symmetry; exact E | exact Horig1].
  - destruct Horig1 as (nm & Hfree & Hnm). exists nm. split; [exact Hfree |].
    apply Hothers; [| exact Hnm].
    subst out. path_depth.
Qed.
End Pipeline.

Lemma lipsync_then_finalize_witness :
  exists w1 out_name w2 set_name file_name,
    lipsync_on_mvai 6 hq_clip (World {[ hq_clip := File "video" ]} [])
    = (Return tt, w1)
    /\ ({[ hq_clip := File "video" ]} : gmap path node)
         !! joinpath (MediaProcessor.lipsync_video_dir mvai) out_name = None
    /\ files w1 !! joinpath (MediaProcessor.lipsync_video_dir mvai) out_name
       = Some (File "video")
    /\ path_name (path_parent (joinpath (MediaProcessor.lipsync_video_dir mvai)
                                 out_name))
       = stage_folder finalize
    /\ finalize_on_mvai 6 (joinpath (MediaProcessor.lipsync_video_dir mvai) out_name)
         w1
       = (Return tt, w2)
    /\ files w1 !! joinpath (MediaProcessor.final_assets_dir mvai) set_name = None
    /\ files w2 !! joinpath (joinpath (MediaProcessor.final_assets_dir mvai)
                               set_name) file_name
       = Some (File "video")
    /\ (if bool_decide (used_folder ∈ hq_clip)
        then files w2 !! hq_clip = Some (File "video")
        else new_entry (joinpath (MediaProcessor.hq_video_dir mvai) used_folder)
               (Some (File "video")) {[ hq_clip := File "video" ]} (files w2)).
Proof.
  refine (lipsync_then_finalize 0%N (fun _ => false) mvai (fun _ => Done tt)
            (fun _ file_name original => file_name +:+ original)
            6 hq_clip (World {[ hq_clip := File "video" ]} []) "video"
            _ _ _ _ _).
  - vm_compute. reflexivity.
  - discriminate.
  - intros p. exists tt. reflexivity.
  - reflexivity.
  - vm_compute. lia.
Defined.

(** ** The folders of the application *)

Section FoldersOnce.
Variable refuses : io_op -> bool.
Variable base_dir : path.

Lemma create_folders_from_there (folders : list string) :
  forall (acc : list string) (w : world),
    Forall (fun folder => is_Some (files w !! joinpath base_dir folder)) folders ->
    create_folders_from refuses base_dir folders acc w = (Return acc, w).
Proof.
  induction folders as [| folder rest IH]; intros acc w Hall; [reflexivity |].
  apply Forall_cons in Hall as [Hfolder Hrest].
  cbn [create_folders_from].
  rewrite (bind_return _ _ w w _ (path_exists_eq _ w)).
  rewrite bool_decide_eq_true_2 by exact Hfolder. cbn [negb].
  apply IH, Hrest.
Qed.

Lemma missing_after_mkdir (folder : string) (fs : gmap path node)
    (rest : list string) :
  folder ∉ rest ->
  filter (fun f => ~ is_Some ((<[joinpath base_dir folder := Dir]> fs)
                              !! joinpath base_dir f)) rest
  = filter (fun f => ~ is_Some (fs !! joinpath base_dir f)) rest.
Proof.
  induction rest as [| f rest IH]; intros Hfresh; [reflexivity |].
  apply not_elem_of_cons in Hfresh as [Hne Hfresh].
  rewrite !filter_cons, IH by exact Hfresh.
  rewrite lookup_insert_ne
    by (intros E; apply joinpath_inj in E; congruence).
  reflexivity.
Qed.

Lemma create_folders_from_returns (folders : list string) :
  NoDup folders ->
  forall (acc created : list string) (w w' : world),
    create_folders_from refuses base_dir folders acc w = (Return created, w') ->
    created
    = acc ++ filter (fun folder => ~ is_Some (files w !! joinpath base_dir folder))
               folders
    /\ Forall (fun folder => is_Some (files w' !! joinpath base_dir folder)) folders
    /\ preserved (files w) (files w')
    /\ log w' = log w.
Proof.
  induction folders as [| folder rest IH]; intros Hnodup acc created w w' E.
  - cbn in E. injection E as <- <-. rewrite app_nil_r.
    split; [reflexivity |]. split; [constructor |].
    split; [apply preserved_refl | reflexivity].
  - apply NoDup_cons in Hnodup as [Hfresh Hnodup].
    cbn [create_folders_from] in E.
    rewrite (bind_return _ _ w w _ (path_exists_eq _ w)) in E.
    rewrite filter_cons.
    destruct (files w !! joinpath base_dir folder) as [n |] eqn:Hfolder.
    + rewrite bool_decide_eq_true_2 in E by eauto. cbn [negb] in E.
      destruct (IH Hnodup _ _ _ _ E) as (-> & Hall & Hpre & Hlog).
      rewrite decide_False by (intros Hno; apply Hno; eauto).
      split; [reflexivity |]. split; [| auto].
      constructor; [| exact Hall]. rewrite (Hpre _ _ Hfolder). eauto.
    + rewrite bool_decide_eq_false_2 in E by (intros [? ?]; discriminate).
      cbn [negb] in E. unfold bind at 1 in E.
      rewrite mkdir_fresh in E by exact Hfolder.
      destruct (refuses (OpMkdir (joinpath base_dir folder))); [discriminate |].
      destruct (IH Hnodup _ _ _ _ E) as (-> & Hall & Hpre & Hlog).
      cbn [files log] in Hpre, Hlog.
      rewrite decide_True by (intros [? ?]; discriminate).
      rewrite <- app_assoc. cbn [app].
      split.
      { do 2 f_equal. apply missing_after_mkdir, Hfresh. }
      split.
      { constructor; [| exact Hall].
        rewrite (Hpre (joinpath base_dir folder) Dir); [eauto |].
        apply lookup_insert_eq. }
      split; [| exact Hlog].
      intros p n Hp. apply Hpre. rewrite lookup_insert_ne; [exact Hp |].
      intros Ep. rewrite Ep in Hfolder. congruence.
Qed.

(** X18.  Whenever [create_folders] returns, the list it returns is the
    required folders that were missing, in order; afterwards every required
    folder path exists; no entry of the disk was lost or changed and
    nothing was logged; and calling it again creates nothing and leaves the
    disk as it is.  When the operating system refuses nothing, it does
    return. *)
Theorem create_folders_once (w : world) :
  (forall created w',
      create_folders refuses base_dir w = (Return created, w') ->
      created = missing_folders base_dir (files w)
      /\ Forall (fun folder => is_Some (files w' !! joinpath base_dir folder))
           REQUIRED_FOLDERS
      /\ preserved (files w) (files w')
      /\ log w' = log w
      /\ create_folders refuses base_dir w' = (Return [], w'))
  /\ ((forall op, refuses op = false) ->
      exists created w', create_folders refuses base_dir w = (Return created, w')).
Proof.
  split.
  - intros created w' E. unfold create_folders in *.
    assert (NoDup REQUIRED_FOLDERS) as Hnodup
      by (apply (bool_decide_unpack _); vm_compute; exact I).
    destruct (create_folders_from_returns _ Hnodup _ _ _ _ E)
      as (-> & Hall & Hpre & Hlog).
    split; [reflexivity |]. split; [exact Hall |]. split; [exact Hpre |].
    split; [exact Hlog |]. apply create_folders_from_there, Hall.
  - intros Hok. unfold create_folders.
    generalize (@nil string) as acc. revert w.
    induction REQUIRED_FOLDERS as [| folder rest IH]; intros w acc.
    + eexists _, _. reflexivity.
    + cbn [create_folders_from].
      rewrite (bind_return _ _ w w _ (path_exists_eq _ w)).
      destruct (files w !! joinpath base_dir folder) as [n |] eqn:Hfolder.
      * rewrite bool_decide_eq_true_2 by eauto. cbn [negb]. apply IH.
      * rewrite bool_decide_eq_false_2 by (intros [? ?]; discriminate).
        cbn [negb]. unfold bind at 1.
        rewrite mkdir_fresh by exact Hfolder. rewrite Hok. apply IH.
Qed.
End FoldersOnce.

(** On a disk that only has the audio intake folder, the nine other folders
    are created, and a second call creates none. *)
Example create_folders_on_mvai :
  let w := World {[ joinpath mvai audio_input_folder := Dir ]} [] in
  let r := create_folders (fun _ => false) mvai w in
  r.1 = Return [ "00_キャラクター"; "02_元動画_Sora"; "03_静止画_選定";
                 "04_AI動画_生成中"; "05_動画_高品質化"; "06_動画_口パク";
                 "98_MV_完成品"; "99_MV_編集素材"; "99_Logs" ]
  /\ size (files r.2) = 10%nat
  /\ (create_folders (fun _ => false) mvai r.2).1 = Return [].
Proof. vm_compute. repeat split; reflexivity. Qed.

(** ** The assembly without a beat table *)

Lemma log_free_ret {A : Type} (a : A) : log_free (ret a).
Proof. intros l. cbn. rewrite app_nil_r. reflexivity. Qed.

Lemma log_free_lift {A : Type} (o : outcome A) : log_free (lift o).
Proof. intros l. cbn. rewrite app_nil_r. reflexivity. Qed.

Lemma log_free_run {A : Type} (r : tool_result A) : log_free (run r).
Proof. destruct r; [apply log_free_ret | apply log_free_lift]. Qed.

Lemma log_free_log (msg : string) (lvl : log_level) :
  log_free (log_callback msg lvl).
Proof. intros l. reflexivity. Qed.

Lemma log_free_bind {A B : Type} (m : M (list log_entry) A)
    (k : A -> M (list log_entry) B) :
  log_free m -> (forall a, log_free (k a)) -> log_free (bind m k).
Proof.
  intros Hm Hk l. unfold bind. rewrite (Hm l).
  destruct (m []) as [[a | e |] out] eqn:Em; cbn [fst snd].
  - rewrite (Hk a (l ++ out)), (Hk a out). cbn [fst snd].
    rewrite app_assoc. reflexivity.
  - reflexivity.
  - reflexivity.
Qed.

Lemma log_free_try {A : Type} (body : M (list log_entry) A)
    (catches : exn -> bool) (handler : exn -> M (list log_entry) A) :
  log_free body -> (forall e, log_free (handler e)) ->
  log_free (try_except body catches handler).
Proof.
  intros Hb Hh l. unfold try_except. rewrite (Hb l).
  destruct (body []) as [[a | e |] out] eqn:Eb; cbn [fst snd];
    try reflexivity.
  destruct (catches e); [| reflexivity].
  rewrite (Hh e (l ++ out)), (Hh e out). cbn [fst snd].
  rewrite app_assoc. reflexivity.
Qed.

(** Applies the closure lemmas as far as the shape of the code is known. *)
Ltac log_free_step :=
  first
    [ apply log_free_ret | apply log_free_lift | apply log_free_run
    | apply log_free_log
    | apply log_free_bind; [| intros ?]
    | apply log_free_try; [| intros ?]
    | match goal with
      | |- log_free (if ?b then _ else _) => destruct b
      | |- log_free (match ?x with _ => _ end) => destruct x
      end ].

Section FallBack.
Context {T : Type} `{Number T} {Clip Video : Type}.
Variable tools : Tools T Clip Video.

Lemma log_free_probe_clips (video_clips : list Clip) :
  log_free (probe_clips tools video_clips).
Proof.
  induction video_clips as [| c rest IH]; cbn [probe_clips];
    repeat log_free_step. exact IH.
Qed.

Lemma log_free_render_segments (clip_segments : list (segment T Clip)) :
  forall (i : nat) (segment_files : list Video),
    log_free (render_segments tools i clip_segments segment_files).
Proof.
  induction clip_segments as [| s rest IH]; intros i segment_files;
    cbn [render_segments]; repeat log_free_step. apply IH.
Qed.

Lemma log_free_match_duration (segment_files : list Video)
    (combined_video : Video) (audio_duration : T) :
  log_free (match_duration tools segment_files combined_video audio_duration).
Proof. unfold match_duration. repeat log_free_step. Qed.

Lemma log_free_assemble (clip_segments : list (segment T Clip))
    (audio_duration : T) :
  log_free (assemble tools clip_segments audio_duration).
Proof.
  unfold assemble.
  apply log_free_try; [| intros ?; repeat log_free_step].
  apply log_free_bind; [apply log_free_render_segments | intros files].
  destruct files as [| f files]; [repeat log_free_step |].
  apply log_free_bind; [apply log_free_run | intros _].
  apply log_free_bind; [repeat log_free_step | intros combined].
  destruct combined as [combined_video |]; [| apply log_free_ret].
  apply log_free_bind; [apply log_free_match_duration | intros v].
  repeat log_free_step.
Qed.
End FallBack.

Lemma same_answer_bind {A B : Type} (m m' : M (list log_entry) A)
    (k k' : A -> M (list log_entry) B) :
  same_answer m m' -> (forall a, same_answer (k a) (k' a)) ->
  same_answer (bind m k) (bind m' k').
Proof.
  intros Hm Hk l l'. unfold bind. specialize (Hm l l').
  destruct (m l) as [[a | e |] s], (m' l') as [[a' | e' |] s'];
    cbn [fst] in *; try discriminate;
    [injection Hm as <-; apply Hk | injection Hm as <-; reflexivity | reflexivity].
Qed.

Lemma same_answer_try {A : Type} (body body' : M (list log_entry) A)
    (catches : exn -> bool) (handler handler' : exn -> M (list log_entry) A) :
  same_answer body body' -> (forall e, same_answer (handler e) (handler' e)) ->
  same_answer (try_except body catches handler)
    (try_except body' catches handler').
Proof.
  intros Hb Hh l l'. unfold try_except. specialize (Hb l l').
  destruct (body l) as [[a | e |] s], (body' l') as [[a' | e' |] s'];
    cbn [fst] in *; try discriminate; try exact Hb.
  injection Hb as <-. destruct (catches e); [apply Hh | reflexivity].
Qed.

Lemma same_answer_refl {A : Type} (m : M (list log_entry) A) :
  log_free m -> same_answer m m.
Proof. intros Hm l l'. rewrite (Hm l), (Hm l'). reflexivity. Qed.

Section FallBackResult.
Context {T : Type} `{Number T} {Clip Video : Type}.
Variable tools : Tools T Clip Video.

Lemma load_beat_data_none :
  ~ beat_table_loads tools ->
  exists out, forall l : list log_entry,
    load_beat_data (beat_csv tools) l = (Return None, l ++ out).
Proof.
  intros Hno. unfold load_beat_data, try_except, bind, run, ret, lift, log_callback.
  destruct (beat_csv tools) as [[df | e] |] eqn:Ecsv; cbn.
  - destruct (df !! "beat_time_seconds") as [bt |] eqn:Ecol; cbn.
    + exfalso. apply Hno. exists df, bt. auto.
    + eexists. intros l. reflexivity.
  - eexists. intros l. reflexivity.
  - eexists. intros l. reflexivity.
Qed.

(** X19.  Without a beat table that loads (no table, a table that cannot
    be read, or one without the beat column), the sync flag changes nothing
    but the log: the assembly gives the same answer with the flag set as
    with the flag off, from whatever logs the two start, so missing beat
    data never fails an assembly by itself, it falls back to the
    sequential fill; and when the run gets as far as planning, the
    fall-back is announced by its WARNING entry. *)
Theorem missing_beats_fall_back (fuel : nat) (video_clips : list Clip) :
  ~ beat_table_loads tools ->
  same_answer (create_mv_from_clips tools fuel video_clips true)
    (create_mv_from_clips tools fuel video_clips false)
  /\ (forall l,
        audio_exists tools = true ->
        (exists a, probe_audio tools = Done a /\ leb a (of_Z 0) = false) ->
        mkdir_temp tools = Done tt ->
        fallback_warning ∈ (create_mv_from_clips tools fuel video_clips true l).2).
Proof.
  intros Hno. destruct (load_beat_data_none Hno) as [out Hload]. split.
  - unfold create_mv_from_clips.
    apply same_answer_try;
      [| intros e; apply same_answer_refl; repeat log_free_step].
    apply same_answer_bind; [apply same_answer_refl, log_free_log | intros _].
    destruct (audio_exists tools); cbn [negb];
      [| apply same_answer_refl; repeat log_free_step].
    apply same_answer_bind;
      [apply same_answer_refl; repeat log_free_step | intros audio_duration].
    destruct (leb audio_duration (of_Z 0));
      [apply same_answer_refl; repeat log_free_step |].
    apply same_answer_bind; [apply same_answer_refl, log_free_run | intros _].
    apply same_answer_bind.
    + intros l l'. unfold bind at 1. rewrite Hload. reflexivity.
    + intros beat. apply same_answer_refl.
      apply log_free_bind; [apply log_free_probe_clips | intros ds].
      apply log_free_bind; [repeat log_free_step | intros segs].
      apply log_free_assemble.
  - intros l Ea (a & Ep & Eleb) Emk.
    unfold create_mv_from_clips, try_except at 1.
    unfold bind at 1, log_callback at 1. rewrite Ea. cbn [negb].
    unfold bind at 1, try_except at 1. rewrite Ep. cbn [run ret]. rewrite Eleb.
    unfold bind at 1. rewrite Emk. cbn [run ret].
    unfold bind at 1. unfold bind at 1. rewrite Hload.
    unfold bind at 1, log_callback at 1. cbn [ret].
    match goal with
    | |- context [bind ?m ?k ?s] => set (rest := bind m k); set (l1 := s)
    end.
    assert (log_free rest) as Hrest.
    { subst rest.
      apply log_free_bind; [apply log_free_probe_clips | intros ds].
      apply log_free_bind; [repeat log_free_step | intros segs].
      apply log_free_assemble. }
    assert (fallback_warning ∈ l1) as Hin.
    { subst l1. unfold write_log, log_only.
      apply elem_of_app. right. apply list_elem_of_singleton. reflexivity. }
    rewrite (Hrest l1).
    destruct (rest []) as [[b | e |] out']; cbn [fst snd Exception].
    + apply elem_of_app. left. exact Hin.
    + unfold bind, log_callback, ret, write_log, log_only. cbn [snd].
      apply elem_of_app. left. apply elem_of_app. left. exact Hin.
    + apply elem_of_app. left. exact Hin.
Qed.
End FallBackResult.

Lemma missing_beats_fall_back_witness :
  same_answer (create_mv_from_clips scenario_A_tools 5 scenario_A_clips true)
    (create_mv_from_clips scenario_A_tools 5 scenario_A_clips false)
  /\ (forall l,
        audio_exists scenario_A_tools = true ->
        (exists a, probe_audio scenario_A_tools = Done a
                   /\ leb a (of_Z 0) = false) ->
        mkdir_temp scenario_A_tools = Done tt ->
        fallback_warning
        ∈ (create_mv_from_clips scenario_A_tools 5 scenario_A_clips true l).2).
Proof.
  apply (missing_beats_fall_back scenario_A_tools 5 scenario_A_clips).
  intros (df & bt & Hcsv & _). discriminate.
Defined.

(** On scenario A the assembly with the sync flag set answers true, as it
    does with the flag off, after the WARNING of the fall-back. *)
Example scenario_A_falls_back :
  (create_mv_from_clips scenario_A_tools 5 scenario_A_clips true []).1
  = Return true
  /\ (create_mv_from_clips scenario_A_tools 5 scenario_A_clips false []).1
     = Return true
  /\ level <$> (create_mv_from_clips scenario_A_tools 5 scenario_A_clips true []).2
     = [INFO; WARNING; WARNING; INFO; SUCCESS].
Proof. vm_compute. repeat split; reflexivity. Qed.

(** ** The assembly without clips *)

Section NoClips.
Context {T : Type} `{Number T} {Clip Video : Type}.
Variable tools : Tools T Clip Video.

Lemma beat_loop_no_clips (clip_durations : list T) (audio_duration : T)
    (beat_times : list T) (starts : list nat) :
  forall (clip_index : nat) (st : nat * list (segment T Clip)),
    beat_loop [] clip_durations audio_duration beat_times starts (clip_index, [])
    = Return st ->
    st.2 = [].
Proof.
  induction starts as [| i starts IH]; intros clip_index st E.
  - cbn in E. injection E as <-. reflexivity.
  - cbn [beat_loop] in E. unfold beat_body at 1 in E.
    destruct (window audio_duration beat_times i) as [w | e |]; cbn [obind] in E;
      try discriminate.
    destruct (leb (sub w.2 w.1) (of_Z 0)).
    + cbn [obind] in E. apply IH in E. exact E.
    + cbn in E. discriminate.
Qed.

Lemma plan_no_clips (fuel : nat) (clip_durations : list T) (audio_duration : T)
    (beat : option (beat_data T)) :
  (0 < fuel)%nat ->
  match beat with
  | Some d => plan_beat_sync (@nil Clip) clip_durations audio_duration
                (beat_times d)
  | None => plan_sequential (@nil Clip) clip_durations audio_duration fuel
  end = Return []
  \/ exists e,
       match beat with
       | Some d => plan_beat_sync (@nil Clip) clip_durations audio_duration
                     (beat_times d)
       | None => plan_sequential (@nil Clip) clip_durations audio_duration fuel
       end = Raise e.
Proof.
  intros Hfuel. destruct beat as [d |].
  - unfold plan_beat_sync.
    destruct (beat_loop [] clip_durations audio_duration (beat_times d)
                (py_range 0 (length (beat_times d)) beats_per_clip) (0%nat, []))
      as [st | e |] eqn:E; cbn [obind].
    + left. apply beat_loop_no_clips in E. rewrite E. reflexivity.
    + right. eauto.
    + exfalso.
      apply (plan_beat_sync_comes_back (@nil Clip) clip_durations audio_duration
               (beat_times d)).
      unfold plan_beat_sync. rewrite E. reflexivity.
  - destruct fuel as [| fuel]; [lia |]. unfold plan_sequential.
    cbn [fill_loop]. destruct (ltb (of_Z 0) audio_duration).
    + right. eexists. reflexivity.
    + left. reflexivity.
Qed.

Lemma assemble_nothing (audio_duration : T) (l : list log_entry) :
  exists l',
    assemble tools (@nil (segment T Clip)) audio_duration l = (Return false, l')
    /\ last_level l' = Some ERROR.
Proof.
  eexists. split; [reflexivity |]. apply last_level_snoc.
Qed.

(** X20.  With an empty clip list the assembly makes no video: for either
    value of the sync flag, any log it starts with and whatever the tools
    and the file system do, it returns false, and the last log entry is an
    ERROR.  (One pass of the sequential-fill loop is all it can take.) *)
Theorem no_clips_no_video (fuel : nat) (sync_to_beat : bool)
    (l : list log_entry) :
  (0 < fuel)%nat ->
  exists l',
    create_mv_from_clips tools fuel (@nil Clip) sync_to_beat l = (Return false, l')
    /\ last_level l' = Some ERROR.
Proof.
  intros Hfuel. unfold create_mv_from_clips, try_except at 1.
  unfold bind at 1, log_callback at 1.
  destruct (audio_exists tools); cbn [negb].
  2: { eexists. split; [reflexivity |]. apply last_level_snoc. }
  unfold bind at 1.
  set (l0 := write_log (LogEntry INFO "MV生成を開始") l).
  assert (exists a, try_except (run (probe_audio tools)) Exception
                      (fun _ => ret (of_Z 0)) l0 = (Return a, l0)) as [a ->].
  { unfold try_except, run, ret, lift.
    destruct (probe_audio tools); cbn; eauto. }
  destruct (leb a (of_Z 0)).
  { eexists. split; [reflexivity |]. apply last_level_snoc. }
  unfold bind at 1.
  destruct (mkdir_temp tools) as [[] | e]; cbn [run ret lift Exception].
  2: { eexists. split; [reflexivity |]. apply last_level_snoc. }
  unfold bind at 1.
  match goal with
  | |- context [let (o, s') := ?m l0 in _] =>
      assert (exists beat l1, m l0 = (Return beat, l1)) as (beat & l1 & ->)
  end.
  { destruct sync_to_beat; [| eexists _, _; reflexivity].
    unfold bind at 1.
    destruct (load_beat_data_returns (beat_csv tools) l0) as (r & l1 & ->).
    destruct r; eexists _, _; reflexivity. }
  unfold bind at 1. cbn [probe_clips ret].
  unfold bind at 1.
  assert (exists o l2,
             (match beat with
              | Some d =>
                  let* p := lift (plan_beat_sync (@nil Clip) [] a (beat_times d)) in
                  let* _ := log_callback "ビート同期" INFO in
                  ret p
              | None =>
                  let* p := lift (plan_sequential (@nil Clip) [] a fuel) in
                  let* _ := log_callback "通常結合" INFO in
                  ret p
              end) l1 = (o, l2)
             /\ (o = Return [] \/ exists e, o = Raise e))
    as (o & l2 & -> & Ho).
  { destruct (plan_no_clips fuel [] a beat Hfuel) as [E | [e E]];
      destruct beat as [d |]; unfold bind, lift, log_callback, ret; rewrite E;
      eexists _, _; (split; [reflexivity | eauto]). }
  destruct Ho as [-> | [e ->]].
  - destruct (assemble_nothing a l2) as (l' & -> & Hlast).
    exists l'. split; [reflexivity | exact Hlast].
  - eexists. split; [reflexivity |]. apply last_level_snoc.
Qed.
End NoClips.

Lemma no_clips_no_video_witness :
  exists l',
    create_mv_from_clips scenario_A_tools 1 (@nil nat) true [] = (Return false, l')
    /\ last_level l' = Some ERROR.
Proof.
  apply (no_clips_no_video scenario_A_tools 1 true []). lia.
Defined.
